(** * EdVenture educational mode: the image → OCR → explanation pipeline

    A shallow embedding of the six pipeline handlers of the repository
    (api/pipeline.js, netlify/functions/pipeline.js and the four further
    variants kept under src/unnamed) and of their helper [tryEvaluate],
    followed by the properties the specification states about them.

    JavaScript strings are sequences of UTF-16 code units; numbers are
    IEEE-754 binary64 values, here the [spec_float] of the Standard
    Library with precision 53 and maximal exponent 1024. *)

From Stdlib Require Import ZArith QArith List Bool.
From Stdlib Require Import Floats.SpecFloat.
From stdpp Require Import gmap strings list.

#[local] Set Warnings "-register-all".
#[local] Open Scope Z_scope.

(** ** Strings *)

(** A JavaScript string: its UTF-16 code units. *)
Definition jsstring := list N.

(** The code units of an ASCII literal. *)
Fixpoint u (s : string) : jsstring :=
  match s with
  | EmptyString => []
  | String a r => Ascii.N_of_ascii a :: u r
  end.

Module Ch.
Definition lf : N := 10.
Definition dquote : N := 34.
Definition squote : N := 39.
Definition lparen : N := 40.
Definition rparen : N := 41.
Definition star : N := 42.
Definition plus : N := 43.
Definition minus : N := 45.
Definition dot : N := 46.
Definition slash : N := 47.
Definition zero : N := 48.
Definition nine : N := 57.
Definition equals : N := 61.
Definition backtick : N := 96.
(** U+00D7 MULTIPLICATION SIGN *)
Definition times : N := 215.
End Ch.

Definition is_digit (c : N) : bool := (Ch.zero <=? c)%N && (c <=? Ch.nine)%N.

(** The class [\s] of a regular expression without the [u] flag, which is
    also the set [String.prototype.trim] strips: WhiteSpace and
    LineTerminator of ECMA-262. *)
Definition is_space (c : N) : bool :=
  ((9 <=? c)%N && (c <=? 13)%N) || (c =? 32)%N || (c =? 160)%N || (c =? 5760)%N
  || ((8192 <=? c)%N && (c <=? 8202)%N) || (c =? 8232)%N || (c =? 8233)%N
  || (c =? 8239)%N || (c =? 8287)%N || (c =? 12288)%N || (c =? 65279)%N.

Definition code_eqb (a b : N) : bool := (a =? b)%N.

Fixpoint startsWith (s p : jsstring) : bool :=
  match p, s with
  | [], _ => true
  | _ :: _, [] => false
  | b :: p', a :: s' => code_eqb a b && startsWith s' p'
  end.

(** [s.includes(p)] *)
Fixpoint includes (s p : jsstring) : bool :=
  startsWith s p || match s with [] => false | _ :: s' => includes s' p end.

Fixpoint drop_while (p : N → bool) (s : jsstring) : jsstring :=
  match s with
  | c :: r => if p c then drop_while p r else s
  | [] => []
  end.

Definition trimStart (s : jsstring) : jsstring := drop_while is_space s.
Definition trimEnd (s : jsstring) : jsstring := rev (drop_while is_space (rev s)).
Definition trim (s : jsstring) : jsstring := trimEnd (trimStart s).

Definition starts_with_digit (s : jsstring) : bool :=
  match s with c :: _ => is_digit c | [] => false end.

Definition starts_with (c : N) (s : jsstring) : bool :=
  match s with c' :: _ => (c' =? c)%N | [] => false end.

(** [s.slice(0, n)] for a non-negative [n]. *)
Definition slice0 (n : nat) (s : jsstring) : jsstring := take n s.

(** [s.length] *)
Definition jslength (s : jsstring) : Z := Z.of_nat (length s).

(** ** Values *)

Definition prec : Z := 53.
Definition emax : Z := 1024.
Definition NaN : spec_float := S754_nan.

(** The values JSON and the handlers pass around.  Property names are
    strings; an object maps each of its own properties to a value. *)
Inductive JsVal :=
| JUndefined
| JNull
| JBool (b : bool)
| JNum (f : spec_float)
| JStr (s : jsstring)
| JArr (l : list JsVal)
| JObj (m : gmap jsstring JsVal).

(** ToBoolean *)
Definition truthy (v : JsVal) : bool :=
  match v with
  | JUndefined | JNull => false
  | JBool b => b
  | JNum (S754_zero _) | JNum S754_nan => false
  | JNum _ => true
  | JStr [] => false
  | JStr _ => true
  | JArr _ | JObj _ => true
  end.

Definition nullish (v : JsVal) : bool :=
  match v with JUndefined | JNull => true | _ => false end.

(** [a || b] *)
Definition js_or (a b : JsVal) : JsVal := if truthy a then a else b.

(** [o.k] for a value that is neither null nor undefined: own properties
    of an object; the primitives and arrays of this model have no property
    under the names the handlers read. *)
Definition get_prop (o : JsVal) (k : jsstring) : JsVal :=
  match o with
  | JObj m => default JUndefined (m !! k)
  | _ => JUndefined
  end.

(** ** The host

    What ECMA-262 leaves to the implementation, and the messages of the
    errors the engine itself raises.  The handlers and [tryEvaluate] are
    defined for any host. *)
Inductive Fault :=
| NotAFunction        (* TypeError: calling something that is not callable *)
| NotDestructurable   (* TypeError: destructuring null or undefined *)
| NotPrimitive        (* TypeError: an object that converts to no primitive value *)
| BadJson.            (* SyntaxError of JSON.parse *)

Record Engine := {
  (** Number::exponentiate outside the cases ECMA-262 fixes *)
  pow_approx : spec_float → spec_float → spec_float;
  (** String.prototype.toLowerCase *)
  toLowerCase : jsstring → jsstring;
  (** the [message] of an error raised by the engine *)
  fault_message : Fault → jsstring
}.

(** ** The arithmetic evaluator [tryEvaluate]

    [Function('"use strict";return(' + clean + ')')()] runs the JavaScript
    engine on a text over the seventeen characters [0-9+-*/().].  The engine
    is modelled for exactly these texts: a scanner for the tokens such a
    text can hold and an operator-precedence evaluator for the
    expressions they can form. *)
Module Arith.

Inductive token :=
| TNum (f : spec_float)
| TRegex (pattern : jsstring)
| TPlus | TMinus | TStar | TSlash | TPow
| TLParen | TRParen.

(** *** Numeric literals *)

Definition digit_val (c : N) : Z := Z.of_N (c - Ch.zero).

Definition digits_val (ds : list N) : Z :=
  fold_left (fun acc c => 10 * acc + digit_val c) ds 0.

Definition of_ratio (m : Z) (d : positive) : spec_float :=
  match m with
  | Zpos p => SFdiv prec emax (S754_finite false p 0) (S754_finite false d 0)
  | _ => S754_zero false
  end.

(** The Number value of the decimal literal [ds.fs]: the mathematical
    value [ds fs / 10^|fs|], rounded to nearest, ties to even.  (Past
    twenty significant digits ECMA-262 lets an engine round a
    truncation of the literal instead; engines round the literal.) *)
Definition decimal (ds fs : list N) : spec_float :=
  of_ratio (digits_val (ds ++ fs)) (Z.to_pos (10 ^ Z.of_nat (length fs))).

(** A literal whose integer part has a leading zero is a legacy octal
    (or octal-like decimal) literal, which strict code rejects. *)
Definition legacy_zero (ds : list N) : bool :=
  match ds with
  | c :: _ :: _ => (c =? Ch.zero)%N
  | _ => false
  end.

(** *** Regular expression literals

    Between two slashes the text can only hold digits, [-], [.], the
    quantifiers [*] and [+] and groups.  The pattern is accepted when
    the parentheses match and each quantifier follows an atom. *)
Fixpoint regex_ok (depth : nat) (atom : bool) (p : jsstring) : bool :=
  match p with
  | [] => match depth with O => true | S _ => false end
  | c :: r =>
    if (c =? Ch.lparen)%N then regex_ok (S depth) false r
    else if (c =? Ch.rparen)%N then
      match depth with O => false | S d => regex_ok d true r end
    else if (c =? Ch.star)%N || (c =? Ch.plus)%N then
      atom && regex_ok depth false r
    else regex_ok depth true r
  end.

(** *** The scanner *)

Inductive mode :=
| Ready (operand : bool)     (* between tokens; [operand]: the last token ended an operand *)
| InInt (ds : list N)        (* inside the integer part; a digit comes next *)
| IntDot (ds : list N)       (* after the integer part; the dot comes next *)
| InFrac (ds fs : list N)    (* inside the fraction; a digit comes next *)
| InRegex (body : jsstring)
| LineComment
| BlockComment (operand : bool) (star : bool).

Definition emit (t : token) (rest : option (list token)) : option (list token) :=
  cons t <$> rest.

Definition emit_number (ds fs : list N) (rest : option (list token)) :=
  if legacy_zero ds then None else emit (TNum (decimal ds fs)) rest.

(** [scan m s]: the tokens of [s], or [None] for a text with no valid
    tokenisation.  The text holds no line terminator, so a line comment
    runs to its end.  [++], [--] and a dot that starts no number are
    tokens, but no program over this alphabet can use them: [++] and [--]
    need an assignment target, the dot a property name, the spread an
    iterable callee; the scanner rejects them at once. *)
Fixpoint scan (m : mode) (s : jsstring) {struct s} : option (list token) :=
  match s with
  | [] =>
    match m with
    | Ready _ | LineComment => Some []
    | InInt _ | IntDot _ | InFrac _ _ | InRegex _ | BlockComment _ _ => None
    end
  | c :: r =>
    let after_int ds :=
      if starts_with_digit r then scan (InInt ds) r
      else if starts_with Ch.dot r then scan (IntDot ds) r
      else emit_number ds [] (scan (Ready true) r) in
    let after_frac ds fs :=
      if starts_with_digit r then scan (InFrac ds fs) r
      else emit_number ds fs (scan (Ready true) r) in
    match m with
    | LineComment => scan LineComment r
    | BlockComment o st =>
      if st && (c =? Ch.slash)%N then scan (Ready o) r
      else scan (BlockComment o (c =? Ch.star)%N) r
    | InRegex body =>
      if (c =? Ch.slash)%N then
        if starts_with_digit r then None            (* a digit is no flag *)
        else if regex_ok 0 false body then emit (TRegex body) (scan (Ready true) r)
        else None
      else scan (InRegex (body ++ [c])) r
    | InInt ds => if is_digit c then after_int (ds ++ [c]) else None
    | IntDot ds => if (c =? Ch.dot)%N then after_frac ds [] else None
    | InFrac ds fs => if is_digit c then after_frac ds (fs ++ [c]) else None
    | Ready o =>
      if is_digit c then after_int [c]
      else if (c =? Ch.dot)%N then
        if starts_with_digit r then scan (InFrac [] []) r else None
      else if (c =? Ch.plus)%N then
        if starts_with Ch.plus r then None else emit TPlus (scan (Ready false) r)
      else if (c =? Ch.minus)%N then
        if starts_with Ch.minus r then None else emit TMinus (scan (Ready false) r)
      else if (c =? Ch.lparen)%N then emit TLParen (scan (Ready false) r)
      else if (c =? Ch.rparen)%N then emit TRParen (scan (Ready true) r)
      else if (c =? Ch.star)%N then
        match r with
        | c2 :: r2 =>
          if (c2 =? Ch.star)%N then emit TPow (scan (Ready false) r2)
          else emit TStar (scan (Ready false) r)
        | [] => emit TStar (scan (Ready false) r)
        end
      else if (c =? Ch.slash)%N then
        match r with
        | c2 :: r2 =>
          if (c2 =? Ch.slash)%N then scan LineComment r2
          else if (c2 =? Ch.star)%N then scan (BlockComment o false) r2
          else if o then emit TSlash (scan (Ready false) r)
          else scan (InRegex []) r
        | [] => if o then Some [TSlash] else None
        end
      else None
    end
  end.

(** *** Values and operators

    A program over this alphabet computes with numbers, with the RegExp
    objects its literals create and with the strings [+] builds from
    them.  Such a string starts with the slash of a pattern or with a
    number followed by one; neither it nor a RegExp object converts to a
    number other than NaN, and none of the three is callable. *)
Inductive value :=
| VNum (f : spec_float)
| VObject.            (* a RegExp object, or a string built from one *)

Inductive binop := Add | Sub | Mul | Div | Pow.

Inductive pending :=
| PParen                (* an open parenthesis *)
| PUnary (neg : bool)   (* a prefix [-] or [+] *)
| PBinary (op : binop) (left : value).

Inductive completion :=
| Throw                 (* SyntaxError or TypeError *)
| Normal (v : value).

Definition ToNumber (v : value) : spec_float :=
  match v with VNum f => f | VObject => NaN end.

Section WithEngine.
Context (E : Engine).

(** Number::exponentiate: the first three cases of ECMA-262; the
    others are left to the host. *)
Definition exponentiate (base exponent : spec_float) : spec_float :=
  match exponent, base with
  | S754_nan, _ => NaN
  | S754_zero _, _ => S754_finite false 4503599627370496 (-52)
  | _, S754_nan => NaN
  | _, _ => pow_approx E base exponent
  end.

Definition apply_binary (op : binop) (a b : value) : value :=
  match op with
  | Add =>
    match a, b with
    | VNum x, VNum y => VNum (SFadd prec emax x y)
    | _, _ => VObject                      (* string concatenation *)
    end
  | Sub => VNum (SFsub prec emax (ToNumber a) (ToNumber b))
  | Mul => VNum (SFmul prec emax (ToNumber a) (ToNumber b))
  | Div => VNum (SFdiv prec emax (ToNumber a) (ToNumber b))
  | Pow => VNum (exponentiate (ToNumber a) (ToNumber b))
  end.

Definition apply_unary (neg : bool) (a : value) : value :=
  VNum (if neg then SFopp (ToNumber a) else ToNumber a).

Definition level (op : binop) : nat :=
  match op with Add | Sub => 1 | Mul | Div => 2 | Pow => 3 end%nat.

(** [reduce l ps v]: apply to the operand [v] the pending prefix
    operators and the pending binary operators that bind at least as
    tightly as level [l], innermost first. *)
Fixpoint reduce (l : nat) (ps : list pending) (v : value) : list pending * value :=
  match ps with
  | PUnary neg :: ps' => reduce l ps' (apply_unary neg v)
  | PBinary op a :: ps' =>
    if (l <=? level op)%nat then reduce l ps' (apply_binary op a v) else (ps, v)
  | PParen :: _ | [] => (ps, v)
  end.

(** The state between two tokens: an operand is awaited, or the
    operand [v] has just been read. *)
Inductive cursor :=
| Awaiting
| Have (v : value).

(** [run ts ps c]: the completion of the expression statement whose
    remaining tokens are [ts].  A parenthesis after an operand is a
    call of something that is not callable; [**] directly after a
    prefix operator and its operand is rejected by the grammar. *)
Fixpoint run (ts : list token) (ps : list pending) (c : cursor) : completion :=
  match c, ts with
  | Awaiting, TNum f :: r => run r ps (Have (VNum f))
  | Awaiting, TRegex _ :: r => run r ps (Have VObject)
  | Awaiting, TLParen :: r => run r (PParen :: ps) Awaiting
  | Awaiting, TPlus :: r => run r (PUnary false :: ps) Awaiting
  | Awaiting, TMinus :: r => run r (PUnary true :: ps) Awaiting
  | Awaiting, _ => Throw
  | Have v, [] =>
    match reduce 0 ps v with
    | ([], v') => Normal v'
    | _ => Throw
    end
  | Have v, TPlus :: r => let '(ps', v') := reduce 1 ps v in run r (PBinary Add v' :: ps') Awaiting
  | Have v, TMinus :: r => let '(ps', v') := reduce 1 ps v in run r (PBinary Sub v' :: ps') Awaiting
  | Have v, TStar :: r => let '(ps', v') := reduce 2 ps v in run r (PBinary Mul v' :: ps') Awaiting
  | Have v, TSlash :: r => let '(ps', v') := reduce 2 ps v in run r (PBinary Div v' :: ps') Awaiting
  | Have v, TPow :: r =>
    match ps with
    | PUnary _ :: _ => Throw
    | _ => run r (PBinary Pow v :: ps) Awaiting
    end
  | Have v, TRParen :: r =>
    match reduce 0 ps v with
    | (PParen :: ps', v') => run r ps' (Have v')
    | _ => Throw
    end
  | Have _, (TLParen | TNum _ | TRegex _) :: _ => Throw
  end.

(** [Function('"use strict";return(' + clean + ')')()] *)
Definition evaluate (clean : jsstring) : completion :=
  match scan (Ready false) (Ch.lparen :: clean ++ [Ch.rparen]) with
  | Some ts => run ts [] Awaiting
  | None => Throw
  end.

(** [/[^0-9+\-*/().\s]/g] *)
Definition kept (c : N) : bool :=
  is_digit c || (c =? Ch.plus)%N || (c =? Ch.minus)%N || (c =? Ch.star)%N
  || (c =? Ch.slash)%N || (c =? Ch.lparen)%N || (c =? Ch.rparen)%N
  || (c =? Ch.dot)%N || is_space c.

Definition clean_of (s : jsstring) : jsstring :=
  List.filter (λ c, negb (is_space c)) (List.filter kept s).

Definition isFinite (f : spec_float) : bool :=
  match f with
  | S754_zero _ | S754_finite _ _ _ => true
  | S754_infinity _ | S754_nan => false
  end.

Definition is_number (v : value) : bool :=
  match v with VNum _ => true | VObject => false end.

(** [Number.isFinite(val)]: false of what is not a number. *)
Definition Number_isFinite (v : value) : bool :=
  match v with VNum f => isFinite f | VObject => false end.

(** The last line of the [try] block and the [catch]: with
    [typeof_test], [typeof val === "number" && Number.isFinite(val) ?
    val : null]; without it, [Number.isFinite(val) ? val : null]. *)
Definition result_of (typeof_test : bool) (c : completion) : JsVal :=
  match c with
  | Throw => JNull
  | Normal v =>
    if (negb typeof_test || is_number v) && Number_isFinite v
    then match v with VNum f => JNum f | VObject => JNull end
    else JNull
  end.

(** [tryEvaluate(expr)].  A truthy [expr] that is no string has no
    [replace] method: the call throws inside the [try]. *)
Definition tryEvaluate (typeof_test : bool) (expr : JsVal) : JsVal :=
  match js_or expr (JStr []) with
  | JStr s =>
    match clean_of s with
    | [] => JNull
    | clean => result_of typeof_test (evaluate clean)
    end
  | _ => JNull
  end.

End WithEngine.

End Arith.

(** ** Upstream calls and responses *)

(** A template literal: its literal pieces and the values substituted
    between them, in the order written. *)
Inductive Part :=
| Lit (s : jsstring)
| Subst (v : JsVal).

Definition Text := list Part.

Definition text_of (s : string) : Text := [Lit (u s)].

(** Whether ToString yields the empty string. *)
Fixpoint str_empty (v : JsVal) : bool :=
  match v with
  | JStr [] => true
  | JArr [] => true
  | JArr [x] => nullish x || str_empty x
  | _ => false
  end.

Definition text_empty (t : Text) : bool :=
  forallb (λ p, match p with Lit s => bool_decide (s = []) | Subst v => str_empty v end) t.

(** An element of a multi-part message content: [{ type, text }] or
    [{ type, image_url }], the image given as a string or as [{ url }]. *)
Inductive Item :=
| TextItem (type : string) (text : string)
| ImageItem (type : string) (wrapped : bool) (url : JsVal).

Inductive Content :=
| Plain (t : Text)
| Multi (items : list Item).

Record Message := { role : string; content : Content }.

(** One [fetch] to a chat-completions endpoint: the URL, the bearer
    token of the Authorization header and the fields of the JSON body.
    The sampling temperature and the fixed informational headers are
    constants of each call site and are not recorded. *)
Record Call := {
  call_url : string;
  call_bearer : JsVal;
  call_model : jsstring;
  call_max_tokens : option N;
  call_messages : list Message
}.

(** What the handlers read from an HTTP reply: the status, the status
    text, the body as text ([None] when reading it fails) and, for the
    body as JSON, the value at [choices[0].message.content], [JUndefined]
    when the path is absent ([None] when the body is not JSON). *)
Record Reply := {
  status : N;
  statusText : jsstring;
  body_text : option jsstring;
  reply_content : option JsVal
}.

Definition ok (r : Reply) : bool := (200 <=? status r)%N && (status r <=? 299)%N.

Record Exn := { message : Text }.

(** [fetch] resolves with a reply or rejects. *)
Inductive Fetched :=
| Rejected (e : Exn)
| Resolved (r : Reply).

(** The upstream services: the outcome of the [n]-th call of a request. *)
Definition Upstream := nat → Call → Fetched.

Definition Env := gmap string jsstring.

(** [process.env.NAME] *)
Definition getenv (env : Env) (name : string) : JsVal :=
  match env !! name with Some v => JStr v | None => JUndefined end.

(** A field of a response object before [JSON.stringify]. *)
Inductive Field :=
| FVal (v : JsVal)
| FText (t : Text).

Record Response := {
  statusCode : N;
  body : list (string * Field)
}.

(** [json(status, data)] and [res.status(status).json(data)] *)
Definition json (st : N) (data : list (string * Field)) : Response :=
  {| statusCode := st; body := data |}.

Definition field (k : string) (r : Response) : option Field :=
  snd <$> find (λ kv, bool_decide (kv.1 = k)) (body r).

Definition error_tag (s : string) : list (string * Field) := [("error", FText (text_of s))].

(** ** Effects: a log of the upstream calls, and exceptions *)

Inductive Outcome (A : Type) :=
| Ret (a : A)
| Raise (e : Exn).
Arguments Ret {A} a.
Arguments Raise {A} e.

Definition M (A : Type) : Type := list Call → Outcome A * list Call.

#[global] Instance M_ret : MRet M := λ A a log, (Ret a, log).

#[global] Instance M_bind : MBind M := λ A B f m log,
  match m log with
  | (Ret a, log') => f a log'
  | (Raise e, log') => (Raise e, log')
  end.

Definition throw {A} (e : Exn) : M A := λ log, (Raise e, log).

Definition try_catch {A} (m : M A) (h : Exn → M A) : M A := λ log,
  match m log with
  | (Ret a, log') => (Ret a, log')
  | (Raise e, log') => h e log'
  end.

Definition fetch (up : Upstream) (c : Call) : M Reply := λ log,
  match up (length log) c with
  | Resolved r => (Ret r, log ++ [c])
  | Rejected e => (Raise e, log ++ [c])
  end.

Definition fault {A} (E : Engine) (f : Fault) : M A :=
  throw {| message := [Lit (fault_message E f)] |}.

(** [await r.json()] *)
Definition reply_json (E : Engine) (r : Reply) : M JsVal :=
  match reply_content r with
  | Some v => mret v
  | None => fault E BadJson
  end.

(** [await r.json().catch(() => fallback)], read at [choices[0].message.content] *)
Definition reply_json_or_undefined (r : Reply) : JsVal :=
  default JUndefined (reply_content r).

(** [await r.text().catch(() => fallback)] *)
Definition reply_text_or (fallback : jsstring) (r : Reply) : jsstring :=
  default fallback (body_text r).

(** [c?.trim?.()]: a string is trimmed; an object whose own [trim] is
    neither null nor undefined is called and is no function. *)
Definition opt_trim (E : Engine) (c : JsVal) : M JsVal :=
  match c with
  | JStr s => mret (JStr (trim s))
  | JObj _ => if nullish (get_prop c (u "trim")) then mret JUndefined else fault E NotAFunction
  | _ => mret JUndefined
  end.

(** [try { body } catch (e) { return h(e) }] around a whole handler: the
    response and the upstream calls made on the way. *)
Definition catching (m : M Response) (h : Exn → Response) : Response * list Call :=
  match m [] with
  | (Ret r, log) => (r, log)
  | (Raise e, log) => (h e, log)
  end.

Definition OPENROUTER_URL : string := "https://openrouter.ai/api/v1/chat/completions".
Definition GROQ_URL : string := "https://api.groq.com/openai/v1/chat/completions".
Definition POST : jsstring := u "POST".

(** ** Text helpers shared by the variants *)

(** ASCII upper case of a code unit: how a regular expression with the
    [i] flag (and no [u] flag) compares a code unit with an ASCII letter
    of the pattern. *)
Definition ascii_upper (c : N) : N :=
  if (97 <=? c)%N && (c <=? 122)%N then (c - 32)%N else c.

Fixpoint starts_with_ci (s p : jsstring) : bool :=
  match p, s with
  | [], _ => true
  | _ :: _, [] => false
  | b :: p', a :: s' => code_eqb (ascii_upper a) (ascii_upper b) && starts_with_ci s' p'
  end.

Fixpoint includes_ci (s p : jsstring) : bool :=
  starts_with_ci s p || match s with [] => false | _ :: s' => includes_ci s' p end.

(** LineTerminator: what [.] does not match. *)
Definition is_line_terminator (c : N) : bool :=
  (c =? 10)%N || (c =? 13)%N || (c =? 8232)%N || (c =? 8233)%N.

(** [s.split(c)] for a one-character separator. *)
Fixpoint split_on (c : N) (s : jsstring) : list jsstring :=
  match s with
  | [] => [[]]
  | x :: r =>
    if (x =? c)%N then [] :: split_on c r
    else match split_on c r with
         | piece :: pieces => (x :: piece) :: pieces
         | [] => [[x]]
         end
  end.

(** [s.replace(/\n/g, "<br>")] *)
Definition br_of_newlines (s : jsstring) : jsstring :=
  flat_map (λ c, if (c =? Ch.lf)%N then u "<br>" else [c]) s.

(** [text.split(/\n{2,}/)]: the pieces between the runs of two or more
    newlines.  [piece] is the current piece, reversed; [nl] counts the
    newlines just read. *)
Fixpoint split_blank_lines (piece : jsstring) (nl : nat) (s : jsstring) : list jsstring :=
  match s with
  | [] =>
    match nl with
    | O => [rev piece]
    | S O => [rev (Ch.lf :: piece)]
    | _ => [rev piece; []]
    end
  | c :: r =>
    if (c =? Ch.lf)%N then split_blank_lines piece (S nl) r
    else
      match nl with
      | O => split_blank_lines (c :: piece) O r
      | S O => split_blank_lines (c :: Ch.lf :: piece) O r
      | _ => rev piece :: split_blank_lines [c] O r
      end
  end.

Fixpoint join_lines (l : list jsstring) : jsstring :=
  match l with
  | [] => []
  | [x] => x
  | x :: r => x ++ Ch.lf :: join_lines r
  end.

(** [toFriendlyStepsHtml] of netlify/functions/pipeline.js and
    [toHtmlParagraphs] of the two other Netlify variants: the same body. *)
Definition toHtmlParagraphs (text : jsstring) : jsstring :=
  let paras := List.filter (λ p, negb (bool_decide (p = []))) (trim <$> split_blank_lines [] 0 text) in
  join_lines ((λ p, u "<p>" ++ br_of_newlines p ++ u "</p>") <$> paras).

Definition toFriendlyStepsHtml := toHtmlParagraphs.

(** [s.replace(/\*{2,}/g, "")]: [run] counts the stars just read. *)
Fixpoint strip_star_runs (run : nat) (s : jsstring) : jsstring :=
  let flush := match run with S O => [Ch.star] | _ => [] end in
  match s with
  | [] => flush
  | c :: r =>
    if (c =? Ch.star)%N then strip_star_runs (S run) r
    else flush ++ c :: strip_star_runs O r
  end.

Definition fence : jsstring := [Ch.backtick; Ch.backtick; Ch.backtick].

(** Replacing each fenced block by its inside: the pattern with the lazy
    capture and [$1], and the one whose callback deletes the fences of the
    matched block, compute the same.  A fence opens a block only when
    another one closes it. *)
Fixpoint strip_fences (inside : bool) (s : jsstring) : jsstring :=
  match s with
  | c1 :: (c2 :: (c3 :: r3) as r2) as r1 =>
    if (c1 =? Ch.backtick)%N && (c2 =? Ch.backtick)%N && (c3 =? Ch.backtick)%N then
      if inside then strip_fences false r3
      else if includes r3 fence then strip_fences true r3
      else s
    else c1 :: strip_fences inside r1
  | _ => s
  end.

Fixpoint run_length (p : N → bool) (s : jsstring) : nat :=
  match s with
  | c :: r => if p c then S (run_length p r) else O
  | [] => O
  end.

(** The length of a match of [\[[^\]]*]\([^)]+\)] at the start of [s]. *)
Definition image_match (s : jsstring) : option nat :=
  match s with
  | c :: r =>
    if (c =? 91)%N then
      let a := run_length (λ x, negb (x =? 93)%N) r in
      match drop a r with
      | _ :: c2 :: r2 =>
        let b := run_length (λ x, negb (x =? Ch.rparen)%N) r2 in
        if (c2 =? Ch.lparen)%N && (0 <? b)%nat && starts_with Ch.rparen (drop b r2)
        then Some (a + b + 4)%nat
        else None
      | _ => None
      end
    else None
  | [] => None
  end.

(** [s.replace(/!\[[^\]]*]\([^)]+\)/g, "")]: [skip] code units of a match
    remain to be dropped. *)
Fixpoint strip_images (skip : nat) (s : jsstring) : jsstring :=
  match s with
  | [] => []
  | c :: r =>
    match skip with
    | S k => strip_images k r
    | O =>
      if (c =? 33)%N then
        match image_match r with
        | Some n => strip_images n r
        | None => c :: strip_images O r
        end
      else c :: strip_images O r
    end
  end.

(** [/[0-9=+\-×*/()]/.test(s)] *)
Definition math_char (c : N) : bool :=
  is_digit c || (c =? Ch.equals)%N || (c =? Ch.plus)%N || (c =? Ch.minus)%N
  || (c =? Ch.times)%N || (c =? Ch.star)%N || (c =? Ch.slash)%N
  || (c =? Ch.lparen)%N || (c =? Ch.rparen)%N.

Definition has_math (s : jsstring) : bool := existsb math_char s.

Definition no_math_text : jsstring :=
  u "The image does not contain any mathematical expressions or steps.".

(** A status as a Number. *)
Definition number_of_N (n : N) : JsVal := JNum (Arith.of_ratio (Z.of_N n) 1).

(** [new Error(`${what} failed: ${r.status} ${msg}`)] *)
Definition failed (what : string) (r : Reply) (msg : jsstring) : Exn :=
  {| message := [Lit (u what); Lit (u " failed: "); Subst (number_of_N (status r));
                 Lit (u " "); Subst (JStr msg)] |}.

(** [err.message || "Pipeline error"] *)
Definition message_or_default (e : Exn) : Text :=
  if text_empty (message e) then text_of "Pipeline error" else message e.

(** The event a Netlify function (v1) receives: the method and the raw
    body, given by what [JSON.parse(event.body || "{}")] makes of it. *)
Inductive RawBody :=
| NoBody                  (* null, undefined or empty: parsed as {} *)
| Malformed               (* JSON.parse throws *)
| Parsed (v : JsVal).

Record Event := { httpMethod : jsstring; ev_body : RawBody }.

Definition parse_body (E : Engine) (b : RawBody) : M JsVal :=
  match b with
  | NoBody => mret (JObj ∅)
  | Malformed => fault E BadJson
  | Parsed v => mret v
  end.

(** The default of [stepByStep = true]: it applies to [undefined] only. *)
Definition default_true (v : JsVal) : JsVal :=
  match v with JUndefined => JBool true | _ => v end.

(** [const { imageDataUrl, stepByStep = true } = body]: the two
    properties, the second with its default. *)
Definition destructure (E : Engine) (b : JsVal) : M (JsVal * JsVal) :=
  if nullish b then fault E NotDestructurable
  else mret (get_prop b (u "imageDataUrl"), default_true (get_prop b (u "stepByStep"))).

(** [s.replace(...)] and [s.trim()] on what may be no string. *)
Definition as_string (E : Engine) (v : JsVal) : M jsstring :=
  match v with
  | JStr s => mret s
  | _ => fault E NotAFunction
  end.

(** [typeof content === "string" ? content : ""] *)
Definition string_or_empty (content : JsVal) : jsstring :=
  match content with JStr s => s | _ => [] end.

(** [a ?? b] *)
Definition js_coalesce (a b : JsVal) : JsVal := if nullish a then b else a.

(** The request an Express or Vercel route receives: the method and the
    body the JSON middleware parsed ([JUndefined] when there was none). *)
Record Req := { method : jsstring; req_body : JsVal }.

(** [const { imageDataUrl } = req.body || {}] *)
Definition body_field (b : JsVal) (k : string) : JsVal :=
  if truthy b then get_prop b (u k) else JUndefined.

(** [!imageDataUrl || typeof imageDataUrl !== "string" ||
     !imageDataUrl.startsWith("data:image/")] *)
Definition invalid_image (v : JsVal) : bool :=
  negb (truthy v) ||
  match v with
  | JStr s => negb (startsWith s (u "data:image/"))
  | _ => true
  end.

(** [imageDataUrl.length] of a value already known to be a string *)
Definition string_length (v : JsVal) : Z :=
  match v with JStr s => jslength s | _ => 0 end.

(** ** api/pipeline.js *)
Module ApiPipeline.
Section Handler.
Context (E : Engine) (env : Env) (up : Upstream).

Definition tryEvaluate : JsVal → JsVal := Arith.tryEvaluate E true.

Definition ocr_call (orKey imageDataUrl : JsVal) : Call :=
  {| call_url := OPENROUTER_URL;
     call_bearer := orKey;
     call_model := u "qwen/qwen-2.5-vl-7b-instruct";
     call_max_tokens := Some 200%N;
     call_messages :=
       [ {| role := "system";
            content := Plain (text_of "Transcribe math exactly. Return ONLY the expression or the student's steps. No commentary.") |};
         {| role := "user";
            content := Multi
              [ TextItem "text" "Extract the math expression or steps from this image.";
                ImageItem "image_url" true imageDataUrl ] |} ] |}.

Definition explain_call (groqKey text : JsVal) : Call :=
  {| call_url := GROQ_URL;
     call_bearer := groqKey;
     call_model := u "llama-3.3-70b-versatile";
     call_max_tokens := None;
     call_messages :=
       [ {| role := "system";
            content := Plain (text_of "You are a precise, kind math tutor.
Output requirements:
- Use LaTeX for all math: inline as \( ... \) and display as $$ ... $$.
- No markdown headings (##, ###). Use short sentences and bullet/numbered lists if needed.
- End with the final answer as a display equation using \boxed{...}.") |};
         {| role := "user";
            content := Plain
              [ Lit (u "STUDENT INPUT (OCR):
");
                Subst text;
                Lit (u "

If it's a single expression, show a short step-by-step solution with key intermediate lines in $$...$$ blocks.
If it's student work, briefly point out mistakes and give corrected steps.
Return plain text with LaTeX delimiters (no JSON).") ] |} ] |}.

Definition pipeline (req : Req) : M Response :=
  if negb (bool_decide (method req = POST)) then
    mret (json 405 (error_tag "method_not_allowed"))
  else
  let imageDataUrl := body_field (req_body req) "imageDataUrl" in
  if invalid_image imageDataUrl then mret (json 400 (error_tag "invalid_image")) else
  let orKey := getenv env "OPENROUTER_API_KEY" in
  if negb (truthy orKey) then mret (json 500 (error_tag "missing_openrouter_key")) else
  (* 1) OCR *)
  ocrResp ← fetch up (ocr_call orKey imageDataUrl);
  if negb (ok ocrResp) then
    let t := reply_text_or [] ocrResp in
    mret (json 502 (error_tag "openrouter_failed" ++ [("detail", FVal (JStr (slice0 400 t)))]))
  else
  c ← reply_json E ocrResp;
  trimmed ← opt_trim E c;
  let text := js_or trimmed (JStr []) in
  let numeric := tryEvaluate text in
  (* 2) Explanation *)
  let groqKey := getenv env "GROQ_API_KEY" in
  if negb (truthy groqKey) then mret (json 500 (error_tag "missing_groq_key")) else
  explainResp ← fetch up (explain_call groqKey text);
  if negb (ok explainResp) then
    let t := reply_text_or [] explainResp in
    mret (json 502 (error_tag "groq_failed" ++
                    [("detail", FVal (JStr (slice0 400 t)));
                     ("text", FVal text); ("numeric", FVal numeric)]))
  else
  x ← reply_json E explainResp;
  let explanation := js_or x (JStr []) in
  mret (json 200 [("text", FVal text); ("numeric", FVal numeric);
                  ("explanation", FVal explanation)]).

Definition handler (req : Req) : Response * list Call :=
  catching (pipeline req) (λ _, json 500 (error_tag "pipeline_exception")).

End Handler.
End ApiPipeline.

(** ** netlify/functions/pipeline.js *)
Module NetlifyPipeline.

(** [dataUrlToParts(dataUrl)]: [None] for null, else the media type and
    the text between the first two commas ([JUndefined] without a comma). *)
Definition dataUrlToParts (dataUrl : jsstring) : option (jsstring * JsVal) :=
  if negb (startsWith dataUrl (u "data:")) then None
  else
    let pieces := split_on 44 dataUrl in
    let meta := default [] (head pieces) in
    let base64 := match pieces with _ :: b :: _ => JStr b | _ => JUndefined end in
    Some (drop 5 (default [] (head (split_on 59 meta))), base64).

Definition cleanOCR (s : jsstring) : jsstring :=
  trim (strip_images 0 (strip_fences false (strip_star_runs 0 s))).

Definition ocr_prompt : string :=
  "You are an OCR assistant for math. 
Return ONLY the text you read (no extra commentary). 
If you see a single expression, preserve symbols and spacing. If there are steps, keep line breaks.".

Definition sys_prompt : string :=
  "You explain math solutions for middle/high school students.
- Be concise but complete.
- Typeset math with LaTeX delimiters: inline $...$ and block $$...$$.
- If the OCR text is not math, politely say it doesn't contain math.
- If there is an expression, show the steps and the final boxed answer: $$\boxed{...}$$.".

Definition step_by_step_prompt (ocrText : jsstring) : Text :=
  [ Lit (u "Explain step-by-step the following math work or expression:

");
    Subst (JStr ocrText);
    Lit (u "

If there are errors, correct them and show the right steps clearly.") ].

Definition brief_prompt (ocrText : jsstring) : Text :=
  [ Lit (u "Explain briefly the following math:

"); Subst (JStr ocrText) ].

Section Handler.
Context (E : Engine) (env : Env) (up : Upstream).

Definition ocr_call (imageDataUrl : JsVal) : Call :=
  {| call_url := OPENROUTER_URL;
     call_bearer := getenv env "OPENROUTER_API_KEY";
     call_model := u "qwen2.5-vl-7b-instruct:free";
     call_max_tokens := None;
     call_messages :=
       [ {| role := "user";
            content := Multi [ TextItem "text" ocr_prompt;
                               ImageItem "input_image" false imageDataUrl ] |} ] |}.

Definition runOCRWithOpenRouter (imageDataUrl : JsVal) : M jsstring :=
  dataUrl ← as_string E imageDataUrl;
  match dataUrlToParts dataUrl with
  | None => throw {| message := text_of "Invalid image data URL" |}
  | Some img =>
    r ← fetch up (ocr_call imageDataUrl);
    if negb (ok r) then
      throw (failed "OpenRouter OCR" r (reply_text_or (statusText r) r))
    else
    c ← reply_json E r;
    text ← as_string E (js_coalesce c (JStr []));
    mret (cleanOCR text)
  end.

Definition explain_call (ocrText : jsstring) (stepByStep : JsVal) : Call :=
  {| call_url := GROQ_URL;
     call_bearer := getenv env "GROQ_API_KEY";
     call_model := u "llama3-70b-8192";
     call_max_tokens := None;
     call_messages :=
       [ {| role := "system"; content := Plain (text_of sys_prompt) |};
         {| role := "user";
            content := Plain (if truthy stepByStep then step_by_step_prompt ocrText
                              else brief_prompt ocrText) |} ] |}.

(** [data?.choices?.[0]?.message?.content?.trim() || ""] *)
Definition trimmed_or_empty (c : JsVal) : M jsstring :=
  if nullish c then mret [] else (s ← as_string E c; mret (trim s)).

Definition runExplainWithGroq (ocrText : jsstring) (stepByStep : JsVal) : M jsstring :=
  r ← fetch up (explain_call ocrText stepByStep);
  if negb (ok r) then
    throw (failed "Groq explain" r (reply_text_or (statusText r) r))
  else
  c ← reply_json E r;
  trimmed_or_empty c.

(** The handler once the body is destructured. *)
Definition respond (imageDataUrl stepByStep : JsVal) : M Response :=
  if negb (truthy imageDataUrl) then mret (json 400 (error_tag "Missing imageDataUrl")) else
  (* 1) OCR via OpenRouter (vision) *)
  rawText ← runOCRWithOpenRouter imageDataUrl;
  (* 2) If no math-ish content, tell the UI quickly *)
  if negb (truthy (JStr rawText)) || negb (has_math rawText) then
    mret (json 200 [("text", FVal (JStr rawText));
                    ("explanation", FVal (JStr (toFriendlyStepsHtml no_math_text)))])
  else
  (* 3) Explanation via Groq *)
  explanation ← runExplainWithGroq rawText stepByStep;
  mret (json 200 [("text", FVal (JStr rawText));
                  ("explanation", FVal (JStr (toFriendlyStepsHtml explanation)))]).

Definition pipeline (event : Event) : M Response :=
  if negb (bool_decide (httpMethod event = POST)) then
    mret (json 405 (error_tag "Method Not Allowed"))
  else
  b ← parse_body E (ev_body event);
  '(imageDataUrl, stepByStep) ← destructure E b;
  respond imageDataUrl stepByStep.

Definition handler (event : Event) : Response * list Call :=
  catching (pipeline event) (λ err, json 500 [("error", FText (message_or_default err))]).

End Handler.
End NetlifyPipeline.

(** ** src/unnamed/part_001: the Netlify function on the Fetch API *)
Module Part001.

(** The request: its method and what [req.json()] resolves with
    ([None] when it rejects). *)
Record Request := { method : jsstring; parsed : option JsVal }.

Definition is_quote (c : N) : bool :=
  (c =? Ch.dquote)%N || (c =? Ch.squote)%N || (c =? Ch.backtick)%N.

(** The first replacement of the final cleaning: the run of quotes at
    the start and the run of quotes at the end are deleted. *)
Definition strip_quotes (s : jsstring) : jsstring :=
  rev (drop_while is_quote (rev (drop_while is_quote s))).

(** [s.replace(/^\s*Understood!.*$/i, "")] *)
Definition strip_understood (s : jsstring) : jsstring :=
  let t := drop_while is_space s in
  if starts_with_ci t (u "Understood!") && forallb (λ c, negb (is_line_terminator c)) (drop 11 t)
  then [] else s.

Definition final_cleaning (text : jsstring) : jsstring :=
  trim (strip_understood (strip_quotes text)).

Definition explain_system : string :=
  "You are a precise, kind math tutor.
Output requirements:
- Use LaTeX for all math: inline as \( ... \) and display as $$ ... $$.
- No markdown headings (##, ###). Use short sentences and bullet/numbered lists if needed.
- End with the final answer as a display equation using \boxed{...}.".

Section Handler.
Context (E : Engine) (env : Env) (up : Upstream).

Definition tryEvaluate : JsVal → JsVal := Arith.tryEvaluate E true.

Definition isNoImageReply (s : jsstring) : bool :=
  negb (truthy (JStr s)) ||
  let t := toLowerCase E s in
  includes t (u "provide the image") || includes t (u "no image")
  || includes t (u "cannot see") || bool_decide (trim t = []).

(** Format A wraps the URL in an object, format B gives it as a string. *)
Definition payload (wrapped : bool) (openrouterKey : JsVal) (dataUrl : JsVal) : Call :=
  {| call_url := OPENROUTER_URL;
     call_bearer := openrouterKey;
     call_model := u "qwen/qwen-2.5-vl-7b-instruct";
     call_max_tokens := Some 200%N;
     call_messages :=
       [ {| role := "system";
            content := Plain (text_of "Transcribe math exactly. Return ONLY the expression or the student's steps. No commentary.") |};
         {| role := "user";
            content := Multi
              [ TextItem "text" "Extract the math expression or steps from this image.";
                ImageItem "image_url" wrapped dataUrl ] |} ] |}.

Definition payloadA := payload true.
Definition payloadB := payload false.

Definition callOpenRouter (body : Call) : M jsstring :=
  resp ← fetch up body;
  if negb (ok resp) then
    throw (failed "OpenRouter OCR" resp (slice0 300 (reply_text_or [] resp)))
  else
  let content := js_coalesce (reply_json_or_undefined resp) (JStr []) in
  mret (string_or_empty content).

Definition ocrWithQwen (openrouterKey dataUrl : JsVal) : M jsstring :=
  text ← callOpenRouter (payloadA openrouterKey dataUrl);
  text ← (if isNoImageReply text
          then callOpenRouter (payloadB openrouterKey dataUrl)
          else mret text);
  mret (final_cleaning text).

Definition explain_call (groqKey : JsVal) (text : jsstring) : Call :=
  {| call_url := GROQ_URL;
     call_bearer := groqKey;
     call_model := u "llama-3.3-70b-versatile";
     call_max_tokens := None;
     call_messages :=
       [ {| role := "system"; content := Plain (text_of explain_system) |};
         {| role := "user";
            content := Plain
              [ Lit (u "STUDENT INPUT (OCR):
");
                Subst (JStr text);
                Lit (u "

If it's a single expression, show a short step-by-step solution with key intermediate lines in $$...$$ blocks.
If it's student work, briefly point out mistakes and give corrected steps.
Return plain text with LaTeX delimiters (no JSON).") ] |} ] |}.

Definition explainWithGroq (groqKey : JsVal) (text : jsstring) : M JsVal :=
  resp ← fetch up (explain_call groqKey text);
  if negb (ok resp) then
    throw (failed "Groq explain" resp (slice0 300 (reply_text_or [] resp)))
  else mret (js_or (reply_json_or_undefined resp) (JStr [])).

Definition pipeline (req : Request) : M Response :=
  if negb (bool_decide (method req = POST)) then
    mret (json 405 (error_tag "method_not_allowed"))
  else
  match parsed req with
  | None => mret (json 400 (error_tag "invalid_json"))
  | Some b =>
    let imageDataUrl := body_field b "imageDataUrl" in
    if invalid_image imageDataUrl then mret (json 400 (error_tag "invalid_image")) else
    (* quick sanity check to avoid huge payloads *)
    if 6000000 <? string_length imageDataUrl then mret (json 413 (error_tag "image_too_large")) else
    let openrouterKey := getenv env "OPENROUTER_API_KEY" in
    if negb (truthy openrouterKey) then mret (json 500 (error_tag "missing_openrouter_key")) else
    ocrText ← ocrWithQwen openrouterKey imageDataUrl;
    let numeric := tryEvaluate (JStr ocrText) in
    let groqKey := getenv env "GROQ_API_KEY" in
    if negb (truthy groqKey) then mret (json 500 (error_tag "missing_groq_key")) else
    explanation ← explainWithGroq groqKey ocrText;
    mret (json 200 [("text", FVal (JStr ocrText)); ("numeric", FVal numeric);
                    ("explanation", FVal explanation)])
  end.

Definition handler (req : Request) : Response * list Call :=
  catching (pipeline req) (λ _, json 500 (error_tag "pipeline_exception")).

End Handler.
End Part001.

(** ** src/unnamed/part_000, first file: two OCR models, one after the other *)
Module Part000_1.

Definition negative_text (s : jsstring) : bool :=
  includes_ci s (u "provide the image") || includes_ci s (u "no image")
  || includes_ci s (u "can't see") || includes_ci s (u "cannot see").

(** Whether ToString of a value of JSON throws.  An object converts
    through its [toString] and [valueOf]: with an own property
    [toString], which JSON cannot make callable, neither yields a
    primitive value and the conversion is a TypeError; without one it is
    the text [[object Object]].  An array converts its elements, from the
    first one on, and joins them with commas; [null] and [undefined]
    elements give the empty text. *)
Fixpoint unprintable (v : JsVal) : bool :=
  match v with
  | JObj m => bool_decide (is_Some (m !! u "toString"))
  | JArr l => existsb unprintable l
  | _ => false
  end.

(** Whether [/provide the image|no image|can't see|cannot see/] with the
    flag [i] matches the text of a value that ToString converts.  The
    patterns hold no comma, digit or bracket, so a match lies inside one
    string of [v] or of an array nested in it. *)
Fixpoint negative_reply (v : JsVal) : bool :=
  match v with
  | JStr s => negative_text s
  | JArr l => existsb negative_reply l
  | _ => false
  end.

Definition ocr_system : string :=
  "You are a strict OCR engine for math. Extract ONLY the math expression(s) and/or numbered steps exactly as seen. No extra words.".

Definition nl : jsstring := [Ch.lf].

Section Handler.
Context (E : Engine) (env : Env) (up : Upstream).

(** This copy tests [Number.isFinite(val)] alone. *)
Definition tryEvaluate : JsVal → JsVal := Arith.tryEvaluate E false.

Definition ocrPayloadA (key imageDataUrl : JsVal) : Call :=
  {| call_url := OPENROUTER_URL;
     call_bearer := key;
     call_model := u "qwen/qwen-2.5-vl-7b-instruct";
     call_max_tokens := Some 220%N;
     call_messages :=
       [ {| role := "system"; content := Plain (text_of ocr_system) |};
         {| role := "user";
            content := Multi [ TextItem "input_text" "Extract the math from this image.";
                               ImageItem "input_image" false imageDataUrl ] |} ] |}.

Definition ocrPayloadB (key imageDataUrl : JsVal) : Call :=
  {| call_url := OPENROUTER_URL;
     call_bearer := key;
     call_model := u "google/gemini-1.5-flash";
     call_max_tokens := Some 220%N;
     call_messages :=
       [ {| role := "system"; content := Plain (text_of ocr_system) |};
         {| role := "user";
            content := Multi [ TextItem "text" "Extract the math from this image.";
                               ImageItem "image_url" true imageDataUrl ] |} ] |}.

Definition explain_call (key ocrText : JsVal) : Call :=
  {| call_url := GROQ_URL;
     call_bearer := key;
     call_model := u "llama-3.3-70b-versatile";
     call_max_tokens := None;
     call_messages :=
       [ {| role := "system";
            content := Plain
              [ Lit (u "You are a precise, kind math tutor."); Lit nl;
                Lit (u "Output rules:"); Lit nl;
                Lit (u "- Use LaTeX for all math. Inline with \( ... \); display with $$ ... $$."); Lit nl;
                Lit (u "- No markdown headings. Keep sentences short."); Lit nl;
                Lit (u "- If input is a single expression, solve step-by-step."); Lit nl;
                Lit (u "- If it looks like student work, briefly note mistakes and correct them."); Lit nl;
                Lit (u "- End with the final answer as $$\boxed{...}$$.") ] |};
         {| role := "user";
            content := Plain
              [ Lit (u "OCR TEXT:"); Lit nl;
                Subst (js_or ocrText (JStr (u "(empty)"))); Lit nl; Lit nl;
                Lit (u "Explain or solve clearly. Return plain text containing LaTeX delimiters (no JSON).") ] |} ] |}.

(** [j?.choices?.[0]?.message?.content?.trim?.() ||
     j?.choices?.[0]?.message?.content || ""] *)
Definition content_text (r : Reply) : M JsVal :=
  let c := reply_json_or_undefined r in
  trimmed ← opt_trim E c;
  mret (js_or (js_or trimmed c) (JStr [])).

(** [/provide the image|no image|can't see|cannot see/i.test(v)]: the
    test converts [v] to a string first. *)
Definition regex_test (v : JsVal) : M bool :=
  if unprintable v then fault E NotPrimitive else mret (negative_reply v).

(** Attempt A: the text it leaves in [ocrText]. *)
Definition attemptA (key imageDataUrl : JsVal) : M JsVal :=
  ocrResp ← fetch up (ocrPayloadA key imageDataUrl);
  if negb (ok ocrResp) then mret (JStr [])      (* fall through and try schema B *)
  else
    ocrText ← content_text ocrResp;
    negative ← regex_test ocrText;
    mret (if negative || negb (truthy ocrText) then JStr [] else ocrText).

(** The handler from the numeric evaluation on, once [ocrText] is settled. *)
Definition explain (GROQ_API_KEY ocrText : JsVal) : M Response :=
  let numeric := tryEvaluate ocrText in
  (* the template of the user message converts [ocrText || "(empty)"] *)
  if unprintable (js_or ocrText (JStr (u "(empty)"))) then fault E NotPrimitive else
  explainResp ← fetch up (explain_call GROQ_API_KEY ocrText);
  if negb (ok explainResp) then
    mret (json 502 (error_tag "groq_failed" ++
            [("detail", FVal (JStr (slice0 400 (reply_text_or [] explainResp))));
             ("text", FVal ocrText); ("numeric", FVal numeric)]))
  else
  explanation ← content_text explainResp;
  mret (json 200 [("text", FVal (js_or ocrText (JStr (u "-"))));
                  ("numeric", FVal (js_coalesce numeric JNull));
                  ("explanation", FVal (js_or explanation (JStr (u "-"))))]).

Definition pipeline (req : Req) : M Response :=
  if negb (bool_decide (method req = POST)) then
    mret (json 405 (error_tag "method_not_allowed"))
  else
  let imageDataUrl := body_field (req_body req) "imageDataUrl" in
  if invalid_image imageDataUrl then mret (json 400 (error_tag "invalid_image")) else
  let OPENROUTER_API_KEY := getenv env "OPENROUTER_API_KEY" in
  let GROQ_API_KEY := getenv env "GROQ_API_KEY" in
  if negb (truthy OPENROUTER_API_KEY) then mret (json 500 (error_tag "missing_openrouter_key")) else
  if negb (truthy GROQ_API_KEY) then mret (json 500 (error_tag "missing_groq_key")) else
  ocrText ← attemptA OPENROUTER_API_KEY imageDataUrl;
  if negb (truthy ocrText) then
    (* Attempt B *)
    ocrResp ← fetch up (ocrPayloadB OPENROUTER_API_KEY imageDataUrl);
    if negb (ok ocrResp) then
      mret (json 502 (error_tag "openrouter_failed" ++
              [("detail", FVal (JStr (slice0 400 (reply_text_or [] ocrResp))))]))
    else
    ocrText ← content_text ocrResp;
    explain GROQ_API_KEY ocrText
  else explain GROQ_API_KEY ocrText.

Definition handler (req : Req) : Response * list Call :=
  catching (pipeline req) (λ _, json 500 (error_tag "pipeline_exception")).

End Handler.
End Part000_1.

(** ** src/unnamed/part_000, second file: Groq vision first, OpenRouter as fallback *)
Module Part000_2.

Definition cleanOCR (s : jsstring) : jsstring :=
  trim (strip_images 0 (strip_star_runs 0 (strip_fences false s))).

Definition explain_system : string :=
  "You are a math tutor. Read the OCR text and:
- If it is a single expression, compute the result with a clear explanation.
- If it is a multi-step solution, verify/fix steps and present a clean solution.
- Use LaTeX for math ($...$ inline, or \[ ... \] display).
- End with the final answer as \[\boxed{...}\].".

Definition step_by_step_prompt (ocrText : jsstring) : Text :=
  [ Lit (u "Explain step by step:
"); Subst (JStr ocrText) ].

Definition brief_prompt (ocrText : jsstring) : Text :=
  [ Lit (u "Explain briefly:
"); Subst (JStr ocrText) ].

Section Handler.
Context (E : Engine) (env : Env) (up : Upstream).

(** [process.env.NAME || fallback] *)
Definition env_or (name fallback : string) : jsstring :=
  match js_or (getenv env name) (JStr (u fallback)) with JStr s => s | _ => u fallback end.

Definition GROQ_VISION_MODEL := env_or "GROQ_VISION_MODEL" "llama-3.2-11b-vision-preview".
Definition GROQ_TEXT_MODEL := env_or "GROQ_TEXT_MODEL" "llama-3.1-70b-versatile".
Definition OPENROUTER_VISION_MODEL := env_or "OPENROUTER_VISION_MODEL" "gpt-4o-mini".

Definition groq_ocr_call (imageDataUrl : JsVal) : Call :=
  {| call_url := GROQ_URL;
     call_bearer := getenv env "GROQ_API_KEY";
     call_model := GROQ_VISION_MODEL;
     call_max_tokens := None;
     call_messages :=
       [ {| role := "system";
            content := Plain (text_of "Return ONLY OCR text. Preserve math symbols and line breaks. No extra commentary.") |};
         {| role := "user";
            content := Multi [ TextItem "text" "OCR this image (math-friendly).";
                               ImageItem "image_url" true imageDataUrl ] |} ] |}.

Definition openrouter_ocr_call (imageDataUrl : JsVal) : Call :=
  {| call_url := OPENROUTER_URL;
     call_bearer := getenv env "OPENROUTER_API_KEY";
     call_model := OPENROUTER_VISION_MODEL;
     call_max_tokens := None;
     call_messages :=
       [ {| role := "user";
            content := Multi [ TextItem "text" "Return ONLY the OCR text from the image. Preserve math formatting / newlines.";
                               ImageItem "image_url" true imageDataUrl ] |} ] |}.

Definition ocr_with (what : string) (c : Call) : M jsstring :=
  r ← fetch up c;
  if negb (ok r) then throw (failed what r (reply_text_or (statusText r) r)) else
  v ← reply_json E r;
  text ← as_string E (js_coalesce v (JStr []));
  mret (cleanOCR text).

Definition ocrWithGroq (imageDataUrl : JsVal) : M jsstring :=
  ocr_with "Groq OCR" (groq_ocr_call imageDataUrl).

Definition ocrWithOpenRouter (imageDataUrl : JsVal) : M jsstring :=
  ocr_with "OpenRouter OCR" (openrouter_ocr_call imageDataUrl).

Definition explain_call (ocrText : jsstring) (stepByStep : JsVal) : Call :=
  {| call_url := GROQ_URL;
     call_bearer := getenv env "GROQ_API_KEY";
     call_model := GROQ_TEXT_MODEL;
     call_max_tokens := None;
     call_messages :=
       [ {| role := "system"; content := Plain (text_of explain_system) |};
         {| role := "user";
            content := Plain (if truthy stepByStep then step_by_step_prompt ocrText
                              else brief_prompt ocrText) |} ] |}.

(** [(data?.choices?.[0]?.message?.content || "").trim()] *)
Definition explainWithGroq (ocrText : jsstring) (stepByStep : JsVal) : M jsstring :=
  r ← fetch up (explain_call ocrText stepByStep);
  if negb (ok r) then throw (failed "Groq explain" r (reply_text_or (statusText r) r)) else
  v ← reply_json E r;
  s ← as_string E (js_or v (JStr []));
  mret (trim s).

(** Step 1 of the handler: the [try] with the primary OCR and the
    [catch] with the fallback. *)
Definition ocr_stage (imageDataUrl : JsVal) : M jsstring :=
  try_catch (ocrWithGroq imageDataUrl)
    (λ e1, if truthy (getenv env "OPENROUTER_API_KEY")
           then ocrWithOpenRouter imageDataUrl
           else throw e1).

(** The handler once the body is destructured. *)
Definition respond (imageDataUrl stepByStep : JsVal) : M Response :=
  if negb (truthy imageDataUrl) then mret (json 400 (error_tag "Missing imageDataUrl")) else
  (* 1) OCR (Groq primary, OpenRouter fallback) *)
  text ← ocr_stage imageDataUrl;
  (* 2) If no math-like content, answer early *)
  if negb (truthy (JStr text)) || negb (has_math text) then
    mret (json 200 [("text", FVal (JStr text));
                    ("explanation", FVal (JStr (toHtmlParagraphs no_math_text)))])
  else
  (* 3) Explain *)
  explanationRaw ← explainWithGroq text stepByStep;
  mret (json 200 [("text", FVal (JStr text));
                  ("explanation", FVal (JStr (toHtmlParagraphs explanationRaw)))]).

Definition pipeline (event : Event) : M Response :=
  if negb (bool_decide (httpMethod event = POST)) then
    mret (json 405 (error_tag "Method Not Allowed"))
  else
  b ← parse_body E (ev_body event);
  '(imageDataUrl, stepByStep) ← destructure E b;
  respond imageDataUrl stepByStep.

Definition handler (event : Event) : Response * list Call :=
  catching (pipeline event) (λ err, json 500 [("error", FText (message_or_default err))]).

End Handler.
End Part000_2.

(** ** src/unnamed/part_000, third file: OpenRouter first, Groq vision as fallback *)
Module Part000_3.

Definition cleanOCR (s : jsstring) : jsstring :=
  trim (strip_images 0 (strip_fences false (strip_star_runs 0 s))).

Definition ocr_prompt : string :=
  "You are an OCR assistant for math.
Return ONLY the text you read from the image (no extra commentary).
If there is a single expression, preserve symbols and spacing. If there are steps, keep line breaks.".

Definition explain_system : string :=
  "You are a math tutor. Read the student's OCR'd text and:
- If it is a single expression, compute the result and explain the steps clearly.
- If it is a multi-step solution, verify steps in order, fix mistakes if needed, and present a clear solution.
- Use LaTeX for math: inline $...$ or display \[ ... \].
- End with the final answer as a display equation using \boxed{...}.
Keep explanations concise and beginner-friendly.".

Definition step_by_step_prompt (ocrText : jsstring) : Text :=
  [ Lit (u "Explain step by step:
"); Subst (JStr ocrText) ].

Definition brief_prompt (ocrText : jsstring) : Text :=
  [ Lit (u "Explain briefly:
"); Subst (JStr ocrText) ].

Section Handler.
Context (E : Engine) (env : Env) (up : Upstream).

Definition env_or (name fallback : string) : jsstring :=
  match js_or (getenv env name) (JStr (u fallback)) with JStr s => s | _ => u fallback end.

Definition OPENROUTER_VISION_MODEL := env_or "OPENROUTER_VISION_MODEL" "gpt-4o-mini".
Definition GROQ_VISION_MODEL := env_or "GROQ_VISION_MODEL" "llama-3.2-11b-vision-preview".
Definition GROQ_TEXT_MODEL := env_or "GROQ_TEXT_MODEL" "llama-3.1-70b-versatile".

Definition openrouter_ocr_call (imageDataUrl : JsVal) : Call :=
  {| call_url := OPENROUTER_URL;
     call_bearer := getenv env "OPENROUTER_API_KEY";
     call_model := OPENROUTER_VISION_MODEL;
     call_max_tokens := None;
     call_messages :=
       [ {| role := "user";
            content := Multi [ TextItem "text" ocr_prompt;
                               ImageItem "input_image" false imageDataUrl ] |} ] |}.

Definition groq_ocr_call (imageDataUrl : JsVal) : Call :=
  {| call_url := GROQ_URL;
     call_bearer := getenv env "GROQ_API_KEY";
     call_model := GROQ_VISION_MODEL;
     call_max_tokens := None;
     call_messages :=
       [ {| role := "system";
            content := Plain (text_of "Return ONLY OCR text you read from the image. No extra commentary.") |};
         {| role := "user";
            content := Multi [ TextItem "text" "OCR this image (math friendly):";
                               ImageItem "input_image" false imageDataUrl ] |} ] |}.

Definition ocr_with (what : string) (c : Call) : M jsstring :=
  r ← fetch up c;
  if negb (ok r) then throw (failed what r (reply_text_or (statusText r) r)) else
  v ← reply_json E r;
  text ← as_string E (js_coalesce v (JStr []));
  mret (cleanOCR text).

Definition runOCRWithOpenRouter (imageDataUrl : JsVal) : M jsstring :=
  ocr_with "OpenRouter OCR" (openrouter_ocr_call imageDataUrl).

Definition runOCRWithGroqVision (imageDataUrl : JsVal) : M jsstring :=
  ocr_with "Groq OCR" (groq_ocr_call imageDataUrl).

Definition explain_call (ocrText : jsstring) (stepByStep : JsVal) : Call :=
  {| call_url := GROQ_URL;
     call_bearer := getenv env "GROQ_API_KEY";
     call_model := GROQ_TEXT_MODEL;
     call_max_tokens := None;
     call_messages :=
       [ {| role := "system"; content := Plain (text_of explain_system) |};
         {| role := "user";
            content := Plain (if truthy stepByStep then step_by_step_prompt ocrText
                              else brief_prompt ocrText) |} ] |}.

(** [data?.choices?.[0]?.message?.content?.trim() || ""] *)
Definition runExplainWithGroq (ocrText : jsstring) (stepByStep : JsVal) : M jsstring :=
  r ← fetch up (explain_call ocrText stepByStep);
  if negb (ok r) then throw (failed "Groq explain" r (reply_text_or (statusText r) r)) else
  v ← reply_json E r;
  if nullish v then mret [] else (s ← as_string E v; mret (trim s)).

(** Step 1 of the handler: the [try] with the primary OCR and the
    [catch] with the fallback. *)
Definition ocr_stage (imageDataUrl : JsVal) : M jsstring :=
  try_catch (runOCRWithOpenRouter imageDataUrl)
    (λ _, runOCRWithGroqVision imageDataUrl).

(** The handler once the body is destructured. *)
Definition respond (imageDataUrl stepByStep : JsVal) : M Response :=
  if negb (truthy imageDataUrl) then mret (json 400 (error_tag "Missing imageDataUrl")) else
  (* 1) OCR (OpenRouter, fallback to Groq Vision) *)
  rawText ← ocr_stage imageDataUrl;
  (* 2) If nothing math-like, answer early *)
  if negb (truthy (JStr rawText)) || negb (has_math rawText) then
    mret (json 200 [("text", FVal (JStr rawText));
                    ("explanation", FVal (JStr (toHtmlParagraphs no_math_text)))])
  else
  (* 3) Explain with Groq text model *)
  explanationRaw ← runExplainWithGroq rawText stepByStep;
  mret (json 200 [("text", FVal (JStr rawText));
                  ("explanation", FVal (JStr (toHtmlParagraphs explanationRaw)))]).

Definition pipeline (event : Event) : M Response :=
  if negb (bool_decide (httpMethod event = POST)) then
    mret (json 405 (error_tag "Method Not Allowed"))
  else
  b ← parse_body E (ev_body event);
  '(imageDataUrl, stepByStep) ← destructure E b;
  respond imageDataUrl stepByStep.

Definition handler (event : Event) : Response * list Call :=
  catching (pipeline event) (λ err, json 500 [("error", FText (message_or_default err))]).

End Handler.
End Part000_3.

(** * Predicates of the statements *)

(** A host for the examples: lower case on ASCII letters only, no
    approximation of powers. *)
Definition basic_host : Engine :=
  {| pow_approx := λ _ _, NaN;
     toLowerCase := map (λ c, if (65 <=? c)%N && (c <=? 90)%N then (c + 32)%N else c);
     fault_message := λ f,
       match f with
       | NotAFunction => u "is not a function"
       | NotDestructurable => u "Cannot destructure"
       | NotPrimitive => u "Cannot convert object to primitive value"
       | BadJson => u "Unexpected token"
       end |}.

Module ArithSpec.
Import Arith.

Definition no_number (ts : list token) : Prop :=
  Forall (λ t, match t with TNum _ => False | _ => True end) ts.

Definition text_mode (m : mode) : Prop :=
  match m with
  | Ready _ | InRegex _ | LineComment | BlockComment _ _ => True
  | InInt _ | IntDot _ | InFrac _ _ => False
  end.

Definition digit_free (s : jsstring) : Prop := Forall (λ c, is_digit c = false) s.

(** Without a numeric literal every value is a RegExp object, a string
    built from one, or NaN. *)
Definition dull (v : value) : Prop := v = VObject ∨ v = VNum NaN.

Definition dull_pending (p : pending) : Prop :=
  match p with PBinary _ a => dull a | PParen | PUnary _ => True end.

Definition dull_cursor (c : cursor) : Prop :=
  match c with Have v => dull v | Awaiting => True end.

(** *** Arithmetic expressions in their plainest spelling

    The syntax tree of an expression over decimal literals, the four
    binary operators, parentheses and a negation written [(-x)], and its
    value in binary64 arithmetic.  (The module [Written] below has the
    other spellings.) *)
Inductive arith_op := Plus | Minus | Times | Divide.

Inductive expr :=
| Lit (ds fs : list N)              (* the digits before and after the point *)
| Paren (e : expr)                  (* ( e ) *)
| Neg (e : expr)                    (* (- e) *)
| Bin (op : arith_op) (a b : expr). (* a op b *)

Definition op_char (op : arith_op) : N :=
  match op with Plus => Ch.plus | Minus => Ch.minus | Times => Ch.star | Divide => Ch.slash end.

Definition op_token (op : arith_op) : token :=
  match op with Plus => TPlus | Minus => TMinus | Times => TStar | Divide => TSlash end.

Definition op_binop (op : arith_op) : binop :=
  match op with Plus => Add | Minus => Sub | Times => Mul | Divide => Div end.

Definition op_level (op : arith_op) : nat :=
  match op with Plus | Minus => 1 | Times | Divide => 2 end%nat.

Definition op_apply (op : arith_op) (x y : spec_float) : spec_float :=
  match op with
  | Plus => SFadd prec emax x y
  | Minus => SFsub prec emax x y
  | Times => SFmul prec emax x y
  | Divide => SFdiv prec emax x y
  end.

Fixpoint value_of (e : expr) : spec_float :=
  match e with
  | Lit ds fs => decimal ds fs
  | Paren e => value_of e
  | Neg e => SFopp (value_of e)
  | Bin op a b => op_apply op (value_of a) (value_of b)
  end.

Definition render_literal (ds fs : list N) : jsstring :=
  match fs with [] => ds | _ :: _ => ds ++ Ch.dot :: fs end.

Fixpoint render (e : expr) : jsstring :=
  match e with
  | Lit ds fs => render_literal ds fs
  | Paren e => Ch.lparen :: render e ++ [Ch.rparen]
  | Neg e => Ch.lparen :: Ch.minus :: render e ++ [Ch.rparen]
  | Bin op a b => render a ++ op_char op :: render b
  end.

Fixpoint tokens_of (e : expr) : list token :=
  match e with
  | Lit ds fs => [TNum (decimal ds fs)]
  | Paren e => TLParen :: tokens_of e ++ [TRParen]
  | Neg e => TLParen :: TMinus :: tokens_of e ++ [TRParen]
  | Bin op a b => tokens_of a ++ op_token op :: tokens_of b
  end.

(** How tightly the outermost construct binds: operands must bind at
    least as tightly as their operator, the right one more tightly. *)
Definition binding (e : expr) : nat :=
  match e with
  | Lit _ _ | Paren _ | Neg _ => 3
  | Bin op _ _ => op_level op
  end%nat.

Definition literal_ok (ds fs : list N) : Prop :=
  ds ≠ [] ∧ Forall (λ c, is_digit c = true) ds ∧ Forall (λ c, is_digit c = true) fs
  ∧ legacy_zero ds = false.

Fixpoint well_formed (e : expr) : Prop :=
  match e with
  | Lit ds fs => literal_ok ds fs
  | Paren e => well_formed e
  | Neg e => well_formed e ∧ binding e = 3%nat
  | Bin op a b =>
    well_formed a ∧ well_formed b
    ∧ (op_level op ≤ binding a)%nat ∧ (op_level op < binding b)%nat
  end.

(** The scanner's step after the integer part [ds], and after the
    fraction [fs], when [r] follows. *)
Definition after_int (ds : list N) (r : jsstring) : option (list token) :=
  if starts_with_digit r then scan (InInt ds) r
  else if starts_with Ch.dot r then scan (IntDot ds) r
  else emit_number ds [] (scan (Ready true) r).

Definition after_frac (ds fs : list N) (r : jsstring) : option (list token) :=
  if starts_with_digit r then scan (InFrac ds fs) r
  else emit_number ds fs (scan (Ready true) r).

(** A text that cannot continue a numeric literal. *)
Definition boundary (r : jsstring) : Prop :=
  starts_with_digit r = false ∧ starts_with Ch.dot r = false.

(** No pending operator of [ps] is applied by an operator of level [p]
    or more. *)
Definition settled (E : Engine) (p : nat) (ps : list pending) : Prop :=
  ∀ l v, (p ≤ l)%nat → (l ≤ 2)%nat → reduce E l ps v = (ps, v).

(** An expression starts with a digit or an opening parenthesis. *)
Definition opens (s : jsstring) : Prop :=
  ∃ c tail, s = c :: tail ∧ (is_digit c = true ∨ c = Ch.lparen).

(** The value of a finite number as a fraction in lowest terms. *)
Definition number_value (f : spec_float) : option Q :=
  match f with
  | S754_zero _ => Some 0%Q
  | S754_finite s m e =>
    let n := if s then Z.neg m else Z.pos m in
    Some (Qred (if 0 <=? e then (n * 2 ^ e) # 1 else n # Z.to_pos (2 ^ (- e))))
  | S754_infinity _ | S754_nan => None
  end.

End ArithSpec.

(** *** Arithmetic expressions as they are written

    The syntax tree of an expression over decimal literals with an
    optional point ([12], [12.5], [12.], [.5]), the prefix signs [-] and
    [+], the four binary operators and parentheses; its value in binary64
    arithmetic; and its text, written without white space. *)
Module Written.
Import Arith ArithSpec.

Inductive term :=
| Number (ds : list N) (fs : option (list N)) (* the digits before the point, and
                                                 those after it when there is one *)
| Group (t : term)                            (* ( t ) *)
| Signed (neg : bool) (t : term)              (* - t and + t *)
| Binary (op : arith_op) (a b : term).        (* a op b *)

Definition sign_char (neg : bool) : N := if neg then Ch.minus else Ch.plus.

Definition sign_token (neg : bool) : token := if neg then TMinus else TPlus.

Definition fraction (fs : option (list N)) : list N := default [] fs.

Fixpoint value (t : term) : spec_float :=
  match t with
  | Number ds fs => decimal ds (fraction fs)
  | Group t => value t
  | Signed neg t => if neg then SFopp (value t) else value t
  | Binary op a b => op_apply op (value a) (value b)
  end.

Definition number_text (ds : list N) (fs : option (list N)) : jsstring :=
  match fs with None => ds | Some fs => ds ++ Ch.dot :: fs end.

Fixpoint text (t : term) : jsstring :=
  match t with
  | Number ds fs => number_text ds fs
  | Group t => Ch.lparen :: text t ++ [Ch.rparen]
  | Signed neg t => sign_char neg :: text t
  | Binary op a b => text a ++ op_char op :: text b
  end.

Fixpoint tokens (t : term) : list token :=
  match t with
  | Number ds fs => [TNum (decimal ds (fraction fs))]
  | Group t => TLParen :: tokens t ++ [TRParen]
  | Signed neg t => sign_token neg :: tokens t
  | Binary op a b => tokens a ++ op_token op :: tokens b
  end.

(** How tightly the outermost construct binds. *)
Definition tight (t : term) : nat :=
  match t with
  | Number _ _ | Group _ | Signed _ _ => 3
  | Binary op _ _ => op_level op
  end%nat.

Definition digits (s : list N) : bool := forallb is_digit s.

Definition empty (s : list N) : bool := match s with [] => true | _ :: _ => false end.

(** A literal is made of digits, at least one, before or after the point. *)
Definition number_ok (ds : list N) (fs : option (list N)) : bool :=
  digits ds && digits (fraction fs) && negb (empty ds && empty (fraction fs)).

(** The grammar: a sign applies to a literal, a group or a signed term;
    the operands of a binary operator bind at least as tightly as the
    operator, the right one more tightly, so that operators of one
    level group to the left. *)
Fixpoint grammatical (t : term) : bool :=
  match t with
  | Number ds fs => number_ok ds fs
  | Group t => grammatical t
  | Signed _ t => grammatical t && (tight t =? 3)%nat
  | Binary op a b =>
    grammatical a && grammatical b
    && (op_level op <=? tight a)%nat && (op_level op <? tight b)%nat
  end.

(** No literal has an integer part of several digits that starts with a zero. *)
Fixpoint strict (t : term) : bool :=
  match t with
  | Number ds _ => negb (legacy_zero ds)
  | Group t | Signed _ t => strict t
  | Binary _ a b => strict a && strict b
  end.

(** No sign or operator is written directly before the same character:
    no [--] and no [++] arises when the white space is taken away. *)
Fixpoint separated (t : term) : bool :=
  match t with
  | Number _ _ => true
  | Group t => separated t
  | Signed neg t => separated t && negb (starts_with (sign_char neg) (text t))
  | Binary op a b =>
    separated a && separated b && negb (starts_with (op_char op) (text b))
  end.

(** What the text of a term can start with. *)
Definition begins (s : jsstring) : Prop :=
  ∃ c tail, s = c :: tail
    ∧ (is_digit c = true ∨ c = Ch.dot ∨ c = Ch.lparen ∨ c = Ch.plus ∨ c = Ch.minus).

(** 3*0.5+3*(-1), -3+5, 2*-3, .5+1 and 5.*2 *)
Definition three : term := Number (u "3") None.

Definition sample : term :=
  Binary Plus (Binary Times three (Number (u "0") (Some (u "5"))))
              (Binary Times three (Group (Signed true (Number (u "1") None)))).

Definition samples : list (jsstring * term) :=
  [ (u " 3*0.5 + 3*(-1) = ?", sample);
    (u "-3 + 5", Binary Plus (Signed true three) (Number (u "5") None));
    (u "2 * -3", Binary Times (Number (u "2") None) (Signed true three));
    (u ".5 + 1", Binary Plus (Number [] (Some (u "5"))) (Number (u "1") None));
    (u "5. * 2", Binary Times (Number (u "5") (Some [])) (Number (u "2") None));
    (u "1 - +1", Binary Minus (Number (u "1") None) (Signed false (Number (u "1") None))) ].

(** 1 - -1 and 010 + 1 *)
Definition one : term := Number (u "1") None.

Definition spaced_signs : term := Binary Minus one (Signed true one).

Definition leading_zero : term := Binary Plus (Number (u "010") None) one.

End Written.

(** Upstream services for the examples. *)
Definition unreachable : Upstream :=
  λ _ _, Rejected {| message := text_of "fetch failed" |}.

Definition answering (r : Reply) : Upstream := λ _ _, Resolved r.

(** A reply with status [st] whose completion holds [c]. *)
Definition reply_with (st : N) (c : JsVal) : Reply :=
  {| status := st; statusText := u "status"; body_text := Some (u "body");
     reply_content := Some c |}.

(** The object [{ imageDataUrl: v }]. *)
Definition image_body (v : JsVal) : JsVal := JObj {[ u "imageDataUrl" := v ]}.

(** A response that reports a failure the way the specification says:
    an [error] field and one of the five failure statuses. *)
Definition failure_shape (r : Response) : Prop :=
  is_Some (field "error" r) ∧ statusCode r ∈ [400; 405; 413; 500; 502]%N.

Definition success_or_failure (r : Response) : Prop :=
  statusCode r = 200%N ∨ failure_shape r.

(** What [const { imageDataUrl } = JSON.parse(event.body || "{}")] binds,
    [None] when the statement throws. *)
Definition event_image (b : RawBody) : option JsVal :=
  match b with
  | NoBody => Some JUndefined
  | Malformed => None
  | Parsed v => if nullish v then None else Some (get_prop v (u "imageDataUrl"))
  end.

(** Every response the computation returns satisfies [P]. *)
Definition returns (P : Response → Prop) (m : M Response) : Prop :=
  ∀ log, match m log with (Ret r, _) => P r | (Raise _, _) => True end.

(** What the same statement binds [stepByStep] to. *)
Definition event_step (b : RawBody) : JsVal :=
  match b with
  | Parsed v => default_true (get_prop v (u "stepByStep"))
  | NoBody | Malformed => JBool true
  end.

(** An environment with both credentials. *)
Definition both_keys : Env :=
  {[ "OPENROUTER_API_KEY" := u "or-key"; "GROQ_API_KEY" := u "groq-key" ]}.

(** Six million code units. *)
Definition long_tail : jsstring := repeat 97%N (N.to_nat 6000000).

Definition long_image : jsstring := u "data:image/png;base64," ++ long_tail.

Definition long_text : jsstring := u "x" ++ long_tail.

(** A small valid image payload. *)
Definition tiny_image : jsstring := u "data:image/png;base64,iVBORw0KGgo=".

Definition express_post (v : JsVal) : Req := {| method := POST; req_body := image_body v |}.

Definition fetch_post (v : JsVal) : Part001.Request :=
  {| Part001.method := POST; Part001.parsed := Some (image_body v) |}.

Definition event_post (v : JsVal) : Event :=
  {| httpMethod := POST; ev_body := Parsed (image_body v) |}.

Definition only_groq_key : Env := {[ "GROQ_API_KEY" := u "groq-key" ]}.

(** Every upstream call the computation adds to the log satisfies [Q]. *)
Definition calls_in {A} (Q : Call → Prop) (m : M A) : Prop :=
  ∀ log, Forall Q log → Forall Q (m log).2.

(** The content of the last message of a call: the user's. *)
Definition user_content (c : Call) : option Content := content <$> last (call_messages c).

(** The calls to the OCR service of the two variants whose OCR and
    explanation services differ by their URL. *)
Definition ocr_calls (log : list Call) : list Call :=
  List.filter (λ c, bool_decide (call_url c = OPENROUTER_URL)) log.

Definition no_math_html : jsstring :=
  u "<p>The image does not contain any mathematical expressions or steps.</p>".

(** The answer of the Netlify variants to a transcript without math. *)
Definition no_math_response (text : jsstring) : Response :=
  json 200 [("text", FVal (JStr text)); ("explanation", FVal (JStr no_math_html))].

(** The text [callOpenRouter] of part_001 returns for a successful reply. *)
Definition reply_string (r : Reply) : jsstring :=
  string_or_empty (js_coalesce (reply_json_or_undefined r) (JStr [])).

(** The transcript the first handler of part_000 reads from a successful
    reply, or the exception of reading it. *)
Definition transcript_of (E : Engine) (r : Reply) : Outcome JsVal :=
  (Part000_1.content_text E r []).1.

(** * Further predicates *)

(** Every code unit of [s] is white space. *)
Definition blank (s : jsstring) : Prop := Forall (λ c, is_space c = true) s.

(** A text without the characters the cleaning looks for: asterisk,
    backtick and exclamation mark. *)
Definition plain (s : jsstring) : Prop :=
  Forall (λ c, c ≠ Ch.star ∧ c ≠ Ch.backtick ∧ c ≠ 33%N) s.

(** No two newlines of [s] are adjacent. *)
Fixpoint no_blank_line (s : jsstring) : bool :=
  match s with
  | a :: (b :: _) as r => negb ((a =? Ch.lf)%N && (b =? Ch.lf)%N) && no_blank_line r
  | _ => true
  end.

(** A paragraph as a writer means it: not empty, no white space at
    either end, no blank line inside. *)
Definition paragraph (p : jsstring) : Prop :=
  p ≠ [] ∧ trim p = p ∧ no_blank_line p = true.

(** Paragraphs separated by one blank line. *)
Fixpoint join_paragraphs (ps : list jsstring) : jsstring :=
  match ps with
  | [] => []
  | [p] => p
  | p :: r => p ++ Ch.lf :: Ch.lf :: join_paragraphs r
  end.

Definition paragraph_html (p : jsstring) : jsstring :=
  u "<p>" ++ br_of_newlines p ++ u "</p>".

(** A code unit that is neither a comma nor a semicolon. *)
Definition no_separator (c : N) : Prop := c ≠ 44%N ∧ c ≠ 59%N.

(** The data URL with media type [mt], parameters [params] and the
    payload [payload]. *)
Definition data_url (mt params payload : jsstring) : jsstring :=
  u "data:" ++ mt ++ 59%N :: params ++ 44%N :: payload.

(** The text neither starts nor ends with a quote. *)
Definition unquoted (s : jsstring) : Prop :=
  match s with c :: _ => Part001.is_quote c = false | [] => True end
  ∧ match rev s with c :: _ => Part001.is_quote c = false | [] => True end.

(** The text starts, after white space, with the preface "Understood!"
    in any letter case. *)
Definition understood (s : jsstring) : bool :=
  starts_with_ci (trimStart s) (u "Understood!").

(** ** Runs of a handler: outcome and upstream calls together *)

(** [wp m log Q R]: run from the call log [log], the computation [m]
    returns a value and a log related by [Q], or raises an exception with
    a log related by [R]. *)
Definition wp {A} (m : M A) (log : list Call) (Q : A → list Call → Prop)
    (R : Exn → list Call → Prop) : Prop :=
  match m log with
  | (Ret a, log') => Q a log'
  | (Raise e, log') => R e log'
  end.

(** The upstream calls of a request follow a plan: some first calls of
    the list [ocr], in its order, then at most one explanation call, made
    only after an OCR call. *)
Definition call_plan (ocr : list Call) (is_explain : Call → Prop) (log : list Call) : Prop :=
  ∃ ocrs ex, log = ocrs ++ ex ∧ ocrs `prefix_of` ocr
    ∧ (ex = [] ∨ (ocrs ≠ [] ∧ ∃ c, ex = [c] ∧ is_explain c)).

(** What the statement [const { imageDataUrl } = ...] of an event
    handler binds, [undefined] when it throws. *)
Definition event_image_or_undefined (ev : Event) : JsVal :=
  default JUndefined (event_image (ev_body ev)).

(** An answer with one of the statuses of a rejected request was given
    before any upstream call. *)
Definition rejected_early (x : Response * list Call) : Prop :=
  statusCode x.1 ∈ [400; 405; 413]%N → x.2 = [].

(** A 200 answer of api/pipeline.js: the transcript, a trimmed string;
    what [tryEvaluate] makes of it; the explanation; and the two calls
    behind them, the second one sent the transcript. *)
Definition api_success (E : Engine) (env : Env) (req : Req) (x : Response * list Call) : Prop :=
  statusCode x.1 = 200%N →
  ∃ t explanation,
    body x.1 = [("text", FVal (JStr t)); ("numeric", FVal (ApiPipeline.tryEvaluate E (JStr t)));
                ("explanation", FVal explanation)]
    ∧ trim t = t
    ∧ x.2 = [ApiPipeline.ocr_call (getenv env "OPENROUTER_API_KEY")
               (body_field (req_body req) "imageDataUrl");
             ApiPipeline.explain_call (getenv env "GROQ_API_KEY") (JStr t)].

(** A 200 answer of part_001: the same fields, after one or two OCR calls. *)
Definition part001_success (E : Engine) (env : Env) (req : Part001.Request)
    (x : Response * list Call) : Prop :=
  statusCode x.1 = 200%N →
  ∃ t explanation ocrs,
    body x.1 = [("text", FVal (JStr t)); ("numeric", FVal (Part001.tryEvaluate E (JStr t)));
                ("explanation", FVal explanation)]
    ∧ trim t = t
    ∧ x.2 = ocrs ++ [Part001.explain_call (getenv env "GROQ_API_KEY") t]
    ∧ (length ocrs = 1 ∨ length ocrs = 2)%nat.

(** A 200 answer of the first handler of part_000: the transcript, which
    may be any value, is shown as "-" when it is falsy. *)
Definition part000_1_success (E : Engine) (env : Env) (x : Response * list Call) : Prop :=
  statusCode x.1 = 200%N →
  ∃ ocrText explanation ocrs,
    body x.1 = [("text", FVal (js_or ocrText (JStr (u "-"))));
                ("numeric", FVal (Part000_1.tryEvaluate E ocrText));
                ("explanation", FVal (js_or explanation (JStr (u "-"))))]
    ∧ x.2 = ocrs ++ [Part000_1.explain_call (getenv env "GROQ_API_KEY") ocrText]
    ∧ (length ocrs = 1 ∨ length ocrs = 2)%nat.

(** A 200 answer of the three handlers on Netlify events: the cleaned
    transcript and an explanation as HTML paragraphs.  The transcript is
    what the variant's [cleanOCR] makes of the string a successful reply
    to one of the OCR calls [ocr] of the run holds at
    [choices[0].message.content] ([null] and [undefined] read as the empty
    string), and this call is among the first two of the run.  With a
    transcript that holds math the last call asked to explain this
    transcript; without, the explanation is the fixed sentence. *)
Definition event_success (ocr : list Call) (cleanOCR : jsstring → jsstring)
    (explain_call : jsstring → JsVal → Call) (up : Upstream) (ev : Event)
    (x : Response * list Call) : Prop :=
  statusCode x.1 = 200%N →
  ∃ t e,
    body x.1 = [("text", FVal (JStr t)); ("explanation", FVal (JStr (toHtmlParagraphs e)))]
    ∧ trim t = t ∧ trim e = e
    ∧ (∃ i c r v raw,
         (i ≤ 1)%nat ∧ x.2 !! i = Some c ∧ c ∈ ocr
         ∧ up i c = Resolved r ∧ ok r = true
         ∧ reply_content r = Some v ∧ js_coalesce v (JStr []) = JStr raw
         ∧ t = cleanOCR raw)
    ∧ if has_math t then last x.2 = Some (explain_call t (event_step (ev_body ev)))
      else e = no_math_text.

(** An environment with the OpenRouter credential only. *)
Definition only_openrouter_key : Env := {[ "OPENROUTER_API_KEY" := u "or-key" ]}.

(** The call goes to one of the two services, with the credential of
    that service. *)
Definition authorised (env : Env) (c : Call) : Prop :=
  (call_url c = OPENROUTER_URL ∧ call_bearer c = getenv env "OPENROUTER_API_KEY")
  ∨ (call_url c = GROQ_URL ∧ call_bearer c = getenv env "GROQ_API_KEY").

(** The exception the OCR helpers of the Netlify-event variants raise
    for the outcome of their [fetch]: the rejection itself, or [what]
    failed with the status and the body text of a reply that is not ok. *)
Definition primary_error (what : string) (f : Fetched) : option Exn :=
  match f with
  | Rejected e => Some e
  | Resolved r =>
    if ok r then None else Some (failed what r (reply_text_or (statusText r) r))
  end.

(** What the handlers on Netlify events answer to an exception. *)
Definition error_500 (e : Exn) : Response := json 500 [("error", FText (message_or_default e))].

(** The error of reading a body the handlers on Netlify events cannot
    read: that of [JSON.parse] for a text that is not JSON, that of the
    destructuring for [null]. *)
Definition body_fault (b : RawBody) : Fault :=
  match b with Malformed => BadJson | NoBody | Parsed _ => NotDestructurable end.

(** An event whose body is not JSON. *)
Definition malformed_post : Event := {| httpMethod := POST; ev_body := Malformed |}.

(** A fenced block and the Markdown of an image. *)
Definition fenced (b : jsstring) : jsstring := fence ++ b ++ fence.

Definition image_markup (alt url : jsstring) : jsstring :=
  33%N :: 91%N :: alt ++ 93%N :: Ch.lparen :: url ++ [Ch.rparen].

(** A 502 answer reports the last upstream reply: that reply was not
    ok, and the [detail] field holds the first 400 code units of its body
    text (the empty text if the body cannot be read). *)
Definition bad_gateway (up : Upstream) (x : Response * list Call) : Prop :=
  statusCode x.1 = 502%N →
  ∃ pre c r detail,
    x.2 = pre ++ [c] ∧ up (length pre) c = Resolved r ∧ ok r = false
    ∧ field "detail" x.1 = Some (FVal (JStr detail))
    ∧ detail = slice0 400 (reply_text_or [] r) ∧ (length detail ≤ 400)%nat.

(** What the outcome of one upstream call means for the answer: a
    rejected [fetch] ends as 500, a reply that is not ok as [st]. *)
Definition failed_call (up : Upstream) (st : N) (x : Response * list Call)
    (i : nat) (c : Call) : Prop :=
  match up i c with
  | Rejected _ => statusCode x.1 = 500%N
  | Resolved r => ok r = false → statusCode x.1 = st
  end.

(** Every call of the run decides the answer when it fails. *)
Definition any_call_failed (up : Upstream) (st : N) (x : Response * list Call) : Prop :=
  ∀ i c, x.2 !! i = Some c → failed_call up st x i c.

(** The last call of the run decides the answer when it fails. *)
Definition last_call_failed (up : Upstream) (st : N) (x : Response * list Call) : Prop :=
  ∀ pre c, x.2 = pre ++ [c] → failed_call up st x (length pre) c.

(** An upstream that transcribes "2+2" and answers every later call
    with the status 503. *)
Definition explanation_fails : Upstream :=
  λ i _, match i with
         | O => Resolved (reply_with 200 (JStr (u "2+2")))
         | S _ => Resolved (reply_with 503 JNull)
         end.

(** * Properties *)

(** ** [tryEvaluate] *)
Section ArithFacts.
Import Arith ArithSpec.
Context (E : Engine).

Lemma js_or_string (s : jsstring) : js_or (JStr s) (JStr []) = JStr s.
Proof. by destruct s. Qed.

Lemma tryEvaluate_string (g : bool) (s : jsstring) :
  tryEvaluate E g (JStr s) =
  match clean_of s with [] => JNull | clean => result_of g (evaluate E clean) end.
Proof. unfold tryEvaluate. by rewrite js_or_string. Qed.

Lemma result_of_cases (g : bool) (c : completion) :
  result_of g c = JNull ∨ ∃ f, result_of g c = JNum f ∧ isFinite f = true.
Proof.
  destruct c as [|[f|]], g; simpl; auto; destruct (isFinite f) eqn:Hf; eauto.
Qed.

Lemma filter_kept_idem (s : jsstring) :
  List.filter kept (List.filter kept s) = List.filter kept s.
Proof.
  induction s as [|c s IH]; [done|]. simpl.
  destruct (kept c) eqn:Hc; [|done]. simpl. by rewrite Hc, IH.
Qed.

Lemma clean_of_filter (s : jsstring) : clean_of (List.filter kept s) = clean_of s.
Proof. unfold clean_of. by rewrite filter_kept_idem. Qed.

(** *** Texts without digits *)

Lemma emit_no_number t rest ts :
  emit t rest = Some ts →
  match t with TNum _ => False | _ => True end →
  (∀ ts', rest = Some ts' → no_number ts') →
  no_number ts.
Proof.
  unfold emit. destruct rest as [ts'|]; simpl; [|done].
  intros [= <-] Ht H. constructor; [done|]. by apply H.
Qed.

Lemma scan_digit_free_aux (n : nat) :
  ∀ s, (length s < n)%nat → digit_free s →
  ∀ m ts, text_mode m → scan m s = Some ts → no_number ts.
Proof.
  induction n as [|n IH]; intros s Hn Hs m ts Hm; [lia|].
  destruct s as [|c r].
  { destruct m; simpl; try done; intros [= <-]; constructor. }
  apply Forall_cons in Hs as [Hc Hr]. simpl in Hn.
  assert (Hrd : starts_with_digit r = false) by (destruct Hr; done).
  assert (IHr : ∀ m ts, text_mode m → scan m r = Some ts → no_number ts).
  { intros; eapply (IH r); eauto; lia. }
  assert (IHr2 : ∀ c2 r2 m ts, r = c2 :: r2 →
            text_mode m → scan m r2 = Some ts → no_number ts).
  { intros c2 r2 m' ts' -> ??. apply Forall_cons in Hr as [_ Hr].
    simpl in Hn. eapply (IH r2); eauto; lia. }
  clear IH.
  destruct m; try done; simpl; rewrite ?Hc, ?Hrd;
    repeat case_match; try done; intros Hscan;
    first
      [ eapply emit_no_number;
        [exact Hscan|done|
         intros ts' Hts';
         first [ by eapply IHr; [|exact Hts']
               | by eapply IHr2; [reflexivity| |exact Hts'] ] ]
      | by eapply IHr; [|exact Hscan]
      | by eapply IHr2; [reflexivity| |exact Hscan]
      | by injection Hscan as <-; repeat constructor ].
Qed.

Lemma scan_digit_free (s : jsstring) (m : mode) (ts : list token) :
  digit_free s → text_mode m → scan m s = Some ts → no_number ts.
Proof. intros. eapply (scan_digit_free_aux (S (length s))); eauto. Qed.

Lemma apply_binary_dull op a b : dull a → dull b → dull (apply_binary E op a b).
Proof. intros [-> | ->] [-> | ->]; destruct op; simpl; unfold dull; auto. Qed.

Lemma apply_unary_dull neg a : dull a → dull (apply_unary neg a).
Proof. intros [-> | ->]; destruct neg; simpl; unfold dull; auto. Qed.

Lemma reduce_dull l ps : ∀ v,
  Forall dull_pending ps → dull v →
  Forall dull_pending (reduce E l ps v).1 ∧ dull (reduce E l ps v).2.
Proof.
  induction ps as [|p ps IH]; intros v Hps Hv; [done|].
  apply Forall_cons in Hps as [Hp Hps].
  destruct p as [|neg|op a]; simpl.
  - split; [by constructor|done].
  - apply IH; [done|]. by apply apply_unary_dull.
  - case_match.
    + apply IH; [done|]. by apply apply_binary_dull.
    + split; [by constructor|done].
Qed.

Lemma run_dull ts : no_number ts → ∀ ps c v,
  Forall dull_pending ps → dull_cursor c → run E ts ps c = Normal v → dull v.
Proof.
  induction 1 as [|t ts Ht Hts IH]; intros ps c v Hps Hc.
  - destruct c as [|w]; simpl; [done|].
    destruct (reduce_dull 0 ps w Hps Hc) as [_ Hv].
    destruct (reduce E 0 ps w) as [[|??] v']; [|done]. by intros [= <-].
  - destruct c as [|w]; simpl.
    + destruct t; try done; apply IH; simpl; try done;
        try (by constructor); unfold dull; auto.
    + destruct t; try done.
      all: try (match goal with |- context [reduce E ?l ?p ?x] =>
                  destruct (reduce_dull l p x Hps Hc) as [Hps' Hv'];
                  destruct (reduce E l p x) as [ps' v'] eqn:Hred; simpl in * end).
      all: try (by apply IH; [constructor|]).
      * destruct ps as [|[| |]]; try done; apply IH; try done; by constructor.
      * destruct ps' as [|[| |] ps'']; try done.
        apply Forall_cons in Hps' as [_ ?]. by apply IH.
Qed.

Lemma clean_of_digit_free (s : jsstring) : digit_free s → digit_free (clean_of s).
Proof.
  unfold clean_of, digit_free. rewrite !Forall_forall.
  intros H c Hc. apply H.
  apply list_elem_of_In in Hc. apply filter_In in Hc as [Hc _].
  apply filter_In in Hc as [Hc _]. by apply list_elem_of_In.
Qed.

Lemma evaluate_digit_free (clean : jsstring) (v : value) :
  digit_free clean → evaluate E clean = Normal v → dull v.
Proof.
  unfold evaluate. intros Hd.
  destruct (scan _ _) as [ts|] eqn:Hscan; [|done].
  apply scan_digit_free in Hscan; [|
    constructor; [done|apply Forall_app; split; [done|by constructor]] | done].
  intros Hrun. by eapply run_dull in Hrun.
Qed.

Lemma result_of_dull (g : bool) (c : completion) :
  (∀ v, c = Normal v → dull v) → result_of g c = JNull.
Proof.
  destruct c as [|v]; [done|]. intros H.
  destruct (H v eq_refl) as [-> | ->]; simpl; by rewrite ?andb_false_r.
Qed.

(** C8.  For every input string [tryEvaluate] returns a value, which is
    [null] or a finite number, and the value is that of the input with
    every character outside [0-9+-*/().] and white space removed.  Both
    guards of the copies of [tryEvaluate] are covered. *)
Theorem tryEvaluate_null_or_finite (g : bool) (s : jsstring) :
  (tryEvaluate E g (JStr s) = JNull
   ∨ ∃ f, tryEvaluate E g (JStr s) = JNum f ∧ isFinite f = true)
  ∧ tryEvaluate E g (JStr s) = tryEvaluate E g (JStr (List.filter kept s)).
Proof.
  rewrite !tryEvaluate_string, clean_of_filter. split; [|done].
  destruct (clean_of s); [by left|]. apply result_of_cases.
Qed.

(** C2.  For every input string that holds no decimal digit,
    [tryEvaluate] returns [null]. *)
Theorem tryEvaluate_without_digit (g : bool) (s : jsstring) :
  digit_free s → tryEvaluate E g (JStr s) = JNull.
Proof.
  intros Hs. rewrite tryEvaluate_string.
  pose proof (clean_of_digit_free s Hs) as Hc.
  destruct (clean_of s) as [|c r] eqn:Hclean; [done|].
  apply result_of_dull. intros v. by apply evaluate_digit_free.
Qed.
End ArithFacts.

Lemma tryEvaluate_without_digit_witness :
  ArithSpec.digit_free (u "(a + b) * /x./ - y") ∧
  Arith.tryEvaluate basic_host true (JStr (u "(a + b) * /x./ - y")) = JNull.
Proof.
  assert (H : ArithSpec.digit_free (u "(a + b) * /x./ - y")).
  { repeat constructor. }
  split; [exact H|]. apply (tryEvaluate_without_digit basic_host true _ H).
Defined.

(** ** Well-formed expressions *)
Section ExprFacts.
Import Arith ArithSpec.
Context (E : Engine).

Lemma scan_ready_digit (o : bool) (c : N) (r : jsstring) :
  is_digit c = true → scan (Ready o) (c :: r) = after_int [c] r.
Proof. intros H. simpl. by rewrite H. Qed.

Lemma scan_in_int (ds : list N) (c : N) (r : jsstring) :
  is_digit c = true → scan (InInt ds) (c :: r) = after_int (ds ++ [c]) r.
Proof. intros H. simpl. by rewrite H. Qed.

Lemma scan_in_frac (ds fs : list N) (c : N) (r : jsstring) :
  is_digit c = true → scan (InFrac ds fs) (c :: r) = after_frac ds (fs ++ [c]) r.
Proof. intros H. simpl. by rewrite H. Qed.

Lemma scan_int_dot (ds : list N) (r : jsstring) :
  scan (IntDot ds) (Ch.dot :: r) = after_frac ds [] r.
Proof. reflexivity. Qed.

Lemma after_int_digits (ds : list N) : ∀ pre tail,
  Forall (λ c, is_digit c = true) ds →
  after_int pre (ds ++ tail) = after_int (pre ++ ds) tail.
Proof.
  induction ds as [|d ds IH]; intros pre tail Hds.
  - by rewrite app_nil_r.
  - apply Forall_cons in Hds as [Hd Hds].
    unfold after_int at 1. cbn [app starts_with_digit]. rewrite Hd.
    rewrite (scan_in_int pre d (ds ++ tail) Hd).
    rewrite IH by done. by rewrite <- app_assoc.
Qed.

Lemma after_frac_digits (ds fs : list N) : ∀ pre tail,
  Forall (λ c, is_digit c = true) fs →
  after_frac ds pre (fs ++ tail) = after_frac ds (pre ++ fs) tail.
Proof.
  induction fs as [|d fs IH]; intros pre tail Hfs.
  - by rewrite app_nil_r.
  - apply Forall_cons in Hfs as [Hd Hfs].
    unfold after_frac at 1. cbn [app starts_with_digit]. rewrite Hd.
    rewrite (scan_in_frac ds pre d (fs ++ tail) Hd).
    rewrite IH by done. by rewrite <- app_assoc.
Qed.

Lemma scan_literal (o : bool) (ds fs : list N) (rest : jsstring) :
  literal_ok ds fs → boundary rest →
  scan (Ready o) (render_literal ds fs ++ rest)
  = emit (TNum (decimal ds fs)) (scan (Ready true) rest).
Proof.
  intros (Hne & Hds & Hfs & Hz) [Hb1 Hb2].
  destruct ds as [|d ds]; [done|].
  apply Forall_cons in Hds as [Hd Hds].
  assert (Hint : ∀ tail, scan (Ready o) ((d :: ds) ++ tail) = after_int (d :: ds) tail).
  { intros tail. rewrite <- app_comm_cons, (scan_ready_digit o d _ Hd).
    by rewrite after_int_digits. }
  unfold render_literal. destruct fs as [|f fs].
  - rewrite Hint. unfold after_int, emit_number. by rewrite Hb1, Hb2, Hz.
  - rewrite <- app_assoc, Hint. unfold after_int.
    cbn [app starts_with_digit starts_with]. change (is_digit Ch.dot) with false.
    change (Ch.dot =? Ch.dot)%N with true. cbn iota.
    rewrite scan_int_dot. rewrite (after_frac_digits _ (f :: fs) [] rest Hfs).
    unfold after_frac, emit_number. by rewrite Hb1, Hz.
Qed.

Lemma render_opens (e : expr) : well_formed e → ∀ rest, opens (render e ++ rest).
Proof.
  induction e as [ds fs|e IH|e IH|op a IHa b IHb]; simpl; intros Hwf rest.
  - destruct Hwf as (Hne & Hds & _). destruct ds as [|d ds]; [done|].
    apply Forall_cons in Hds as [Hd _].
    unfold render_literal. destruct fs; simpl; eexists _, _; eauto.
  - eexists _, _; eauto.
  - eexists _, _; eauto.
  - destruct Hwf as (Ha & _). rewrite <- app_assoc. by apply IHa.
Qed.

Lemma opens_not_operator (c : N) :
  is_digit c = true ∨ c = Ch.lparen →
  (c =? Ch.plus)%N = false ∧ (c =? Ch.minus)%N = false
  ∧ (c =? Ch.star)%N = false ∧ (c =? Ch.slash)%N = false.
Proof.
  unfold is_digit, Ch.plus, Ch.minus, Ch.star, Ch.slash, Ch.lparen, Ch.zero, Ch.nine.
  intros [H| ->]; [|done].
  apply andb_true_iff in H as [H1 H2].
  apply N.leb_le in H1, H2. repeat split; apply N.eqb_neq; lia.
Qed.

Lemma scan_operator (op : arith_op) (r : jsstring) :
  opens r → scan (Ready true) (op_char op :: r) = emit (op_token op) (scan (Ready false) r).
Proof.
  intros (c & tail & -> & Hc).
  destruct (opens_not_operator c Hc) as (Hp & Hm & Hs & Hd).
  destruct op; simpl; by rewrite ?Hp, ?Hm, ?Hs, ?Hd.
Qed.

Lemma scan_negation (r : jsstring) :
  opens r → scan (Ready false) (Ch.minus :: r) = emit TMinus (scan (Ready false) r).
Proof.
  intros (c & tail & -> & Hc).
  destruct (opens_not_operator c Hc) as (Hp & Hm & Hs & Hd).
  simpl. by rewrite Hm.
Qed.

Lemma boundary_operator (op : arith_op) (r : jsstring) : boundary (op_char op :: r).
Proof. by destruct op. Qed.

Lemma boundary_rparen (r : jsstring) : boundary (Ch.rparen :: r).
Proof. done. Qed.

Lemma scan_render (e : expr) : well_formed e → ∀ o rest, boundary rest →
  scan (Ready o) (render e ++ rest) = app (tokens_of e) <$> scan (Ready true) rest.
Proof.
  induction e as [ds fs|e IH|e IH|op a IHa b IHb];
    cbn [render tokens_of well_formed]; intros Hwf o rest Hb.
  - rewrite scan_literal by done. by destruct (scan (Ready true) rest).
  - rewrite <- app_comm_cons, <- app_assoc.
    change (scan (Ready o) (Ch.lparen :: render e ++ [Ch.rparen] ++ rest))
      with (emit TLParen (scan (Ready false) (render e ++ [Ch.rparen] ++ rest))).
    rewrite IH by (done || apply boundary_rparen).
    change (scan (Ready true) ([Ch.rparen] ++ rest))
      with (emit TRParen (scan (Ready true) rest)).
    unfold emit. destruct (scan (Ready true) rest); [|done].
    simpl. by rewrite <- ?app_assoc.
  - destruct Hwf as [Hwf _]. rewrite <- !app_comm_cons, <- app_assoc.
    change (scan (Ready o) (Ch.lparen :: Ch.minus :: render e ++ [Ch.rparen] ++ rest))
      with (emit TLParen (scan (Ready false) (Ch.minus :: render e ++ [Ch.rparen] ++ rest))).
    rewrite scan_negation by (by apply render_opens).
    rewrite IH by (done || apply boundary_rparen).
    change (scan (Ready true) ([Ch.rparen] ++ rest))
      with (emit TRParen (scan (Ready true) rest)).
    unfold emit. destruct (scan (Ready true) rest); [|done].
    simpl. by rewrite <- ?app_assoc.
  - destruct Hwf as (Ha & Hb' & _). rewrite <- app_assoc.
    rewrite IHa by (done || apply boundary_operator).
    rewrite <- app_comm_cons, scan_operator by (by apply render_opens).
    rewrite IHb by done.
    unfold emit. destruct (scan (Ready true) rest); [|done].
    simpl. by rewrite <- ?app_assoc.
Qed.

(** *** The evaluator on the tokens of an expression *)

Lemma settled_mono (p q : nat) (ps : list pending) :
  (p ≤ q)%nat → settled E p ps → settled E q ps.
Proof. intros Hpq H l v ??. apply H; lia. Qed.

Lemma settled_paren (p : nat) (ps : list pending) : settled E p (PParen :: ps).
Proof. by intros l v _ _. Qed.

Lemma settled_nil (p : nat) : settled E p [].
Proof. by intros l v _ _. Qed.

Lemma level_op_binop (op : arith_op) : level (op_binop op) = op_level op.
Proof. by destruct op. Qed.

Lemma settled_binary (op : arith_op) (a : value) (ps : list pending) :
  settled E (S (op_level op)) (PBinary (op_binop op) a :: ps).
Proof.
  intros l v Hl _. simpl. rewrite level_op_binop.
  by rewrite (proj2 (Nat.leb_gt _ _)) by lia.
Qed.

Lemma apply_op (op : arith_op) (x y : spec_float) :
  apply_binary E (op_binop op) (VNum x) (VNum y) = VNum (op_apply op x y).
Proof. by destruct op. Qed.

Lemma run_operator (op : arith_op) (r : list token) (ps : list pending) (v : value) :
  run E (op_token op :: r) ps (Have v) =
  run E r (PBinary (op_binop op) (reduce E (op_level op) ps v).2
             :: (reduce E (op_level op) ps v).1) Awaiting.
Proof. destruct op; simpl; by destruct (reduce E _ ps v). Qed.

Lemma op_level_le (op : arith_op) : (op_level op ≤ 2)%nat.
Proof. destruct op; simpl; lia. Qed.

Lemma run_tokens (e : expr) : well_formed e → ∀ p ps rest,
  (p ≤ binding e)%nat → settled E p ps →
  ∃ ps' v',
    run E (tokens_of e ++ rest) ps Awaiting = run E rest ps' (Have v')
    ∧ ∀ l, (l ≤ p)%nat → reduce E l ps' v' = reduce E l ps (VNum (value_of e)).
Proof.
  induction e as [ds fs|e IH|e IH|op a IHa b IHb]; simpl; intros Hwf p ps rest Hp Hps.
  - by exists ps, (VNum (decimal ds fs)).
  - destruct (IH Hwf 0%nat (PParen :: ps) (TRParen :: rest)) as (ps1 & v1 & Hrun & Hred);
      [lia|apply settled_paren|].
    exists ps, (VNum (value_of e)). split; [|done].
    rewrite <- app_assoc. simpl. rewrite Hrun. simpl.
    by rewrite (Hred 0%nat) by lia.
  - destruct Hwf as [Hwf Hbind].
    destruct (IH Hwf 3%nat (PUnary true :: PParen :: ps) (TRParen :: rest))
      as (ps1 & v1 & Hrun & Hred); [lia| |].
    { intros l v ??. lia. }
    exists ps, (VNum (SFopp (value_of e))). split; [|done].
    rewrite <- app_assoc. simpl. rewrite Hrun. simpl.
    by rewrite (Hred 0%nat) by lia.
  - destruct Hwf as (Ha & Hb & Hla & Hlb).
    pose proof (op_level_le op) as Hop.
    destruct (IHa Ha (op_level op) ps (op_token op :: tokens_of b ++ rest))
      as (psa & va & Hruna & Hreda); [done|by eapply settled_mono|].
    assert (Hq : reduce E (op_level op) psa va = (ps, VNum (value_of a))).
    { rewrite Hreda by lia. apply Hps; lia. }
    destruct (IHb Hb (S (op_level op)) (PBinary (op_binop op) (VNum (value_of a)) :: ps) rest)
      as (psb & vb & Hrunb & Hredb); [lia|apply settled_binary|].
    exists psb, vb. split.
    + rewrite <- app_assoc. simpl. rewrite Hruna, run_operator, Hq. exact Hrunb.
    + intros l Hl. rewrite Hredb by lia. simpl.
      rewrite level_op_binop, (proj2 (Nat.leb_le _ _)) by lia.
      by rewrite apply_op.
Qed.

Lemma evaluate_render (e : expr) :
  well_formed e → evaluate E (render e) = Normal (VNum (value_of e)).
Proof.
  intros Hwf. unfold evaluate.
  change (Ch.lparen :: render e ++ [Ch.rparen]) with (render (Paren e)).
  rewrite <- (app_nil_r (render (Paren e))).
  rewrite (scan_render (Paren e) Hwf false [] (conj eq_refl eq_refl)).
  change (scan (Ready true) []) with (Some (@nil token)).
  cbn [fmap option_fmap option_map].
  destruct (run_tokens (Paren e) Hwf 0%nat [] []) as (ps' & v' & Hrun & Hred);
    [cbn [binding]; lia|apply settled_nil|].
  rewrite Hrun. cbn [run]. by rewrite (Hred 0%nat) by lia.
Qed.

Lemma render_not_empty (e : expr) : well_formed e → render e ≠ [].
Proof.
  intros Hwf Hnil. destruct (render_opens e Hwf []) as (c & tail & H & _).
  by rewrite app_nil_r, Hnil in H.
Qed.
End ExprFacts.

(** ** The handlers *)

Ltac unfold_effects :=
  cbv [catching mbind M_bind mret M_ret fetch throw try_catch fault reply_json
       parse_body destructure as_string opt_trim].

Lemma failure_shape_tag (st : N) (tag : string) (more : list (string * Field)) :
  st ∈ [400; 405; 413; 500; 502]%N → failure_shape (json st (error_tag tag ++ more)).
Proof. intros. split; [by eexists|done]. Qed.

Lemma failure_shape_message (t : Text) : failure_shape (json 500 [("error", FText t)]).
Proof. split; [by eexists|set_solver]. Qed.

Lemma returns_ret (P : Response → Prop) (r : Response) : P r → returns P (mret r).
Proof. by intros H log. Qed.

Lemma returns_fault (P : Response → Prop) (E : Engine) (f : Fault) : returns P (fault E f).
Proof. by intros log. Qed.

Lemma returns_bind {A} (P : Response → Prop) (m : M A) (f : A → M Response) :
  (∀ a, returns P (f a)) → returns P (m ≫= f).
Proof.
  intros H log. unfold mbind, M_bind. destruct (m log) as [[a|e] log']; [|done]. apply H.
Qed.

Lemma returns_catching (P : Response → Prop) (m : M Response) (h : Exn → Response) :
  returns P m → (∀ e, P (h e)) → P (catching m h).1.
Proof.
  intros Hm Hh. unfold catching. specialize (Hm []).
  destruct (m []) as [[r|e] log]; [done|apply Hh].
Qed.

Ltac shape_leaf :=
  first [ left; reflexivity
        | right; first [ apply (failure_shape_tag _ _ []) | apply failure_shape_tag
                       | apply failure_shape_message ]; set_solver ].

Ltac shape :=
  repeat lazymatch goal with
  | |- success_or_failure (catching _ _).1 => apply returns_catching; [|intros; shape_leaf]
  | |- returns _ (mret _) => apply returns_ret; shape_leaf
  | |- returns _ (fault _ _) => apply returns_fault
  | |- returns _ (mbind _ _) => apply returns_bind; intros
  | |- returns _ (if ?b then _ else _) => destruct b
  | |- returns _ (match ?x with _ => _ end) => destruct x
  | |- returns _ (let _ := _ in _) => progress cbv zeta
  end.

Lemma read_event (E : Engine) (b : RawBody) (img : JsVal) {A} (k : JsVal → JsVal → M A)
    (log : list Call) :
  event_image b = Some img →
  (v ← parse_body E b; '(i, s) ← destructure E v; k i s) log = k img (event_step b) log.
Proof.
  destruct b as [| |v]; cbn [event_image event_step]; [|done|].
  - intros [= <-]. reflexivity.
  - unfold_effects. destruct (nullish v); [done|]. intros [= <-]. reflexivity.
Qed.

Section ApiPipelineFacts.
Import ApiPipeline.
Context (E : Engine) (env : Env) (up : Upstream).

Lemma api_shape (req : Req) : success_or_failure (handler E env up req).1.
Proof. unfold handler, pipeline. shape. Qed.

Lemma api_wrong_method (req : Req) :
  method req ≠ POST →
  handler E env up req = (json 405 (error_tag "method_not_allowed"), []).
Proof. intros H. unfold handler, pipeline. by rewrite bool_decide_false. Qed.

Lemma api_invalid_image (req : Req) :
  method req = POST →
  invalid_image (body_field (req_body req) "imageDataUrl") = true →
  handler E env up req = (json 400 (error_tag "invalid_image"), []).
Proof. intros Hm Hi. unfold handler, pipeline. by rewrite bool_decide_true, Hi. Qed.

Lemma api_missing_key (req : Req) :
  method req = POST →
  invalid_image (body_field (req_body req) "imageDataUrl") = false →
  env !! "OPENROUTER_API_KEY" = None →
  handler E env up req = (json 500 (error_tag "missing_openrouter_key"), []).
Proof.
  intros Hm Hi Hk. unfold handler, pipeline, getenv.
  by rewrite bool_decide_true, Hi, Hk.
Qed.
End ApiPipelineFacts.

Section Part001Facts.
Import Part001.
Context (E : Engine) (env : Env) (up : Upstream).

Lemma part001_shape (req : Request) : success_or_failure (handler E env up req).1.
Proof. unfold handler, pipeline. shape. Qed.

Lemma part001_wrong_method (req : Request) :
  method req ≠ POST →
  handler E env up req = (json 405 (error_tag "method_not_allowed"), []).
Proof. intros H. unfold handler, pipeline. by rewrite bool_decide_false. Qed.

Lemma part001_invalid_json (req : Request) :
  method req = POST → parsed req = None →
  handler E env up req = (json 400 (error_tag "invalid_json"), []).
Proof. intros Hm Hp. unfold handler, pipeline. by rewrite bool_decide_true, Hp. Qed.

Lemma part001_invalid_image (req : Request) (b : JsVal) :
  method req = POST → parsed req = Some b →
  invalid_image (body_field b "imageDataUrl") = true →
  handler E env up req = (json 400 (error_tag "invalid_image"), []).
Proof. intros Hm Hp Hi. unfold handler, pipeline. by rewrite bool_decide_true, Hp, Hi. Qed.

Lemma part001_too_large (req : Request) (b : JsVal) :
  method req = POST → parsed req = Some b →
  invalid_image (body_field b "imageDataUrl") = false →
  6000000 < string_length (body_field b "imageDataUrl") →
  handler E env up req = (json 413 (error_tag "image_too_large"), []).
Proof.
  intros Hm Hp Hi Hl. unfold handler, pipeline.
  rewrite bool_decide_true, Hp, Hi by done.
  by rewrite (proj2 (Z.ltb_lt _ _) Hl).
Qed.

Lemma part001_missing_key (req : Request) (b : JsVal) :
  method req = POST → parsed req = Some b →
  invalid_image (body_field b "imageDataUrl") = false →
  string_length (body_field b "imageDataUrl") ≤ 6000000 →
  env !! "OPENROUTER_API_KEY" = None →
  handler E env up req = (json 500 (error_tag "missing_openrouter_key"), []).
Proof.
  intros Hm Hp Hi Hl Hk. unfold handler, pipeline, getenv.
  rewrite bool_decide_true, Hp, Hi, Hk by done.
  by rewrite (proj2 (Z.ltb_ge _ _) Hl).
Qed.
End Part001Facts.

Section Part000_1Facts.
Import Part000_1.
Context (E : Engine) (env : Env) (up : Upstream).

Lemma part000_1_shape (req : Req) : success_or_failure (handler E env up req).1.
Proof. unfold handler, pipeline, explain. shape. Qed.

Lemma part000_1_wrong_method (req : Req) :
  method req ≠ POST →
  handler E env up req = (json 405 (error_tag "method_not_allowed"), []).
Proof. intros H. unfold handler, pipeline. by rewrite bool_decide_false. Qed.

Lemma part000_1_invalid_image (req : Req) :
  method req = POST →
  invalid_image (body_field (req_body req) "imageDataUrl") = true →
  handler E env up req = (json 400 (error_tag "invalid_image"), []).
Proof. intros Hm Hi. unfold handler, pipeline. by rewrite bool_decide_true, Hi. Qed.

Lemma part000_1_missing_key (req : Req) :
  method req = POST →
  invalid_image (body_field (req_body req) "imageDataUrl") = false →
  env !! "OPENROUTER_API_KEY" = None →
  handler E env up req = (json 500 (error_tag "missing_openrouter_key"), []).
Proof.
  intros Hm Hi Hk. unfold handler, pipeline, getenv.
  by rewrite bool_decide_true, Hi, Hk.
Qed.
End Part000_1Facts.

Section NetlifyPipelineFacts.
Import NetlifyPipeline.
Context (E : Engine) (env : Env) (up : Upstream).

Lemma netlify_shape (ev : Event) : success_or_failure (handler E env up ev).1.
Proof. unfold handler, pipeline, respond. shape. Qed.

Lemma netlify_wrong_method (ev : Event) :
  httpMethod ev ≠ POST →
  handler E env up ev = (json 405 (error_tag "Method Not Allowed"), []).
Proof. intros H. unfold handler, pipeline. by rewrite bool_decide_false. Qed.

Lemma netlify_missing_image (ev : Event) (img : JsVal) :
  httpMethod ev = POST → event_image (ev_body ev) = Some img → truthy img = false →
  handler E env up ev = (json 400 (error_tag "Missing imageDataUrl"), []).
Proof.
  intros Hm Hi Ht. unfold handler, pipeline, catching.
  rewrite bool_decide_true by done. cbn [negb].
  rewrite (read_event E _ _ _ _ Hi). unfold respond. by rewrite Ht.
Qed.
End NetlifyPipelineFacts.

Section Part000_2Facts.
Import Part000_2.
Context (E : Engine) (env : Env) (up : Upstream).

Lemma part000_2_shape (ev : Event) : success_or_failure (handler E env up ev).1.
Proof. unfold handler, pipeline, respond. shape. Qed.

Lemma part000_2_wrong_method (ev : Event) :
  httpMethod ev ≠ POST →
  handler E env up ev = (json 405 (error_tag "Method Not Allowed"), []).
Proof. intros H. unfold handler, pipeline. by rewrite bool_decide_false. Qed.

Lemma part000_2_missing_image (ev : Event) (img : JsVal) :
  httpMethod ev = POST → event_image (ev_body ev) = Some img → truthy img = false →
  handler E env up ev = (json 400 (error_tag "Missing imageDataUrl"), []).
Proof.
  intros Hm Hi Ht. unfold handler, pipeline, catching.
  rewrite bool_decide_true by done. cbn [negb].
  rewrite (read_event E _ _ _ _ Hi). unfold respond. by rewrite Ht.
Qed.
End Part000_2Facts.

Section Part000_3Facts.
Import Part000_3.
Context (E : Engine) (env : Env) (up : Upstream).

Lemma part000_3_shape (ev : Event) : success_or_failure (handler E env up ev).1.
Proof. unfold handler, pipeline, respond. shape. Qed.

Lemma part000_3_wrong_method (ev : Event) :
  httpMethod ev ≠ POST →
  handler E env up ev = (json 405 (error_tag "Method Not Allowed"), []).
Proof. intros H. unfold handler, pipeline. by rewrite bool_decide_false. Qed.

Lemma part000_3_missing_image (ev : Event) (img : JsVal) :
  httpMethod ev = POST → event_image (ev_body ev) = Some img → truthy img = false →
  handler E env up ev = (json 400 (error_tag "Missing imageDataUrl"), []).
Proof.
  intros Hm Hi Ht. unfold handler, pipeline, catching.
  rewrite bool_decide_true by done. cbn [negb].
  rewrite (read_event E _ _ _ _ Hi). unfold respond. by rewrite Ht.
Qed.
End Part000_3Facts.

(** ** Validation of the request *)

Lemma body_field_image_body (v : JsVal) : body_field (image_body v) "imageDataUrl" = v.
Proof.
  unfold body_field, image_body, get_prop. cbn [truthy].
  by rewrite lookup_singleton_eq.
Qed.

Lemma event_image_image_body (v : JsVal) : event_image (Parsed (image_body v)) = Some v.
Proof.
  unfold event_image, image_body, get_prop. cbn [nullish].
  by rewrite lookup_singleton_eq.
Qed.

Lemma long_tail_length : length long_tail = N.to_nat 6000000.
Proof. unfold long_tail. apply repeat_length. Qed.

Lemma long_image_length : 6000000 < jslength long_image.
Proof.
  unfold jslength, long_image. rewrite length_app, long_tail_length, Nat2Z.inj_add, N_nat_Z.
  replace (length (u "data:image/png;base64,")) with 22%nat by reflexivity. lia.
Qed.

Lemma long_text_length : 6000000 < jslength long_text.
Proof.
  unfold jslength, long_text. rewrite length_app, long_tail_length, Nat2Z.inj_add, N_nat_Z.
  replace (length (u "x")) with 1%nat by reflexivity. lia.
Qed.

Lemma long_text_invalid : invalid_image (JStr long_text) = true.
Proof. unfold long_text. generalize long_tail. intros tail. reflexivity. Qed.

(** C1, as amended.  A POST request whose [imageDataUrl] is not a
    string starting with [data:image/] is answered 400 with a JSON error
    body and without an upstream call by api/pipeline.js, by part_001
    (also when the body is no JSON) and by the first handler of part_000.
    The three handlers on Netlify events answer so when [imageDataUrl] is
    missing or falsy. *)
Theorem invalid_image_rejected (E : Engine) (env : Env) (up : Upstream) :
  (∀ req, method req = POST →
     invalid_image (body_field (req_body req) "imageDataUrl") = true →
     ApiPipeline.handler E env up req = (json 400 (error_tag "invalid_image"), []))
  ∧ (∀ req, Part001.method req = POST → Part001.parsed req = None →
     Part001.handler E env up req = (json 400 (error_tag "invalid_json"), []))
  ∧ (∀ req b, Part001.method req = POST → Part001.parsed req = Some b →
     invalid_image (body_field b "imageDataUrl") = true →
     Part001.handler E env up req = (json 400 (error_tag "invalid_image"), []))
  ∧ (∀ req, method req = POST →
     invalid_image (body_field (req_body req) "imageDataUrl") = true →
     Part000_1.handler E env up req = (json 400 (error_tag "invalid_image"), []))
  ∧ (∀ ev img, httpMethod ev = POST → event_image (ev_body ev) = Some img →
     truthy img = false →
     NetlifyPipeline.handler E env up ev = (json 400 (error_tag "Missing imageDataUrl"), [])
     ∧ Part000_2.handler E env up ev = (json 400 (error_tag "Missing imageDataUrl"), [])
     ∧ Part000_3.handler E env up ev = (json 400 (error_tag "Missing imageDataUrl"), [])).
Proof.
  repeat split; intros.
  - by apply api_invalid_image.
  - by apply part001_invalid_json.
  - by eapply part001_invalid_image.
  - by apply part000_1_invalid_image.
  - by eapply netlify_missing_image.
  - by eapply part000_2_missing_image.
  - by eapply part000_3_missing_image.
Qed.

Lemma invalid_image_rejected_witness :
  ApiPipeline.handler basic_host both_keys unreachable
    {| method := POST; req_body := image_body (JStr (u "hello")) |}
  = (json 400 (error_tag "invalid_image"), [])
  ∧ NetlifyPipeline.handler basic_host both_keys unreachable
      {| httpMethod := POST; ev_body := Parsed (image_body (JStr [])) |}
    = (json 400 (error_tag "Missing imageDataUrl"), []).
Proof.
  pose proof (invalid_image_rejected basic_host both_keys unreachable)
    as (Hapi & _ & _ & _ & Hev).
  split.
  - apply Hapi; [reflexivity|]. cbn [req_body]. by rewrite body_field_image_body.
  - apply (Hev _ (JStr [])); [reflexivity| |reflexivity].
    cbn [ev_body]. apply event_image_image_body.
Defined.

(** C1, as stated, fails on netlify/functions/pipeline.js: the string
    "hello" is answered 500, and for "data:text/plain,hi" the OCR service
    is called. *)
Lemma netlify_accepts_other_strings :
  invalid_image (JStr (u "hello")) = true
  ∧ statusCode (NetlifyPipeline.handler basic_host both_keys unreachable
                  {| httpMethod := POST; ev_body := Parsed (image_body (JStr (u "hello"))) |}).1
    = 500%N
  ∧ invalid_image (JStr (u "data:text/plain,hi")) = true
  ∧ length (NetlifyPipeline.handler basic_host both_keys unreachable
              {| httpMethod := POST;
                 ev_body := Parsed (image_body (JStr (u "data:text/plain,hi"))) |}).2
    = 1%nat.
Proof. repeat split; vm_compute; reflexivity. Qed.

Lemma tiny_image_valid : invalid_image (JStr tiny_image) = false.
Proof. reflexivity. Qed.

Lemma tiny_image_length : string_length (JStr tiny_image) ≤ 6000000.
Proof. by vm_compute. Qed.

(** C5.  A POST request with a valid image payload (for part_001: also
    within the size limit), handled while the environment holds no
    OPENROUTER_API_KEY, is answered 500 with the tag
    [missing_openrouter_key] and without an upstream call: in
    api/pipeline.js, in part_001 and in the first handler of part_000. *)
Theorem missing_openrouter_key (E : Engine) (env : Env) (up : Upstream) :
  env !! "OPENROUTER_API_KEY" = None →
  (∀ req, method req = POST →
     invalid_image (body_field (req_body req) "imageDataUrl") = false →
     ApiPipeline.handler E env up req = (json 500 (error_tag "missing_openrouter_key"), []))
  ∧ (∀ req b, Part001.method req = POST → Part001.parsed req = Some b →
     invalid_image (body_field b "imageDataUrl") = false →
     string_length (body_field b "imageDataUrl") ≤ 6000000 →
     Part001.handler E env up req = (json 500 (error_tag "missing_openrouter_key"), []))
  ∧ (∀ req, method req = POST →
     invalid_image (body_field (req_body req) "imageDataUrl") = false →
     Part000_1.handler E env up req = (json 500 (error_tag "missing_openrouter_key"), [])).
Proof.
  intros Hk. repeat split; intros.
  - by apply api_missing_key.
  - by eapply part001_missing_key.
  - by apply part000_1_missing_key.
Qed.

Lemma missing_openrouter_key_witness :
  only_groq_key !! "OPENROUTER_API_KEY" = None
  ∧ ApiPipeline.handler basic_host only_groq_key unreachable (express_post (JStr tiny_image))
    = (json 500 (error_tag "missing_openrouter_key"), [])
  ∧ Part001.handler basic_host only_groq_key unreachable (fetch_post (JStr tiny_image))
    = (json 500 (error_tag "missing_openrouter_key"), []).
Proof.
  assert (Hk : only_groq_key !! "OPENROUTER_API_KEY" = None) by reflexivity.
  pose proof (missing_openrouter_key basic_host only_groq_key unreachable Hk)
    as (Hapi & Hfetch & _).
  split; [exact Hk|split].
  - apply Hapi; [reflexivity|]. cbn [express_post req_body].
    rewrite body_field_image_body. apply tiny_image_valid.
  - apply (Hfetch _ (image_body (JStr tiny_image))); [reflexivity|reflexivity| |];
      rewrite body_field_image_body; [apply tiny_image_valid|apply tiny_image_length].
Defined.

(** C9, as amended.  In part_001 a POST request whose [imageDataUrl] is a
    string that starts with [data:image/] and is longer than 6,000,000
    code units is answered 413 with the tag [image_too_large], without an
    upstream call. *)
Theorem oversized_image_rejected (E : Engine) (env : Env) (up : Upstream)
    (req : Part001.Request) (b : JsVal) (url : jsstring) :
  Part001.method req = POST → Part001.parsed req = Some b →
  body_field b "imageDataUrl" = JStr url →
  startsWith url (u "data:image/") = true →
  6000000 < jslength url →
  Part001.handler E env up req = (json 413 (error_tag "image_too_large"), []).
Proof.
  intros Hm Hp Hb Hs Hl. eapply part001_too_large; eauto; rewrite Hb; [|done].
  unfold invalid_image. rewrite Hs. by destruct url.
Qed.

Lemma oversized_image_rejected_witness :
  6000000 < jslength long_image
  ∧ Part001.handler basic_host both_keys unreachable (fetch_post (JStr long_image))
    = (json 413 (error_tag "image_too_large"), []).
Proof.
  split; [apply long_image_length|].
  apply (oversized_image_rejected basic_host both_keys unreachable
           (fetch_post (JStr long_image)) (image_body (JStr long_image)) long_image).
  - reflexivity.
  - reflexivity.
  - apply body_field_image_body.
  - unfold long_image. generalize long_tail. intros tail. reflexivity.
  - apply long_image_length.
Defined.

(** C9, as stated, fails: a string of 6,000,001 code units that does not
    start with [data:image/] is answered 400. *)
Lemma long_text_answered_400 :
  6000000 < jslength long_text
  ∧ Part001.handler basic_host both_keys unreachable (fetch_post (JStr long_text))
    = (json 400 (error_tag "invalid_image"), []).
Proof.
  split; [apply long_text_length|].
  apply (part001_invalid_image _ _ _ _ (image_body (JStr long_text))).
  - reflexivity.
  - reflexivity.
  - rewrite body_field_image_body. apply long_text_invalid.
Qed.

(** ** The upstream calls of a run *)

Lemma calls_in_ret {A} (Q : Call → Prop) (a : A) : calls_in Q (mret a).
Proof. by intros log. Qed.

Lemma calls_in_throw {A} (Q : Call → Prop) (e : Exn) : calls_in Q (throw e : M A).
Proof. by intros log. Qed.

Lemma calls_in_fault {A} (Q : Call → Prop) (E : Engine) (f : Fault) :
  calls_in Q (fault E f : M A).
Proof. by intros log. Qed.

Lemma calls_in_bind {A B} (Q : Call → Prop) (m : M A) (f : A → M B) :
  calls_in Q m → (∀ a, calls_in Q (f a)) → calls_in Q (m ≫= f).
Proof.
  intros Hm Hf log Hlog. unfold mbind, M_bind. specialize (Hm log Hlog).
  destruct (m log) as [[a|e] log']; [|done]. by apply Hf.
Qed.

Lemma calls_in_fetch (Q : Call → Prop) (up : Upstream) (c : Call) :
  Q c → calls_in Q (fetch up c).
Proof.
  intros Hc log Hlog. unfold fetch.
  destruct (up _ _); simpl; apply Forall_app; by repeat constructor.
Qed.

Lemma calls_in_try_catch {A} (Q : Call → Prop) (m : M A) (h : Exn → M A) :
  calls_in Q m → (∀ e, calls_in Q (h e)) → calls_in Q (try_catch m h).
Proof.
  intros Hm Hh log Hlog. unfold try_catch. specialize (Hm log Hlog).
  destruct (m log) as [[a|e] log']; [done|]. by apply Hh.
Qed.

Lemma calls_in_catching (Q : Call → Prop) (m : M Response) (h : Exn → Response) :
  calls_in Q m → Forall Q (catching m h).2.
Proof.
  intros Hm. unfold catching. specialize (Hm [] (Forall_nil_2 _)).
  by destruct (m []) as [[r|e] log].
Qed.

Ltac calls_step :=
  lazymatch goal with
  | |- calls_in _ (mret _) => apply calls_in_ret
  | |- calls_in _ (throw _) => apply calls_in_throw
  | |- calls_in _ (fault _ _) => apply calls_in_fault
  | |- calls_in _ (mbind _ _) => apply calls_in_bind; [|intros]
  | |- calls_in _ (fetch _ _) => apply calls_in_fetch
  | |- calls_in _ (try_catch _ _) => apply calls_in_try_catch; [|intros]
  | |- calls_in _ (if ?b then _ else _) => destruct b
  | |- calls_in _ (match ?x with _ => _ end) => destruct x
  | |- calls_in _ (let _ := _ in _) => progress cbv zeta
  end.

Ltac calls := repeat calls_step.

Lemma no_math_html_eq : toHtmlParagraphs no_math_text = no_math_html.
Proof. by vm_compute. Qed.

Section NetlifyCalls.
Import NetlifyPipeline.
Context (E : Engine) (env : Env) (up : Upstream).

Lemma netlify_ocr_calls (img : JsVal) :
  calls_in (λ c, c = ocr_call env img) (runOCRWithOpenRouter E env up img).
Proof.
  unfold runOCRWithOpenRouter, as_string, reply_json. calls; done.
Qed.

Lemma netlify_no_math (ev : Event) (img : JsVal) (text : jsstring) (log : list Call) :
  httpMethod ev = POST → event_image (ev_body ev) = Some img → truthy img = true →
  runOCRWithOpenRouter E env up img [] = (Ret text, log) →
  has_math text = false →
  handler E env up ev = (no_math_response text, log)
  ∧ Forall (λ c, c = ocr_call env img) log.
Proof.
  intros Hm Hi Ht Hocr Hmath. split.
  - unfold handler, pipeline, catching.
    rewrite bool_decide_true by done. cbn [negb].
    rewrite (read_event E _ _ _ _ Hi). unfold respond. rewrite Ht. cbn [negb].
    unfold mbind, M_bind. rewrite Hocr, Hmath, orb_true_r.
    unfold toFriendlyStepsHtml. by rewrite no_math_html_eq.
  - pose proof (netlify_ocr_calls img [] (Forall_nil_2 _)) as H. by rewrite Hocr in H.
Qed.

Lemma netlify_all_calls (ev : Event) (img : JsVal) :
  httpMethod ev = POST → event_image (ev_body ev) = Some img →
  Forall (λ c, c = ocr_call env img ∨ ∃ t, c = explain_call env t (event_step (ev_body ev)))
         (handler E env up ev).2.
Proof.
  intros Hm Hi. unfold handler. apply calls_in_catching. unfold pipeline.
  rewrite bool_decide_true by done. cbn [negb].
  intros log Hlog. rewrite (read_event E _ _ _ _ Hi). revert log Hlog.
  change (calls_in (λ c, c = ocr_call env img ∨
                         ∃ t, c = explain_call env t (event_step (ev_body ev)))
            (respond E env up img (event_step (ev_body ev)))).
  unfold respond, runOCRWithOpenRouter, runExplainWithGroq, trimmed_or_empty,
    as_string, reply_json.
  calls; eauto.
Qed.
End NetlifyCalls.

Section Part000_2Calls.
Import Part000_2.
Context (E : Engine) (env : Env) (up : Upstream).

Lemma part000_2_ocr_calls (img : JsVal) :
  calls_in (λ c, c = groq_ocr_call env img ∨ c = openrouter_ocr_call env img) (ocr_stage E env up img).
Proof.
  unfold ocr_stage, ocrWithGroq, ocrWithOpenRouter, ocr_with, as_string, reply_json. calls; auto.
Qed.

Lemma part000_2_no_math (ev : Event) (img : JsVal) (text : jsstring) (log : list Call) :
  httpMethod ev = POST → event_image (ev_body ev) = Some img → truthy img = true →
  ocr_stage E env up img [] = (Ret text, log) →
  has_math text = false →
  handler E env up ev = (no_math_response text, log)
  ∧ Forall (λ c, c = groq_ocr_call env img ∨ c = openrouter_ocr_call env img) log.
Proof.
  intros Hm Hi Ht Hocr Hmath. split.
  - unfold handler, pipeline, catching.
    rewrite bool_decide_true by done. cbn [negb].
    rewrite (read_event E _ _ _ _ Hi). unfold respond. rewrite Ht. cbn [negb].
    unfold mbind, M_bind. rewrite Hocr, Hmath, orb_true_r.
    by rewrite no_math_html_eq.
  - pose proof (part000_2_ocr_calls img [] (Forall_nil_2 _)) as H. by rewrite Hocr in H.
Qed.

Lemma part000_2_all_calls (ev : Event) (img : JsVal) :
  httpMethod ev = POST → event_image (ev_body ev) = Some img →
  Forall (λ c, (c = groq_ocr_call env img ∨ c = openrouter_ocr_call env img) ∨ ∃ t, c = explain_call env t (event_step (ev_body ev)))
         (handler E env up ev).2.
Proof.
  intros Hm Hi. unfold handler. apply calls_in_catching. unfold pipeline.
  rewrite bool_decide_true by done. cbn [negb].
  intros log Hlog. rewrite (read_event E _ _ _ _ Hi). revert log Hlog.
  change (calls_in (λ c, (c = groq_ocr_call env img ∨ c = openrouter_ocr_call env img) ∨
                         ∃ t, c = explain_call env t (event_step (ev_body ev)))
            (respond E env up img (event_step (ev_body ev)))).
  unfold respond, ocr_stage, ocrWithGroq, ocrWithOpenRouter, ocr_with, explainWithGroq, as_string, reply_json.
  calls; eauto.
Qed.
End Part000_2Calls.

Section Part000_3Calls.
Import Part000_3.
Context (E : Engine) (env : Env) (up : Upstream).

Lemma part000_3_ocr_calls (img : JsVal) :
  calls_in (λ c, c = openrouter_ocr_call env img ∨ c = groq_ocr_call env img) (ocr_stage E env up img).
Proof.
  unfold ocr_stage, runOCRWithOpenRouter, runOCRWithGroqVision, ocr_with, as_string, reply_json. calls; auto.
Qed.

Lemma part000_3_no_math (ev : Event) (img : JsVal) (text : jsstring) (log : list Call) :
  httpMethod ev = POST → event_image (ev_body ev) = Some img → truthy img = true →
  ocr_stage E env up img [] = (Ret text, log) →
  has_math text = false →
  handler E env up ev = (no_math_response text, log)
  ∧ Forall (λ c, c = openrouter_ocr_call env img ∨ c = groq_ocr_call env img) log.
Proof.
  intros Hm Hi Ht Hocr Hmath. split.
  - unfold handler, pipeline, catching.
    rewrite bool_decide_true by done. cbn [negb].
    rewrite (read_event E _ _ _ _ Hi). unfold respond. rewrite Ht. cbn [negb].
    unfold mbind, M_bind. rewrite Hocr, Hmath, orb_true_r.
    by rewrite no_math_html_eq.
  - pose proof (part000_3_ocr_calls img [] (Forall_nil_2 _)) as H. by rewrite Hocr in H.
Qed.

Lemma part000_3_all_calls (ev : Event) (img : JsVal) :
  httpMethod ev = POST → event_image (ev_body ev) = Some img →
  Forall (λ c, (c = openrouter_ocr_call env img ∨ c = groq_ocr_call env img) ∨ ∃ t, c = explain_call env t (event_step (ev_body ev)))
         (handler E env up ev).2.
Proof.
  intros Hm Hi. unfold handler. apply calls_in_catching. unfold pipeline.
  rewrite bool_decide_true by done. cbn [negb].
  intros log Hlog. rewrite (read_event E _ _ _ _ Hi). revert log Hlog.
  change (calls_in (λ c, (c = openrouter_ocr_call env img ∨ c = groq_ocr_call env img) ∨
                         ∃ t, c = explain_call env t (event_step (ev_body ev)))
            (respond E env up img (event_step (ev_body ev)))).
  unfold respond, ocr_stage, runOCRWithOpenRouter, runOCRWithGroqVision, ocr_with, runExplainWithGroq, as_string, reply_json.
  calls; eauto.
Qed.
End Part000_3Calls.

(** ** The early answer for a transcript without math *)

(** C4, as amended.  In the three handlers on Netlify events, when the
    OCR step returns a transcript that holds no digit and none of
    [= + - × * / ( )], the response is 200 with the transcript and the
    explanation "<p>The image does not contain any mathematical
    expressions or steps.</p>", and every upstream call of the run is an
    OCR call: the explanation model is not called.  The three other
    handlers have no such early answer. *)
Theorem no_math_early_answer (E : Engine) (env : Env) (up : Upstream)
    (ev : Event) (img : JsVal) (text : jsstring) (log : list Call) :
  httpMethod ev = POST → event_image (ev_body ev) = Some img → truthy img = true →
  has_math text = false →
  (NetlifyPipeline.runOCRWithOpenRouter E env up img [] = (Ret text, log) →
     NetlifyPipeline.handler E env up ev = (no_math_response text, log)
     ∧ Forall (λ c, c = NetlifyPipeline.ocr_call env img) log)
  ∧ (Part000_2.ocr_stage E env up img [] = (Ret text, log) →
     Part000_2.handler E env up ev = (no_math_response text, log)
     ∧ Forall (λ c, c = Part000_2.groq_ocr_call env img
                    ∨ c = Part000_2.openrouter_ocr_call env img) log)
  ∧ (Part000_3.ocr_stage E env up img [] = (Ret text, log) →
     Part000_3.handler E env up ev = (no_math_response text, log)
     ∧ Forall (λ c, c = Part000_3.openrouter_ocr_call env img
                    ∨ c = Part000_3.groq_ocr_call env img) log).
Proof.
  intros Hm Hi Ht Hmath. repeat split.
  - by eapply netlify_no_math.
  - by eapply netlify_no_math.
  - by eapply part000_2_no_math.
  - by eapply part000_2_no_math.
  - by eapply part000_3_no_math.
  - by eapply part000_3_no_math.
Qed.

Lemma no_math_early_answer_witness :
  has_math (u "a cat on a mat") = false
  ∧ NetlifyPipeline.handler basic_host both_keys
      (answering (reply_with 200 (JStr (u "a cat on a mat")))) (event_post (JStr tiny_image))
    = (no_math_response (u "a cat on a mat"),
       [NetlifyPipeline.ocr_call both_keys (JStr tiny_image)]).
Proof.
  split; [reflexivity|].
  apply (no_math_early_answer basic_host both_keys
           (answering (reply_with 200 (JStr (u "a cat on a mat"))))
           (event_post (JStr tiny_image)) (JStr tiny_image) (u "a cat on a mat")
           [NetlifyPipeline.ocr_call both_keys (JStr tiny_image)]);
    first [reflexivity | by vm_compute].
Defined.

(** C4, as stated, fails on api/pipeline.js: for the transcript "hello"
    the explanation model is called and its answer is returned. *)
Lemma api_explains_without_math :
  let run := ApiPipeline.handler basic_host both_keys
               (answering (reply_with 200 (JStr (u "hello")))) (express_post (JStr tiny_image)) in
  has_math (u "hello") = false
  ∧ field "text" run.1 = Some (FVal (JStr (u "hello")))
  ∧ field "explanation" run.1 = Some (FVal (JStr (u "hello")))
  ∧ run.2 = [ApiPipeline.ocr_call (JStr (u "or-key")) (JStr tiny_image);
             ApiPipeline.explain_call (JStr (u "groq-key")) (JStr (u "hello"))].
Proof. repeat split; by vm_compute. Qed.

(** ** The default of [stepByStep] *)

Lemma step_key_fresh : u "stepByStep" ≠ u "imageDataUrl".
Proof. by vm_compute. Qed.

Lemma destructure_default (E : Engine) (m : gmap jsstring JsVal) :
  m !! u "stepByStep" = None →
  destructure E (JObj (<[u "stepByStep" := JBool true]> m)) = destructure E (JObj m)
  ∧ event_step (Parsed (JObj m)) = JBool true.
Proof.
  intros Hm. unfold destructure, event_step, get_prop. cbn [nullish].
  rewrite lookup_insert_eq, (lookup_insert_ne _ _ _ _ step_key_fresh), Hm. done.
Qed.

(** ** The second OCR attempt *)

Lemma content_text_log (E : Engine) (r : Reply) (log : list Call) :
  Part000_1.content_text E r log = (transcript_of E r, log).
Proof.
  unfold transcript_of, Part000_1.content_text. unfold_effects.
  destruct (reply_json_or_undefined r) as [| | | | | |m]; try reflexivity.
  by destruct (nullish _).
Qed.

(** * Further properties

    What the helpers of the handlers do with a text, what [tryEvaluate]
    does beyond well-formed expressions, and how the handlers call the
    services and answer. *)

(** ** The text helpers *)
(** ** Trimming *)

Lemma drop_while_app_keep (p : N → bool) (l : jsstring) (c : N) :
  p c = false → drop_while p (l ++ [c]) = drop_while p l ++ [c].
Proof.
  intros Hc. induction l as [|x l IH]; simpl; [by rewrite Hc|].
  by destruct (p x).
Qed.

Lemma drop_while_head (p : N → bool) (s : jsstring) :
  drop_while p s = [] ∨ ∃ c r, drop_while p s = c :: r ∧ p c = false.
Proof.
  induction s as [|x s IH]; simpl; [by left|].
  destruct (p x) eqn:Hx; [done|]. right. by exists x, s.
Qed.

Lemma drop_while_stable (p : N → bool) (c : N) (r : jsstring) :
  p c = false → drop_while p (c :: r) = c :: r.
Proof. intros H. simpl. by rewrite H. Qed.

Lemma drop_while_nil (p : N → bool) (s : jsstring) :
  drop_while p s = [] ↔ Forall (λ c, p c = true) s.
Proof.
  induction s as [|x s IH]; simpl; [by split|].
  destruct (p x) eqn:Hx.
  - rewrite IH. split; [by constructor|]. by intros [_ ?]%Forall_cons.
  - split; [done|]. intros [? _]%Forall_cons. congruence.
Qed.

Lemma drop_while_suffix (p : N → bool) (s : jsstring) :
  ∃ pre, s = pre ++ drop_while p s ∧ Forall (λ c, p c = true) pre.
Proof.
  induction s as [|x s (pre & Hs & Hpre)]; simpl; [by exists []|].
  destruct (p x) eqn:Hx; [|by exists []].
  exists (x :: pre). split; [by rewrite Hs at 1|by constructor].
Qed.

Lemma trimEnd_head (c : N) (r : jsstring) :
  is_space c = false → ∃ r', trimEnd (c :: r) = c :: r'.
Proof.
  intros Hc. unfold trimEnd. simpl.
  rewrite drop_while_app_keep by done. rewrite rev_app_distr. by eexists.
Qed.

Lemma trimEnd_idem (s : jsstring) : trimEnd (trimEnd s) = trimEnd s.
Proof.
  unfold trimEnd. rewrite rev_involutive.
  destruct (drop_while_head is_space (rev s)) as [->|(x & l & -> & Hpx)]; [done|].
  by rewrite drop_while_stable.
Qed.

Lemma trim_idem (s : jsstring) : trim (trim s) = trim s.
Proof.
  unfold trim, trimStart.
  destruct (drop_while_head is_space s) as [->|(c & r & -> & Hc)]; [done|].
  destruct (trimEnd_head c r Hc) as [r' Hr]. rewrite Hr.
  rewrite drop_while_stable by done. by rewrite <- Hr, trimEnd_idem.
Qed.

Lemma trim_blank (s : jsstring) : trim s = [] ↔ blank s.
Proof.
  unfold trim, trimStart, trimEnd, blank. split.
  - intros H. apply (f_equal (@rev N)) in H. rewrite rev_involutive in H. simpl in H.
    apply drop_while_nil in H.
    destruct (drop_while_suffix is_space s) as (pre & Hs & Hpre).
    rewrite Hs. apply Forall_app. split; [done|].
    apply Forall_rev in H. by rewrite rev_involutive in H.
  - intros H. apply drop_while_nil in H. by rewrite H.
Qed.

Lemma trim_length (s : jsstring) : (length (trim s) ≤ length s)%nat.
Proof.
  unfold trim, trimStart, trimEnd.
  assert (Hdw : ∀ l, (length (drop_while is_space l) ≤ length l)%nat).
  { intros l. destruct (drop_while_suffix is_space l) as (pre & Hl & _).
    rewrite Hl at 2. rewrite length_app. lia. }
  rewrite length_rev. etrans; [apply Hdw|]. rewrite length_rev. apply Hdw.
Qed.

(** ** Cleaning the transcript *)

Lemma strip_star_runs_plain (s : jsstring) :
  Forall (λ c, c ≠ Ch.star) s → strip_star_runs 0 s = s.
Proof.
  induction 1 as [|c r Hc Hr IH]; [done|]. simpl.
  rewrite (proj2 (N.eqb_neq _ _) Hc). by rewrite IH.
Qed.

Lemma strip_fences_cons (c : N) (r : jsstring) (inside : bool) :
  c ≠ Ch.backtick → strip_fences inside (c :: r) = c :: strip_fences inside r.
Proof.
  intros Hc%N.eqb_neq. destruct r as [|c2 [|c3 r3]]; try done.
  change (strip_fences inside (c :: c2 :: c3 :: r3))
    with (if (c =? Ch.backtick)%N && (c2 =? Ch.backtick)%N && (c3 =? Ch.backtick)%N
          then if inside then strip_fences false r3
               else if includes r3 fence then strip_fences true r3
               else c :: c2 :: c3 :: r3
          else c :: strip_fences inside (c2 :: c3 :: r3)).
  by rewrite Hc.
Qed.

Lemma strip_fences_plain (s : jsstring) :
  Forall (λ c, c ≠ Ch.backtick) s → strip_fences false s = s.
Proof.
  induction 1 as [|c r Hc Hr IH]; [done|].
  by rewrite strip_fences_cons, IH.
Qed.

Lemma strip_images_plain (s : jsstring) :
  Forall (λ c, c ≠ 33%N) s → strip_images 0 s = s.
Proof.
  induction 1 as [|c r Hc Hr IH]; [done|]. simpl.
  rewrite (proj2 (N.eqb_neq _ _) Hc). by rewrite IH.
Qed.

Lemma strip_star_runs_length (s : jsstring) : ∀ run,
  (length (strip_star_runs run s) ≤ length s + match run with 1 => 1 | _ => 0 end)%nat.
Proof.
  induction s as [|c r IH]; intros run.
  - destruct run as [|[|?]]; simpl; lia.
  - cbn [strip_star_runs length]. destruct (c =? Ch.star)%N.
    + specialize (IH (S run)). destruct run as [|[|?]]; lia.
    + specialize (IH 0%nat). rewrite length_app. cbn [length].
      destruct run as [|[|?]]; cbn [length] in *; cbn iota beta in *; cbn [length] in *; lia.
Qed.

Lemma strip_fences_length (n : nat) : ∀ s inside,
  (length s < n)%nat → (length (strip_fences inside s) ≤ length s)%nat.
Proof.
  induction n as [|n IH]; intros s inside Hn; [lia|].
  destruct s as [|c1 [|c2 [|c3 r3]]]; try done.
  change (strip_fences inside (c1 :: c2 :: c3 :: r3))
    with (if (c1 =? Ch.backtick)%N && (c2 =? Ch.backtick)%N && (c3 =? Ch.backtick)%N
          then if inside then strip_fences false r3
               else if includes r3 fence then strip_fences true r3
               else c1 :: c2 :: c3 :: r3
          else c1 :: strip_fences inside (c2 :: c3 :: r3)).
  cbn [length] in Hn |- *.
  destruct ((c1 =? Ch.backtick)%N && (c2 =? Ch.backtick)%N && (c3 =? Ch.backtick)%N).
  - destruct inside.
    + specialize (IH r3 false). lia.
    + destruct (includes r3 fence); [|done]. specialize (IH r3 true). lia.
  - specialize (IH (c2 :: c3 :: r3) inside). cbn [length] in *. lia.
Qed.

Lemma strip_images_length (s : jsstring) : ∀ skip,
  (length (strip_images skip s) ≤ length s)%nat.
Proof.
  induction s as [|c r IH]; intros skip; simpl; [done|].
  destruct skip as [|k].
  - destruct (c =? 33)%N.
    + destruct (image_match r) as [n|]; simpl.
      * specialize (IH n). lia.
      * specialize (IH 0%nat). lia.
    + simpl. specialize (IH 0%nat). lia.
  - specialize (IH k). lia.
Qed.

Lemma plain_parts (s : jsstring) :
  plain s →
  Forall (λ c, c ≠ Ch.star) s ∧ Forall (λ c, c ≠ Ch.backtick) s ∧ Forall (λ c, c ≠ 33%N) s.
Proof.
  intros H. repeat split; (eapply Forall_impl; [exact H|]); by intros c (? & ? & ?).
Qed.

(** X1.  The three copies of [cleanOCR] return a text without white
    space at either end, never longer than their input; a text that holds
    no asterisk, backtick or exclamation mark is only trimmed. *)
Theorem cleanOCR_trims (s : jsstring) :
  (trim (NetlifyPipeline.cleanOCR s) = NetlifyPipeline.cleanOCR s
   ∧ trim (Part000_2.cleanOCR s) = Part000_2.cleanOCR s
   ∧ trim (Part000_3.cleanOCR s) = Part000_3.cleanOCR s)
  ∧ ((length (NetlifyPipeline.cleanOCR s) ≤ length s)%nat
     ∧ (length (Part000_2.cleanOCR s) ≤ length s)%nat
     ∧ (length (Part000_3.cleanOCR s) ≤ length s)%nat)
  ∧ (plain s →
     NetlifyPipeline.cleanOCR s = trim s
     ∧ Part000_2.cleanOCR s = trim s
     ∧ Part000_3.cleanOCR s = trim s).
Proof.
  unfold NetlifyPipeline.cleanOCR, Part000_2.cleanOCR, Part000_3.cleanOCR.
  split; [by rewrite !trim_idem|]. split.
  - pose proof (strip_star_runs_length s 0) as Hs.
    pose proof (strip_star_runs_length (strip_fences false s) 0) as Hs'.
    pose proof (strip_fences_length _ s false (Nat.lt_succ_diag_r _)) as Hf.
    pose proof (strip_fences_length _ (strip_star_runs 0 s) false (Nat.lt_succ_diag_r _)) as Hf'.
    pose proof (strip_images_length (strip_fences false (strip_star_runs 0 s)) 0) as Hi.
    pose proof (strip_images_length (strip_star_runs 0 (strip_fences false s)) 0) as Hi'.
    pose proof (trim_length (strip_images 0 (strip_fences false (strip_star_runs 0 s)))) as Ht.
    pose proof (trim_length (strip_images 0 (strip_star_runs 0 (strip_fences false s)))) as Ht'.
    cbn iota beta in Hs, Hs'. lia.
  - intros (Hstar & Htick & Hbang)%plain_parts.
    rewrite (strip_fences_plain s Htick), (strip_star_runs_plain s Hstar).
    by rewrite (strip_fences_plain s Htick), (strip_images_plain s Hbang).
Qed.

Lemma cleanOCR_trims_witness :
  plain (u "  2x + 3 = 7  ") ∧ NetlifyPipeline.cleanOCR (u "  2x + 3 = 7  ") = u "2x + 3 = 7".
Proof.
  assert (H : plain (u "  2x + 3 = 7  ")) by (repeat constructor; done).
  split; [exact H|].
  rewrite (proj1 (proj2 (proj2 (cleanOCR_trims (u "  2x + 3 = 7  "))) H)).
  reflexivity.
Defined.

(** ** Paragraphs *)

Lemma trim_fixed_ends (p : jsstring) :
  trim p = p → p ≠ [] →
  (∃ c r, p = c :: r ∧ is_space c = false) ∧ (∃ l d, p = l ++ [d] ∧ is_space d = false).
Proof.
  intros Hp Hne. unfold trim, trimStart in Hp.
  destruct (drop_while_head is_space p) as [He|(c & r & He & Hc)]; rewrite He in Hp.
  { by rewrite <- Hp in Hne. }
  split.
  - destruct (trimEnd_head c r Hc) as [r' Hr]. rewrite Hr in Hp. by exists c, r'.
  - unfold trimEnd in Hp.
    destruct (drop_while_head is_space (rev (c :: r))) as [Hd|(d & l & Hd & Hdd)];
      rewrite Hd in Hp.
    { by rewrite <- Hp in Hne. }
    exists (rev l), d. by rewrite <- Hp.
Qed.

Lemma is_space_lf (c : N) : is_space c = false → c ≠ Ch.lf.
Proof. by intros H ->. Qed.

Lemma split_blank_lines_run (l : jsstring) : ∀ piece nl d rest,
  d ≠ Ch.lf → no_blank_line (l ++ [d]) = true → (nl ≤ 1)%nat →
  (nl = 1%nat → starts_with Ch.lf (l ++ [d]) = false) →
  split_blank_lines piece nl ((l ++ [d]) ++ rest)
  = split_blank_lines (d :: rev l ++ repeat Ch.lf nl ++ piece) 0 rest.
Proof.
  induction l as [|c l IH]; intros piece nl d rest Hd Hnb Hnl Hst.
  - cbn [app split_blank_lines rev]. rewrite (proj2 (N.eqb_neq _ _) Hd).
    by destruct nl as [|[|?]]; [| |lia].
  - cbn [app split_blank_lines rev]. destruct (c =? Ch.lf)%N eqn:Hc.
    + apply N.eqb_eq in Hc as ->.
      destruct nl as [|nl]; [|cbn in Hst; by specialize (Hst ltac:(lia))].
      assert (Hnext : starts_with Ch.lf (l ++ [d]) = false ∧ no_blank_line (l ++ [d]) = true).
      { destruct l as [|x l]; cbn in Hnb |- *.
        - by rewrite (proj2 (N.eqb_neq _ _) Hd).
        - destruct (x =? Ch.lf)%N; [done|]. split; [done|]. exact Hnb. }
      destruct Hnext as [Hs Hn].
      rewrite (IH piece 1%nat d rest Hd Hn ltac:(lia) (λ _, Hs)).
      cbn [repeat app]. by rewrite <- !app_assoc.
    + assert (Hn : no_blank_line (l ++ [d]) = true).
      { destruct l as [|x l]; [done|]. cbn in Hnb |- *. rewrite Hc in Hnb. exact Hnb. }
      assert (Hfree : starts_with Ch.lf (l ++ [d]) = false ∨ True) by (by right).
      destruct nl as [|[|?]]; [| |lia].
      * rewrite (IH (c :: piece) 0%nat d rest Hd Hn ltac:(lia) ltac:(lia)).
        cbn [repeat app]. by rewrite <- !app_assoc.
      * rewrite (IH (c :: Ch.lf :: piece) 0%nat d rest Hd Hn ltac:(lia) ltac:(lia)).
        cbn [repeat app]. by rewrite <- !app_assoc.
Qed.

Lemma split_blank_lines_paragraph (p rest : jsstring) :
  paragraph p → split_blank_lines [] 0 (p ++ rest) = split_blank_lines (rev p) 0 rest.
Proof.
  intros (Hne & Htrim & Hnb).
  destruct (trim_fixed_ends p Htrim Hne) as [_ (l & d & -> & Hd)].
  rewrite (split_blank_lines_run l [] 0%nat d rest (is_space_lf d Hd) Hnb ltac:(lia) ltac:(lia)).
  cbn [repeat app]. by rewrite rev_app_distr, app_nil_r.
Qed.

Lemma join_paragraphs_head (p : jsstring) (ps : list jsstring) :
  paragraph p → ∃ c t, join_paragraphs (p :: ps) = c :: t ∧ c ≠ Ch.lf.
Proof.
  intros (Hne & Htrim & _).
  destruct (trim_fixed_ends p Htrim Hne) as [(c & r & -> & Hc) _].
  destruct ps as [|q ps]; cbn [join_paragraphs app]; eauto using is_space_lf.
Qed.

Lemma split_join_paragraphs (ps : list jsstring) :
  Forall paragraph ps → ps ≠ [] → split_blank_lines [] 0 (join_paragraphs ps) = ps.
Proof.
  induction 1 as [|p ps Hp Hps IH]; [done|]. intros _.
  destruct ps as [|q ps].
  - cbn [join_paragraphs]. rewrite <- (app_nil_r p) at 1.
    rewrite split_blank_lines_paragraph by done. cbn. by rewrite rev_involutive.
  - change (join_paragraphs (p :: q :: ps))
      with (p ++ Ch.lf :: Ch.lf :: join_paragraphs (q :: ps)).
    rewrite split_blank_lines_paragraph by done.
    specialize (IH ltac:(done)).
    destruct (join_paragraphs_head q ps) as (c & t & Hj & Hc); [by inversion Hps|].
    rewrite Hj in IH |- *. cbn [split_blank_lines] in IH |- *.
    rewrite (proj2 (N.eqb_neq _ _) Hc) in IH |- *. cbn.
    by rewrite rev_involutive, IH.
Qed.

Lemma paragraphs_kept (ps : list jsstring) :
  Forall paragraph ps →
  List.filter (λ p, negb (bool_decide (p = []))) (trim <$> ps) = ps.
Proof.
  induction 1 as [|p ps (Hne & Htrim & _) _ IH]; [done|].
  cbn [fmap list_fmap List.filter]. rewrite Htrim.
  rewrite bool_decide_false by done. cbn [negb]. f_equal. exact IH.
Qed.

(** X2.  [toHtmlParagraphs] (and [toFriendlyStepsHtml], the same body)
    turns paragraphs separated by one blank line into one [<p>] element
    each, in order, the elements separated by a newline and the newlines
    inside a paragraph replaced by [<br>]. *)
Theorem toHtmlParagraphs_paragraphs (ps : list jsstring) :
  Forall paragraph ps →
  toHtmlParagraphs (join_paragraphs ps) = join_lines (paragraph_html <$> ps)
  ∧ toFriendlyStepsHtml (join_paragraphs ps) = join_lines (paragraph_html <$> ps).
Proof.
  intros Hps. unfold toFriendlyStepsHtml, toHtmlParagraphs.
  destruct ps as [|p ps]; [done|].
  rewrite split_join_paragraphs by done. by rewrite paragraphs_kept.
Qed.

Lemma toHtmlParagraphs_paragraphs_witness :
  Forall paragraph [u "Step 1: add 2.
Step 2: divide."; u "Answer: 4"]
  ∧ toHtmlParagraphs (u "Step 1: add 2.
Step 2: divide.

Answer: 4")
    = u "<p>Step 1: add 2.<br>Step 2: divide.</p>
<p>Answer: 4</p>".
Proof.
  assert (H : Forall paragraph [u "Step 1: add 2.
Step 2: divide."; u "Answer: 4"]) by (repeat constructor; by vm_compute).
  split; [exact H|].
  exact (proj1 (toHtmlParagraphs_paragraphs _ H)).
Defined.

Lemma elem_of_rev_1 (c : N) (l : jsstring) : c ∈ rev l → c ∈ l.
Proof. rewrite !list_elem_of_In. apply in_rev. Qed.

Lemma elem_of_rev_2 (c : N) (l : jsstring) : c ∈ l → c ∈ rev l.
Proof. rewrite !list_elem_of_In. apply in_rev. Qed.

Ltac members :=
  repeat match goal with
  | H : _ ∈ rev _ |- _ => apply elem_of_rev_1 in H
  | H : _ ∈ _ :: _ |- _ => apply elem_of_cons in H
  | H : _ ∈ [] |- _ => by apply elem_of_nil in H
  | H : _ ∨ _ |- _ => destruct H
  | |- _ ∧ _ => split
  | |- _ ∈ rev _ => apply elem_of_rev_2
  end;
  subst; rewrite ?elem_of_cons; intuition congruence.

Lemma split_blank_lines_within (s : jsstring) : ∀ piece nl p c,
  p ∈ split_blank_lines piece nl s → c ∈ p → c ∈ piece ∨ c = Ch.lf ∨ c ∈ s.
Proof.
  induction s as [|x s IH]; intros piece nl p c Hp Hc.
  - cbn [split_blank_lines] in Hp. destruct nl as [|[|?]].
    + apply list_elem_of_singleton in Hp as ->. members.
    + apply list_elem_of_singleton in Hp as ->. members.
    + apply elem_of_cons in Hp as [->|Hp]; [members|].
      apply list_elem_of_singleton in Hp as ->. members.
  - cbn [split_blank_lines] in Hp. destruct (x =? Ch.lf)%N eqn:Hx.
    + specialize (IH _ _ _ _ Hp Hc). members.
    + destruct nl as [|[|?]].
      * specialize (IH _ _ _ _ Hp Hc). members.
      * specialize (IH _ _ _ _ Hp Hc). members.
      * apply elem_of_cons in Hp as [->|Hp]; [members|].
        specialize (IH _ _ _ _ Hp Hc). members.
Qed.

Lemma split_blank_lines_covers (s : jsstring) : ∀ piece nl c,
  c ≠ Ch.lf → c ∈ piece ∨ c ∈ s → ∃ p, p ∈ split_blank_lines piece nl s ∧ c ∈ p.
Proof.
  induction s as [|x s IH]; intros piece nl c Hc Hin.
  - destruct Hin as [Hin|Hin]; [|by apply elem_of_nil in Hin].
    cbn [split_blank_lines]. destruct nl as [|[|?]].
    + exists (rev piece). members.
    + exists (rev (Ch.lf :: piece)). members.
    + exists (rev piece). members.
  - cbn [split_blank_lines]. destruct (x =? Ch.lf)%N eqn:Hx.
    + apply N.eqb_eq in Hx as ->. apply IH; [done|]. members.
    + destruct nl as [|[|?]].
      * apply IH; [done|]. members.
      * apply IH; [done|]. members.
      * destruct Hin as [Hin|Hin].
        -- exists (rev piece). members.
        -- destruct (IH [x] 0%nat c Hc) as (p & Hp & Hcp); [members|].
           exists p. members.
Qed.

Lemma join_lines_nil (l : list jsstring) :
  Forall (λ x, x ≠ []) l → join_lines l = [] → l = [].
Proof.
  destruct 1 as [|x l Hx Hl]; [done|]. cbn [join_lines].
  destruct l; [done|]. by destruct x.
Qed.

Lemma blank_not_elem (s : jsstring) : blank s ↔ ∀ c, c ∈ s → is_space c = true.
Proof. apply Forall_forall. Qed.

(** X3.  [toHtmlParagraphs] returns the empty string exactly for a text
    of white space only (the empty text included): any other text gives
    at least one paragraph. *)
Theorem toHtmlParagraphs_empty (text : jsstring) :
  toHtmlParagraphs text = [] ↔ blank text.
Proof.
  unfold toHtmlParagraphs. split.
  - intros H. apply join_lines_nil in H.
    2:{ apply Forall_fmap, Forall_forall. by intros p _. }
    apply fmap_nil_inv in H. apply (proj2 (blank_not_elem text)). intros c Hc.
    destruct (is_space c) eqn:Hsp; [done|]. exfalso.
    destruct (split_blank_lines_covers text [] 0%nat c (is_space_lf c Hsp) (or_intror Hc))
      as (p & Hp & Hcp).
    assert (Hin : trim p ∈ List.filter (λ p, negb (bool_decide (p = [])))
                     (trim <$> split_blank_lines [] 0 text)).
    { apply list_elem_of_In, filter_In. split.
      - apply list_elem_of_In, list_elem_of_fmap. by exists p.
      - apply negb_true_iff, bool_decide_eq_false. intros Ht.
        pose proof (proj1 (blank_not_elem p) (proj1 (trim_blank p) Ht) c Hcp). congruence. }
    rewrite H in Hin. by apply elem_of_nil in Hin.
  - intros Hb.
    assert (Hall : Forall (λ p, p = []) (trim <$> split_blank_lines [] 0 text)).
    { apply Forall_fmap, Forall_forall. intros p Hp. cbn.
      apply (proj2 (trim_blank p)), (proj2 (blank_not_elem p)). intros c Hc. destruct (split_blank_lines_within _ _ _ _ _ Hp Hc) as [H|[->|H]].
      - by apply elem_of_nil in H.
      - done.
      - by apply (proj1 (blank_not_elem text) Hb). }
    induction Hall as [|x l -> Hl IH]; [done|]. cbn [List.filter].
    rewrite bool_decide_true by done. exact IH.
Qed.

(** ** Data URLs *)

Lemma split_on_sep (c : N) (l r : jsstring) :
  Forall (λ x, x ≠ c) l → split_on c (l ++ c :: r) = l :: split_on c r.
Proof.
  induction 1 as [|x l Hx Hl IH]; cbn [app split_on].
  - by rewrite N.eqb_refl.
  - by rewrite (proj2 (N.eqb_neq _ _) Hx), IH.
Qed.

Lemma split_on_free (c : N) (l : jsstring) :
  Forall (λ x, x ≠ c) l → split_on c l = [l].
Proof.
  induction 1 as [|x l Hx Hl IH]; cbn [split_on]; [done|].
  by rewrite (proj2 (N.eqb_neq _ _) Hx), IH.
Qed.

Lemma startsWith_app (p s : jsstring) : startsWith (p ++ s) p = true.
Proof.
  induction p as [|a p IH]; [by destruct s|].
  cbn [app startsWith]. unfold code_eqb. by rewrite N.eqb_refl, IH.
Qed.

Lemma meta_no_comma (mt params : jsstring) :
  Forall no_separator mt → Forall (λ c, c ≠ 44%N) params →
  Forall (λ x, x ≠ 44%N) (u "data:" ++ mt ++ 59%N :: params).
Proof.
  intros Hmt Hp. apply Forall_app. split; [by repeat constructor|].
  apply Forall_app. split; [|by constructor].
  eapply Forall_impl; [exact Hmt|]. by intros c [? _].
Qed.

Lemma meta_media_type (mt params : jsstring) :
  Forall no_separator mt →
  split_on 59 (u "data:" ++ mt ++ 59%N :: params) = (u "data:" ++ mt) :: split_on 59 params.
Proof.
  intros Hmt. rewrite app_assoc. apply split_on_sep.
  apply Forall_app. split; [by repeat constructor|].
  eapply Forall_impl; [exact Hmt|]. by intros c [_ ?].
Qed.

(** X4.  [dataUrlToParts] reads the media type and the payload of a data
    URL: the media type is the text between [data:] and the first
    semicolon, the payload the text between the first comma and the
    second, if there is one; without any comma the payload is
    [undefined] and the result is still an object. *)
Theorem dataUrlToParts_parts (mt params payload more : jsstring) :
  Forall no_separator mt → Forall (λ c, c ≠ 44%N) params → Forall (λ c, c ≠ 44%N) payload →
  NetlifyPipeline.dataUrlToParts (data_url mt params payload) = Some (mt, JStr payload)
  ∧ NetlifyPipeline.dataUrlToParts (data_url mt params (payload ++ 44%N :: more))
    = Some (mt, JStr payload)
  ∧ NetlifyPipeline.dataUrlToParts (u "data:" ++ mt ++ 59%N :: params) = Some (mt, JUndefined).
Proof.
  intros Hmt Hparams Hpayload.
  pose proof (meta_no_comma mt params Hmt Hparams) as Hmeta.
  pose proof (meta_media_type mt params Hmt) as Hmedia.
  unfold NetlifyPipeline.dataUrlToParts, data_url. repeat split.
  - rewrite startsWith_app. cbn [negb].
    replace (u "data:" ++ mt ++ 59%N :: params ++ 44%N :: payload)
      with ((u "data:" ++ mt ++ 59%N :: params) ++ 44%N :: payload)
      by (by rewrite <- !app_assoc).
    rewrite split_on_sep, (split_on_free _ payload) by done.
    cbn [head default from_option id]. by rewrite Hmedia.
  - rewrite startsWith_app. cbn [negb].
    replace (u "data:" ++ mt ++ 59%N :: params ++ 44%N :: payload ++ 44%N :: more)
      with ((u "data:" ++ mt ++ 59%N :: params) ++ 44%N :: payload ++ 44%N :: more)
      by (by rewrite <- !app_assoc).
    rewrite split_on_sep, (split_on_sep _ payload) by done.
    cbn [head default from_option id]. by rewrite Hmedia.
  - rewrite startsWith_app. cbn [negb].
    rewrite (split_on_free 44) by done. cbn [head default from_option id]. by rewrite Hmedia.
Qed.

Lemma dataUrlToParts_parts_witness :
  NetlifyPipeline.dataUrlToParts tiny_image = Some (u "image/png", JStr (u "iVBORw0KGgo=")).
Proof.
  refine (proj1 (dataUrlToParts_parts (u "image/png") (u "base64") (u "iVBORw0KGgo=") [] _ _ _));
    repeat constructor; by vm_compute.
Defined.

(** ** The final cleaning of part_001 *)

Lemma drop_while_app_all (p : N → bool) (qs s : jsstring) :
  Forall (λ c, p c = true) qs → drop_while p (qs ++ s) = drop_while p s.
Proof.
  induction 1 as [|q qs Hq _ IH]; [done|]. cbn [app drop_while]. by rewrite Hq.
Qed.

Lemma strip_quotes_quoted (qs s qs' : jsstring) :
  Forall (λ c, Part001.is_quote c = true) qs → Forall (λ c, Part001.is_quote c = true) qs' →
  unquoted s → Part001.strip_quotes (qs ++ s ++ qs') = s.
Proof.
  intros Hqs Hqs' [Hhead Hlast]. unfold Part001.strip_quotes.
  rewrite drop_while_app_all by done.
  destruct s as [|c r].
  - cbn [app]. by rewrite (proj2 (drop_while_nil _ qs') Hqs').
  - rewrite <- app_comm_cons, drop_while_stable by done.
    rewrite app_comm_cons, rev_app_distr.
    rewrite drop_while_app_all by (by apply Forall_rev).
    destruct (rev (c :: r)) as [|d l] eqn:Hrev.
    + by apply (f_equal (@rev N)) in Hrev; rewrite rev_involutive in Hrev.
    + rewrite drop_while_stable by done. by rewrite <- Hrev, rev_involutive.
Qed.

(** X5.  The final cleaning of [ocrWithQwen] removes the quotes around a
    reply and trims it; a one-line reply that starts with the preface
    "Understood!" is dropped altogether. *)
Theorem final_cleaning_quoted (qs s qs' : jsstring) :
  Forall (λ c, Part001.is_quote c = true) qs → Forall (λ c, Part001.is_quote c = true) qs' →
  unquoted s →
  (understood s = false → Part001.final_cleaning (qs ++ s ++ qs') = trim s)
  ∧ (understood s = true → Forall (λ c, is_line_terminator c = false) s →
     Part001.final_cleaning (qs ++ s ++ qs') = []).
Proof.
  intros Hqs Hqs' Hs. unfold Part001.final_cleaning.
  rewrite strip_quotes_quoted by done. unfold Part001.strip_understood, understood, trimStart.
  split.
  - by intros ->.
  - intros -> Hline. cbn [andb].
    assert (Hrest : forallb (λ c, negb (is_line_terminator c)) (drop 11 (drop_while is_space s)) = true).
    { destruct (drop_while_suffix is_space s) as (pre & Heq & _).
      rewrite Heq in Hline. apply Forall_app in Hline as [_ Hline].
      apply (Forall_drop _ 11) in Hline.
      induction Hline as [|c l Hc _ IH]; [done|]. cbn [forallb]. by rewrite Hc, IH. }
    by rewrite Hrest.
Qed.

Lemma final_cleaning_quoted_witness :
  Part001.final_cleaning (u "`` 2+2 ``") = u "2+2"
  ∧ Part001.final_cleaning (u "'Understood! Here is the text'") = [].
Proof.
  split.
  - refine (proj1 (final_cleaning_quoted (u "``") (u " 2+2 ") (u "``") _ _ _) _);
      first [by vm_compute | repeat constructor; by vm_compute].
  - refine (proj2 (final_cleaning_quoted (u "'") (u "Understood! Here is the text") (u "'") _ _ _) _ _);
      first [by vm_compute | repeat constructor; by vm_compute].
Defined.

(** ** Runs of asterisks *)

Lemma strip_star_runs_free (b : jsstring) (run : nat) :
  Forall (λ c, c ≠ Ch.star) b →
  strip_star_runs run b = match run with 1%nat => [Ch.star] | _ => [] end ++ b.
Proof.
  intros Hb. destruct Hb as [|c r Hc Hr].
  - cbn [strip_star_runs]. by rewrite app_nil_r.
  - cbn [strip_star_runs]. rewrite (proj2 (N.eqb_neq _ _) Hc).
    by rewrite (strip_star_runs_plain r Hr).
Qed.

Lemma strip_star_runs_stars (n : nat) : ∀ run b,
  strip_star_runs run (repeat Ch.star n ++ b) = strip_star_runs (n + run) b.
Proof.
  induction n as [|n IH]; intros run b; [done|].
  cbn [repeat app strip_star_runs]. rewrite N.eqb_refl, IH. f_equal. lia.
Qed.

Lemma strip_star_runs_prefix (a rest : jsstring) :
  Forall (λ c, c ≠ Ch.star) a → rest ≠ [] →
  strip_star_runs 0 (a ++ rest) = a ++ strip_star_runs 0 rest.
Proof.
  intros Ha Hrest. induction Ha as [|c r Hc Hr IH]; [done|].
  cbn [app strip_star_runs]. by rewrite (proj2 (N.eqb_neq _ _) Hc), IH.
Qed.

Lemma strip_star_runs_run (a b : jsstring) (n : nat) :
  Forall (λ c, c ≠ Ch.star) a → Forall (λ c, c ≠ Ch.star) b → n ≠ 0%nat →
  strip_star_runs 0 (a ++ repeat Ch.star n ++ b)
  = a ++ match n with 1%nat => [Ch.star] | _ => [] end ++ b.
Proof.
  intros Ha Hb Hn.
  rewrite strip_star_runs_prefix by (done || by destruct n).
  rewrite strip_star_runs_stars, strip_star_runs_free by done.
  by rewrite Nat.add_0_r.
Qed.

Lemma plain_app (a b : jsstring) : plain a → plain b → plain (a ++ b).
Proof. intros Ha Hb. apply Forall_app. by split. Qed.

(** X6.  The three copies of [cleanOCR] delete every run of two or more
    asterisks, the exponent operator [**] included, and keep an asterisk
    that stands alone. *)
Theorem cleanOCR_star_runs (a b : jsstring) (n : nat) :
  plain a → plain b →
  ((2 ≤ n)%nat →
   NetlifyPipeline.cleanOCR (a ++ repeat Ch.star n ++ b) = trim (a ++ b)
   ∧ Part000_2.cleanOCR (a ++ repeat Ch.star n ++ b) = trim (a ++ b)
   ∧ Part000_3.cleanOCR (a ++ repeat Ch.star n ++ b) = trim (a ++ b))
  ∧ NetlifyPipeline.cleanOCR (a ++ Ch.star :: b) = trim (a ++ Ch.star :: b)
  ∧ Part000_2.cleanOCR (a ++ Ch.star :: b) = trim (a ++ Ch.star :: b)
  ∧ Part000_3.cleanOCR (a ++ Ch.star :: b) = trim (a ++ Ch.star :: b).
Proof.
  intros Ha Hb.
  destruct (plain_parts a Ha) as (Ha1 & Ha2 & Ha3).
  destruct (plain_parts b Hb) as (Hb1 & Hb2 & Hb3).
  destruct (plain_parts _ (plain_app a b Ha Hb)) as (_ & Hab2 & Hab3).
  assert (Hticks : ∀ k, Forall (λ c, c ≠ Ch.backtick) (a ++ repeat Ch.star k ++ b)).
  { intros k. rewrite !Forall_app. repeat split; try done.
    induction k as [|k IH]; by constructor. }
  assert (Hbangs : Forall (λ c, c ≠ 33%N) (a ++ Ch.star :: b)).
  { rewrite Forall_app. split; [done|]. by constructor. }
  unfold NetlifyPipeline.cleanOCR, Part000_2.cleanOCR, Part000_3.cleanOCR. split.
  - intros Hn.
    rewrite (strip_fences_plain _ (Hticks n)).
    rewrite strip_star_runs_run by (done || lia).
    destruct n as [|[|n]]; [lia|lia|]. cbn [app].
    by rewrite (strip_fences_plain _ Hab2), (strip_images_plain _ Hab3).
  - change (a ++ Ch.star :: b) with (a ++ repeat Ch.star 1 ++ b).
    rewrite (strip_fences_plain _ (Hticks 1%nat)).
    rewrite strip_star_runs_run by done.
    change (a ++ [Ch.star] ++ b) with (a ++ repeat Ch.star 1 ++ b).
    rewrite (strip_fences_plain _ (Hticks 1%nat)).
    change (a ++ repeat Ch.star 1 ++ b) with (a ++ Ch.star :: b).
    by rewrite (strip_images_plain _ Hbangs).
Qed.

Lemma cleanOCR_star_runs_witness :
  NetlifyPipeline.cleanOCR (u "2**3") = u "23" ∧ NetlifyPipeline.cleanOCR (u "2*3") = u "2*3".
Proof.
  assert (H2 : plain (u "2")) by (repeat constructor; done).
  assert (H3 : plain (u "3")) by (repeat constructor; done).
  split.
  - exact (proj1 (proj1 (cleanOCR_star_runs (u "2") (u "3") 2 H2 H3) ltac:(lia))).
  - exact (proj1 (proj2 (cleanOCR_star_runs (u "2") (u "3") 2 H2 H3))).
Defined.

(** ** Fences and images *)

Lemma includes_fence (b c : jsstring) : includes (b ++ fence ++ c) fence = true.
Proof.
  induction b as [|x b IH].
  - cbn [app]. destruct (fence ++ c) eqn:H; [done|].
    cbn [includes]. rewrite <- H, (startsWith_app fence c). done.
  - cbn [app includes]. by rewrite IH, orb_true_r.
Qed.

Lemma strip_fences_prefix (a rest : jsstring) (inside : bool) :
  Forall (λ c, c ≠ Ch.backtick) a → strip_fences inside (a ++ rest) = a ++ strip_fences inside rest.
Proof.
  induction 1 as [|c a Hc _ IH]; [done|]. cbn [app]. by rewrite strip_fences_cons, IH.
Qed.

Lemma strip_fences_fenced (a b c : jsstring) :
  Forall (λ x, x ≠ Ch.backtick) a → Forall (λ x, x ≠ Ch.backtick) b →
  Forall (λ x, x ≠ Ch.backtick) c →
  strip_fences false (a ++ fenced b ++ c) = a ++ b ++ c.
Proof.
  intros Ha Hb Hc. unfold fenced. rewrite strip_fences_prefix by done.
  rewrite <- !app_assoc.
  change (strip_fences false (fence ++ b ++ fence ++ c))
    with (if includes (b ++ fence ++ c) fence then strip_fences true (b ++ fence ++ c)
          else fence ++ b ++ fence ++ c).
  rewrite includes_fence, strip_fences_prefix by done.
  change (strip_fences true (fence ++ c)) with (strip_fences false c).
  by rewrite strip_fences_plain.
Qed.

Lemma run_length_stop (p : N → bool) (l r : jsstring) (x : N) :
  Forall (λ c, p c = true) l → p x = false → run_length p (l ++ x :: r) = length l.
Proof.
  intros Hl Hx. induction Hl as [|c l Hc _ IH]; cbn [app run_length length].
  - by rewrite Hx.
  - by rewrite Hc, IH.
Qed.

Lemma image_match_markup (alt url rest : jsstring) :
  Forall (λ c, c ≠ 93%N) alt → Forall (λ c, c ≠ Ch.rparen) url → url ≠ [] →
  image_match (91%N :: alt ++ 93%N :: Ch.lparen :: url ++ Ch.rparen :: rest)
  = Some (length alt + length url + 4)%nat.
Proof.
  intros Halt Hurl Hne.
  assert (Halt' : Forall (λ c, negb (c =? 93)%N = true) alt).
  { eapply Forall_impl; [exact Halt|]. intros c Hc. by apply negb_true_iff, N.eqb_neq. }
  assert (Hurl' : Forall (λ c, negb (c =? Ch.rparen)%N = true) url).
  { eapply Forall_impl; [exact Hurl|]. intros c Hc. by apply negb_true_iff, N.eqb_neq. }
  unfold image_match. cbn [N.eqb Pos.eqb].
  rewrite (run_length_stop _ alt _ 93%N Halt' eq_refl), drop_app_length.
  rewrite (run_length_stop _ url _ Ch.rparen Hurl' eq_refl), drop_app_length.
  cbn [starts_with]. destruct url; [done|]. by rewrite !N.eqb_refl.
Qed.

Lemma strip_images_skip (l r : jsstring) :
  strip_images (length l) (l ++ r) = strip_images 0 r.
Proof.
  induction l as [|c l IH]; [done|]. cbn [length app strip_images]. exact IH.
Qed.

Lemma strip_images_prefix (a rest : jsstring) :
  Forall (λ c, c ≠ 33%N) a → strip_images 0 (a ++ rest) = a ++ strip_images 0 rest.
Proof.
  induction 1 as [|c a Hc _ IH]; [done|]. cbn [app strip_images].
  by rewrite (proj2 (N.eqb_neq _ _) Hc), IH.
Qed.

Lemma strip_images_bang (r : jsstring) :
  strip_images 0 (33%N :: r)
  = match image_match r with Some n => strip_images n r | None => 33%N :: strip_images 0 r end.
Proof. done. Qed.

Lemma strip_images_markup (a alt url c : jsstring) :
  Forall (λ x, x ≠ 33%N) a → Forall (λ x, x ≠ 33%N) c →
  Forall (λ x, x ≠ 93%N) alt → Forall (λ x, x ≠ Ch.rparen) url → url ≠ [] →
  strip_images 0 (a ++ image_markup alt url ++ c) = a ++ c.
Proof.
  intros Ha Hc Halt Hurl Hne. rewrite strip_images_prefix by done. f_equal.
  unfold image_markup. cbn [app]. rewrite <- app_assoc. cbn [app].
  rewrite <- app_assoc. cbn [app].
  rewrite strip_images_bang, image_match_markup by done.
  replace (91%N :: alt ++ 93%N :: Ch.lparen :: url ++ Ch.rparen :: c)
    with ((91%N :: alt ++ 93%N :: Ch.lparen :: url ++ [Ch.rparen]) ++ c)
    by (cbn [app]; rewrite <- app_assoc; cbn [app]; rewrite <- app_assoc; reflexivity).
  replace (length alt + length url + 4)%nat
    with (length (91%N :: alt ++ 93%N :: Ch.lparen :: url ++ [Ch.rparen]))
    by (cbn [length]; rewrite !length_app; cbn [length]; rewrite !length_app; cbn [length]; lia).
  rewrite strip_images_skip. by apply strip_images_plain.
Qed.

Lemma plain_fence_free (a b c : jsstring) :
  plain a → plain b → plain c → Forall (λ x, x ≠ Ch.star) (a ++ fenced b ++ c).
Proof.
  intros (Ha & _)%plain_parts (Hb & _)%plain_parts (Hc & _)%plain_parts.
  unfold fenced. rewrite !Forall_app. repeat split; try done; by repeat constructor.
Qed.

Lemma Forall_markup (P : N → Prop) (a alt url c : jsstring) :
  Forall P a → Forall P alt → Forall P url → Forall P c →
  P 33%N → P 91%N → P 93%N → P Ch.lparen → P Ch.rparen →
  Forall P (a ++ image_markup alt url ++ c).
Proof.
  intros. unfold image_markup. apply Forall_app; split; [done|].
  apply Forall_app; split; [|done].
  constructor; [done|]. constructor; [done|]. apply Forall_app; split; [done|].
  constructor; [done|]. constructor; [done|]. apply Forall_app; split; [done|]. by constructor.
Qed.

(** X7.  The three copies of [cleanOCR] replace a fenced block by its
    inside and delete the Markdown of an image. *)
Theorem cleanOCR_markup (a b c alt url : jsstring) :
  plain a → plain b → plain c → plain alt → plain url →
  Forall (λ x, x ≠ 93%N) alt → Forall (λ x, x ≠ Ch.rparen) url → url ≠ [] →
  (NetlifyPipeline.cleanOCR (a ++ fenced b ++ c) = trim (a ++ b ++ c)
   ∧ Part000_2.cleanOCR (a ++ fenced b ++ c) = trim (a ++ b ++ c)
   ∧ Part000_3.cleanOCR (a ++ fenced b ++ c) = trim (a ++ b ++ c))
  ∧ (NetlifyPipeline.cleanOCR (a ++ image_markup alt url ++ c) = trim (a ++ c)
     ∧ Part000_2.cleanOCR (a ++ image_markup alt url ++ c) = trim (a ++ c)
     ∧ Part000_3.cleanOCR (a ++ image_markup alt url ++ c) = trim (a ++ c)).
Proof.
  intros Ha Hb Hc Halt Hurl Hbr Hpar Hne.
  pose proof (plain_fence_free a b c Ha Hb Hc) as Hstars.
  destruct (plain_parts a Ha) as (Ha1 & Ha2 & Ha3).
  destruct (plain_parts b Hb) as (Hb1 & Hb2 & Hb3).
  destruct (plain_parts c Hc) as (Hc1 & Hc2 & Hc3).
  destruct (plain_parts alt Halt) as (Hl1 & Hl2 & Hl3).
  destruct (plain_parts url Hurl) as (Hu1 & Hu2 & Hu3).
  destruct (plain_parts _ (plain_app _ _ Ha (plain_app _ _ Hb Hc))) as (Habc1 & Habc2 & Habc3).
  assert (Hm1 : Forall (λ x, x ≠ Ch.star) (a ++ image_markup alt url ++ c)).
  { by apply Forall_markup. }
  assert (Hm2 : Forall (λ x, x ≠ Ch.backtick) (a ++ image_markup alt url ++ c)).
  { by apply Forall_markup. }
  unfold NetlifyPipeline.cleanOCR, Part000_2.cleanOCR, Part000_3.cleanOCR.
  split.
  - rewrite (strip_star_runs_plain _ Hstars), strip_fences_fenced by done.
    rewrite (strip_star_runs_plain _ Habc1), (strip_images_plain _ Habc3). done.
  - rewrite (strip_star_runs_plain _ Hm1), (strip_fences_plain _ Hm2).
    rewrite (strip_star_runs_plain _ Hm1).
    by rewrite strip_images_markup by done.
Qed.

Lemma cleanOCR_markup_witness :
  NetlifyPipeline.cleanOCR (u "Work: ```2+2=4``` done") = u "Work: 2+2=4 done"
  ∧ NetlifyPipeline.cleanOCR (u "See ![fig](http://x/y.png) 2+2") = u "See  2+2".
Proof.
  assert (Hp : ∀ s, forallb (λ c, negb ((c =? Ch.star) || (c =? Ch.backtick) || (c =? 33))%N) s = true →
                    plain s).
  { intros s Hs. apply Forall_forall. intros c Hc%list_elem_of_In.
    rewrite forallb_forall in Hs. specialize (Hs c Hc).
    apply negb_true_iff in Hs. apply orb_false_iff in Hs as [Hs H3]. apply orb_false_iff in Hs as [H1 H2].
    by repeat split; apply N.eqb_neq. }
  assert (Hn : ∀ (x : N) s, forallb (λ c, negb (c =? x)%N) s = true → Forall (λ c, c ≠ x) s).
  { intros x s Hs. apply Forall_forall. intros c Hc%list_elem_of_In.
    rewrite forallb_forall in Hs. specialize (Hs c Hc). by apply N.eqb_neq, negb_true_iff. }
  destruct (cleanOCR_markup (u "Work: ") (u "2+2=4") (u " done") (u "fig") (u "http://x/y.png"))
    as [[H1 _] _]; try (apply Hp; reflexivity); try (apply Hn; reflexivity); [done|].
  destruct (cleanOCR_markup (u "See ") (u "2+2=4") (u " 2+2") (u "fig") (u "http://x/y.png"))
    as [_ [H2 _]]; try (apply Hp; reflexivity); try (apply Hn; reflexivity); [done|].
  split; [exact H1|exact H2].
Defined.

(** ** Every answer of [toHtmlParagraphs] is a list of paragraphs *)

Lemma no_blank_line_cons (a : N) (s : jsstring) :
  no_blank_line (a :: s) = negb ((a =? Ch.lf)%N && starts_with Ch.lf s) && no_blank_line s.
Proof.
  destruct s as [|b s]; cbn [no_blank_line starts_with]; [|done].
  by rewrite andb_false_r.
Qed.

Lemma no_blank_line_snoc (s : jsstring) (x : N) :
  no_blank_line (s ++ [x]) = no_blank_line s && negb (starts_with Ch.lf (rev s) && (x =? Ch.lf)%N).
Proof.
  induction s as [|a s IH]; [done|].
  rewrite <- app_comm_cons, !no_blank_line_cons, IH.
  destruct s as [|b s]; cbn [app rev starts_with].
  - destruct (a =? Ch.lf)%N, (x =? Ch.lf)%N; done.
  - assert (Hrev : starts_with Ch.lf ((rev s ++ [b]) ++ [a]) = starts_with Ch.lf (rev s ++ [b])).
    { by destruct (rev s ++ [b]) eqn:H; [destruct (rev s)|]. }
    rewrite Hrev. by rewrite andb_assoc.
Qed.

Lemma starts_with_rev_rev (s : jsstring) (a : N) :
  starts_with Ch.lf (rev (rev s ++ [a])) = (a =? Ch.lf)%N.
Proof. by rewrite rev_app_distr. Qed.

Lemma no_blank_line_rev (s : jsstring) : no_blank_line (rev s) = no_blank_line s.
Proof.
  induction s as [|a s IH]; [done|].
  cbn [rev]. rewrite no_blank_line_snoc, no_blank_line_cons, IH, rev_involutive.
  by destruct (no_blank_line s), (starts_with Ch.lf s), (a =? Ch.lf)%N.
Qed.

Lemma no_blank_line_drop_while (p : N → bool) (s : jsstring) :
  no_blank_line s = true → no_blank_line (drop_while p s) = true.
Proof.
  induction s as [|a s IH]; [done|]. intros H. cbn [drop_while].
  destruct (p a); [|done]. apply IH. rewrite no_blank_line_cons in H.
  by apply andb_true_iff in H as [_ ?].
Qed.

Lemma no_blank_line_trim (s : jsstring) : no_blank_line s = true → no_blank_line (trim s) = true.
Proof.
  intros H. unfold trim, trimEnd, trimStart.
  rewrite no_blank_line_rev. apply no_blank_line_drop_while.
  rewrite no_blank_line_rev. by apply no_blank_line_drop_while.
Qed.

Lemma split_blank_lines_pieces (s : jsstring) : ∀ piece nl p,
  no_blank_line piece = true → starts_with Ch.lf piece = false →
  p ∈ split_blank_lines piece nl s → no_blank_line p = true.
Proof.
  induction s as [|c s IH]; intros piece nl p Hnb Hhead Hp.
  - cbn [split_blank_lines] in Hp. destruct nl as [|[|?]].
    + apply list_elem_of_singleton in Hp as ->. by rewrite no_blank_line_rev.
    + apply list_elem_of_singleton in Hp as ->.
      by rewrite no_blank_line_rev, no_blank_line_cons, Hhead, Hnb.
    + apply elem_of_cons in Hp as [->|Hp]; [by rewrite no_blank_line_rev|].
      by apply list_elem_of_singleton in Hp as ->.
  - cbn [split_blank_lines] in Hp. destruct (c =? Ch.lf)%N eqn:Hc; [by eapply IH|].
    destruct nl as [|[|?]].
    + eapply (IH (c :: piece)); [| |exact Hp].
      * by rewrite no_blank_line_cons, Hc, Hnb.
      * cbn [starts_with]. exact Hc.
    + eapply (IH (c :: Ch.lf :: piece)); [| |exact Hp].
      * by rewrite !no_blank_line_cons, Hc, Hhead, Hnb.
      * cbn [starts_with]. exact Hc.
    + apply elem_of_cons in Hp as [->|Hp]; [by rewrite no_blank_line_rev|].
      eapply (IH [c]); [done| |exact Hp]. cbn [starts_with]. exact Hc.
Qed.

(** X8.  Whatever the text, the answer of [toHtmlParagraphs] is the
    rendering of a list of paragraphs, each of them not empty, trimmed and
    without a blank line: one [<p>] element per paragraph. *)
Theorem toHtmlParagraphs_image (text : jsstring) :
  ∃ ps, Forall paragraph ps ∧ toHtmlParagraphs text = join_lines (paragraph_html <$> ps).
Proof.
  exists (List.filter (λ p, negb (bool_decide (p = []))) (trim <$> split_blank_lines [] 0 text)).
  split; [|done].
  apply Forall_forall. intros p Hp%list_elem_of_In%filter_In. destruct Hp as [Hp Hne].
  apply list_elem_of_In, list_elem_of_fmap in Hp as (q & -> & Hq).
  split; [by apply (proj1 (bool_decide_eq_false _)), negb_true_iff|].
  split; [apply trim_idem|].
  apply no_blank_line_trim. by apply (split_blank_lines_pieces text [] 0%nat q).
Qed.

(** ** More of [tryEvaluate]: what follows an expression *)
Section ArithMore.
Import Arith ArithSpec.
Context (E : Engine).

Lemma evaluate_after (e : expr) (rest : jsstring) :
  well_formed e → boundary (rest ++ [Ch.rparen]) →
  match scan (Ready true) (rest ++ [Ch.rparen]) with
  | None => evaluate E (render e ++ rest) = Throw
  | Some ts =>
    ∃ ps' v', reduce E 0 ps' v' = ([PParen], VNum (value_of e))
              ∧ evaluate E (render e ++ rest) = run E ts ps' (Have v')
  end.
Proof.
  intros Hwf Hb. unfold evaluate. rewrite <- app_assoc.
  change (scan (Ready false) (Ch.lparen :: render e ++ rest ++ [Ch.rparen]))
    with (emit TLParen (scan (Ready false) (render e ++ rest ++ [Ch.rparen]))).
  rewrite (scan_render e Hwf false _ Hb).
  destruct (scan (Ready true) (rest ++ [Ch.rparen])) as [ts|]; [|done].
  cbn [fmap option_fmap option_map emit].
  destruct (run_tokens E e Hwf 0%nat [PParen] ts) as (ps' & v' & Hrun & Hred);
    [lia|apply settled_paren|].
  exists ps', v'. split; [by rewrite (Hred 0%nat)|].
  cbn [run]. exact Hrun.
Qed.

Lemma tryEvaluate_throw (g : bool) (s : jsstring) :
  evaluate E (clean_of s) = Throw → tryEvaluate E g (JStr s) = JNull.
Proof.
  intros H. rewrite tryEvaluate_string. destruct (clean_of s); [done|]. by rewrite H.
Qed.

Lemma tryEvaluate_normal (g : bool) (s : jsstring) (f : spec_float) :
  clean_of s ≠ [] → evaluate E (clean_of s) = Normal (VNum f) →
  tryEvaluate E g (JStr s) = if isFinite f then JNum f else JNull.
Proof.
  intros Hne H. rewrite tryEvaluate_string. destruct (clean_of s); [done|]. rewrite H.
  cbn [result_of is_number Number_isFinite]. rewrite orb_true_r. by destruct (isFinite f).
Qed.

Lemma scan_line_comment (r : jsstring) : scan LineComment r = Some [].
Proof. by induction r. Qed.

Lemma scan_block_comment (t : jsstring) : ∀ o rest,
  Forall (λ c, c ≠ Ch.star) t →
  scan (BlockComment o false) (t ++ Ch.star :: Ch.slash :: rest) = scan (Ready o) rest.
Proof.
  induction t as [|c t IH]; intros o rest Ht; [done|].
  apply Forall_cons in Ht as [Hc Ht]. cbn [app scan andb].
  rewrite (proj2 (N.eqb_neq _ _) Hc). by apply IH.
Qed.

Lemma scan_block_comment_open (t : jsstring) : ∀ o,
  Forall (λ c, c ≠ Ch.star) t → scan (BlockComment o false) t = None.
Proof.
  induction t as [|c t IH]; intros o Ht; [done|].
  apply Forall_cons in Ht as [Hc Ht]. cbn [scan andb].
  rewrite (proj2 (N.eqb_neq _ _) Hc). by apply IH.
Qed.

Lemma boundary_slash (r : jsstring) : boundary (Ch.slash :: r).
Proof. done. Qed.

(** X9.  Comments.  After an expression, [/*] ... [*/] is skipped and
    the value of the expression is returned; [//] hides the closing
    parenthesis of the generated [return( ... )] and an unclosed [/*]
    runs over it: both give [null]. *)
Theorem tryEvaluate_comments (g : bool) (e : expr) (t s : jsstring) :
  well_formed e →
  (Forall (λ c, c ≠ Ch.star) t →
   clean_of s = render e ++ Ch.slash :: Ch.star :: t ++ [Ch.star; Ch.slash] →
   tryEvaluate E g (JStr s) = if isFinite (value_of e) then JNum (value_of e) else JNull)
  ∧ (clean_of s = render e ++ Ch.slash :: Ch.slash :: t → tryEvaluate E g (JStr s) = JNull)
  ∧ (Forall (λ c, c ≠ Ch.star) t →
     clean_of s = render e ++ Ch.slash :: Ch.star :: t → tryEvaluate E g (JStr s) = JNull).
Proof.
  intros Hwf. repeat split.
  - intros Ht Hs.
    pose proof (evaluate_after e (Ch.slash :: Ch.star :: t ++ [Ch.star; Ch.slash]) Hwf (boundary_slash _)) as H.
    cbn [app] in H.
    change (scan (Ready true) (Ch.slash :: Ch.star :: (t ++ [Ch.star; Ch.slash]) ++ [Ch.rparen]))
      with (scan (BlockComment true false) ((t ++ [Ch.star; Ch.slash]) ++ [Ch.rparen])) in H.
    rewrite <- (app_assoc t) in H. cbn [app] in H.
    rewrite scan_block_comment in H by done.
    change (scan (Ready true) [Ch.rparen]) with (Some [TRParen]) in H.
    destruct H as (ps' & v' & Hred & Hev).
    apply tryEvaluate_normal.
    + rewrite Hs. intros Hnil. apply app_eq_nil in Hnil as [_ ?]. done.
    + rewrite Hs, Hev. cbn [run]. by rewrite Hred.
  - intros Hs. apply tryEvaluate_throw. rewrite Hs.
    pose proof (evaluate_after e (Ch.slash :: Ch.slash :: t) Hwf (boundary_slash _)) as H.
    cbn [app] in H.
    change (scan (Ready true) (Ch.slash :: Ch.slash :: t ++ [Ch.rparen]))
      with (scan LineComment (t ++ [Ch.rparen])) in H.
    rewrite scan_line_comment in H. destruct H as (ps' & v' & Hred & Hev).
    rewrite Hev. cbn [run]. by rewrite Hred.
  - intros Ht Hs. apply tryEvaluate_throw. rewrite Hs.
    pose proof (evaluate_after e (Ch.slash :: Ch.star :: t) Hwf (boundary_slash _)) as H.
    cbn [app] in H.
    change (scan (Ready true) (Ch.slash :: Ch.star :: t ++ [Ch.rparen]))
      with (scan (BlockComment true false) (t ++ [Ch.rparen])) in H.
    rewrite scan_block_comment_open in H; [done|].
    apply Forall_app. split; [done|]. by repeat constructor.
Qed.

Lemma scan_call (r : jsstring) :
  scan (Ready true) (Ch.lparen :: r) = emit TLParen (scan (Ready false) r).
Proof. done. Qed.

(** X10.  No implied multiplication: an opening parenthesis directly
    after an expression is a call of a number, and whatever follows,
    the result is [null]. *)
Theorem tryEvaluate_implied_product (g : bool) (e : expr) (t s : jsstring) :
  well_formed e → clean_of s = render e ++ Ch.lparen :: t →
  tryEvaluate E g (JStr s) = JNull.
Proof.
  intros Hwf Hs. apply tryEvaluate_throw. rewrite Hs.
  assert (Hb : boundary ((Ch.lparen :: t) ++ [Ch.rparen])) by done.
  pose proof (evaluate_after e _ Hwf Hb) as H.
  cbn [app] in H. rewrite scan_call in H.
  destruct (scan (Ready false) (t ++ [Ch.rparen])) as [ts|]; [|done].
  by destruct H as (ps' & v' & _ & ->).
Qed.

(** X11.  Two signs in a row after an expression are read as one
    increment or decrement, which has nothing to assign to: the result
    is [null]. *)
Theorem tryEvaluate_doubled_sign (g : bool) (e : expr) (c : N) (t s : jsstring) :
  well_formed e → c = Ch.plus ∨ c = Ch.minus →
  clean_of s = render e ++ c :: c :: t →
  tryEvaluate E g (JStr s) = JNull.
Proof.
  intros Hwf Hc Hs. apply tryEvaluate_throw. rewrite Hs.
  assert (Hb : boundary ((c :: c :: t) ++ [Ch.rparen])) by (by destruct Hc as [-> | ->]).
  pose proof (evaluate_after e _ Hwf Hb) as H.
  by destruct Hc as [-> | ->].
Qed.

(** X12.  An unbalanced parenthesis gives [null]: one too many at the
    end, or one never closed at the start. *)
Theorem tryEvaluate_unbalanced (g : bool) (e : expr) (s : jsstring) :
  well_formed e →
  (clean_of s = render e ++ [Ch.rparen] → tryEvaluate E g (JStr s) = JNull)
  ∧ (clean_of s = Ch.lparen :: render e → tryEvaluate E g (JStr s) = JNull).
Proof.
  intros Hwf. split; intros Hs; apply tryEvaluate_throw; rewrite Hs.
  - pose proof (evaluate_after e [Ch.rparen] Hwf (boundary_rparen _)) as H.
    change (scan (Ready true) ([Ch.rparen] ++ [Ch.rparen])) with (Some [TRParen; TRParen]) in H.
    destruct H as (ps' & v' & Hred & ->). cbn [run]. by rewrite Hred.
  - unfold evaluate.
    change (scan (Ready false) (Ch.lparen :: (Ch.lparen :: render e) ++ [Ch.rparen]))
      with (emit TLParen (scan (Ready false) (render (Paren e)))).
    rewrite <- (app_nil_r (render (Paren e))).
    rewrite (scan_render (Paren e) Hwf false [] (conj eq_refl eq_refl)).
    change (scan (Ready true) []) with (Some (@nil token)).
    cbn [fmap option_fmap option_map emit].
    destruct (run_tokens E (Paren e) Hwf 0%nat [PParen] []) as (ps' & v' & Hrun & Hred);
      [lia|apply settled_paren|].
    cbn [run]. rewrite Hrun. cbn [run]. by rewrite (Hred 0%nat).
Qed.

End ArithMore.

Section ArithEdge.
Import Arith ArithSpec.
Context (E : Engine).

Lemma SFdiv_zero (x : spec_float) (sg : bool) :
  isFinite (SFdiv prec emax x (S754_zero sg)) = false.
Proof. by destruct x. Qed.

(** X13.  Division by zero is answered [null]: the quotient is an
    infinity or NaN, never a finite number. *)
Theorem tryEvaluate_division_by_zero (g : bool) (a b : expr) (sg : bool) (s : jsstring) :
  well_formed (Bin Divide a b) → value_of b = S754_zero sg →
  clean_of s = render (Bin Divide a b) →
  tryEvaluate E g (JStr s) = JNull.
Proof.
  intros Hwf Hb Hs.
  rewrite (tryEvaluate_normal E g s (value_of (Bin Divide a b))).
  - cbn [value_of op_apply]. by rewrite Hb, SFdiv_zero.
  - rewrite Hs. by apply render_not_empty.
  - rewrite Hs. by apply evaluate_render.
Qed.

Lemma scan_legacy_zero (o : bool) (ds rest : jsstring) :
  Forall (λ c, is_digit c = true) ds → legacy_zero ds = true → boundary rest →
  scan (Ready o) (ds ++ rest) = None.
Proof.
  intros Hds Hz [Hd Hdot]. destruct Hds as [|c ds' Hc Hds']; [done|].
  rewrite <- app_comm_cons, scan_ready_digit by done.
  rewrite after_int_digits by done. cbn [app]. unfold after_int, emit_number.
  by rewrite Hd, Hdot, Hz.
Qed.

(** X14.  A number written with a leading zero, such as 007, is a
    legacy octal literal, which strict code rejects: the result is [null],
    at the start of the text and after an operator alike. *)
Theorem tryEvaluate_leading_zero (g : bool) (ds rest s : jsstring) :
  Forall (λ c, is_digit c = true) ds → legacy_zero ds = true →
  boundary (rest ++ [Ch.rparen]) →
  (clean_of s = ds ++ rest → tryEvaluate E g (JStr s) = JNull)
  ∧ (∀ e op, well_formed e → clean_of s = render e ++ op_char op :: ds ++ rest →
     tryEvaluate E g (JStr s) = JNull).
Proof.
  intros Hds Hz Hb. split.
  - intros Hs. apply tryEvaluate_throw. rewrite Hs. unfold evaluate.
    rewrite <- app_assoc.
    change (scan (Ready false) (Ch.lparen :: ds ++ rest ++ [Ch.rparen]))
      with (emit TLParen (scan (Ready false) (ds ++ rest ++ [Ch.rparen]))).
    by rewrite scan_legacy_zero.
  - intros e op Hwf Hs. apply tryEvaluate_throw. rewrite Hs.
    pose proof (evaluate_after E e (op_char op :: ds ++ rest) Hwf (boundary_operator op _)) as H.
    rewrite <- app_comm_cons, <- app_assoc in H.
    rewrite scan_operator in H.
    + by rewrite scan_legacy_zero in H.
    + destruct Hds as [|c ds' Hc _]; [done|]. exists c, (ds' ++ rest ++ [Ch.rparen]). auto.
Qed.

(** X15.  The guard [typeof val === "number"] of two copies changes
    nothing: the copy that tests [Number.isFinite] alone returns the same
    on every argument; and every argument that is not a string, for which
    [replace] is no function or the empty string is substituted, gives
    [null]. *)
Theorem tryEvaluate_guards_agree (v : JsVal) :
  ApiPipeline.tryEvaluate E v = Part000_1.tryEvaluate E v
  ∧ Part001.tryEvaluate E v = Part000_1.tryEvaluate E v
  ∧ ((∀ s, v ≠ JStr s) → Part000_1.tryEvaluate E v = JNull).
Proof.
  unfold ApiPipeline.tryEvaluate, Part001.tryEvaluate, Part000_1.tryEvaluate, tryEvaluate.
  assert (H : ∀ c, result_of true c = result_of false c).
  { intros [|[f|]]; [done| |done]. cbn. by destruct (isFinite f). }
  repeat split.
  - destruct (js_or v (JStr [])); try done. destruct (clean_of s); [done|apply H].
  - destruct (js_or v (JStr [])); try done. destruct (clean_of s); [done|apply H].
  - intros Hv. unfold js_or. destruct (truthy v) eqn:Ht; [|done].
    destruct v; try done. by destruct (Hv s).
Qed.

End ArithEdge.

Lemma digit_literal_ok (c : N) : is_digit c = true → ArithSpec.literal_ok [c] [].
Proof. intros Hc. repeat split; [done|by repeat constructor|constructor]. Qed.

Lemma tryEvaluate_comments_witness :
  Arith.tryEvaluate basic_host true (JStr (u "7 /* or 2 */")) = JNum (Arith.decimal (u "7") [])
  ∧ Arith.tryEvaluate basic_host true (JStr (u "7 // or 2")) = JNull.
Proof.
  pose proof (digit_literal_ok 55 eq_refl) as Hwf.
  split.
  - refine (proj1 (tryEvaluate_comments basic_host true (ArithSpec.Lit (u "7") []) (u "2")
                     (u "7 /* or 2 */") Hwf) _ _); [|reflexivity].
    repeat constructor; done.
  - exact (proj1 (proj2 (tryEvaluate_comments basic_host true (ArithSpec.Lit (u "7") []) (u "2")
                           (u "7 // or 2") Hwf)) eq_refl).
Defined.

Lemma tryEvaluate_implied_product_witness :
  Arith.tryEvaluate basic_host true (JStr (u "2(3+4)")) = JNull.
Proof.
  exact (tryEvaluate_implied_product basic_host true (ArithSpec.Lit (u "2") []) (u "3+4)")
           (u "2(3+4)") (digit_literal_ok 50 eq_refl) eq_refl).
Defined.

Lemma tryEvaluate_doubled_sign_witness :
  Arith.tryEvaluate basic_host true (JStr (u "5 + +2")) = JNull.
Proof.
  exact (tryEvaluate_doubled_sign basic_host true (ArithSpec.Lit (u "5") []) Ch.plus (u "2")
           (u "5 + +2") (digit_literal_ok 53 eq_refl) (or_introl eq_refl) eq_refl).
Defined.

Lemma tryEvaluate_unbalanced_witness :
  Arith.tryEvaluate basic_host true (JStr (u "4)")) = JNull
  ∧ Arith.tryEvaluate basic_host true (JStr (u "(4")) = JNull.
Proof.
  split.
  - exact (proj1 (tryEvaluate_unbalanced basic_host true (ArithSpec.Lit (u "4") []) (u "4)")
                    (digit_literal_ok 52 eq_refl)) eq_refl).
  - exact (proj2 (tryEvaluate_unbalanced basic_host true (ArithSpec.Lit (u "4") []) (u "(4")
                    (digit_literal_ok 52 eq_refl)) eq_refl).
Defined.

Lemma one_over_zero_well_formed :
  ArithSpec.well_formed
    (ArithSpec.Bin ArithSpec.Divide (ArithSpec.Lit (u "1") []) (ArithSpec.Lit (u "0") [])).
Proof.
  cbn [ArithSpec.well_formed ArithSpec.binding ArithSpec.op_level].
  repeat split; try done; try lia; by repeat constructor.
Qed.

Lemma tryEvaluate_division_by_zero_witness :
  Arith.tryEvaluate basic_host true (JStr (u "1 / 0 =")) = JNull.
Proof.
  exact (tryEvaluate_division_by_zero basic_host true (ArithSpec.Lit (u "1") [])
           (ArithSpec.Lit (u "0") []) false (u "1 / 0 =") one_over_zero_well_formed
           eq_refl eq_refl).
Defined.

Lemma tryEvaluate_leading_zero_witness :
  Arith.tryEvaluate basic_host true (JStr (u "007")) = JNull
  ∧ Arith.tryEvaluate basic_host true (JStr (u "1 + 007")) = JNull.
Proof.
  assert (Hds : Forall (λ c, is_digit c = true) (u "007")) by (by repeat constructor).
  pose proof (tryEvaluate_leading_zero basic_host true (u "007") [] (u "007") Hds eq_refl
                (conj eq_refl eq_refl)) as [H _].
  pose proof (tryEvaluate_leading_zero basic_host true (u "007") [] (u "1 + 007") Hds eq_refl
                (conj eq_refl eq_refl)) as [_ H'].
  split; [exact (H eq_refl)|].
  exact (H' (ArithSpec.Lit (u "1") []) ArithSpec.Plus (digit_literal_ok 49 eq_refl) eq_refl).
Defined.

Lemma tryEvaluate_guards_agree_witness :
  Part000_1.tryEvaluate basic_host (JArr [JStr (u "1+1")]) = JNull.
Proof.
  refine (proj2 (proj2 (tryEvaluate_guards_agree basic_host (JArr [JStr (u "1+1")]))) _).
  intros s. discriminate.
Defined.

Section LeadingSign.
Import Arith ArithSpec.
Context (E : Engine).

Lemma scan_plus_sign (r : jsstring) :
  opens r → scan (Ready false) (Ch.plus :: r) = emit TPlus (scan (Ready false) r).
Proof.
  intros (c & tail & -> & Hc).
  destruct (opens_not_operator c Hc) as (Hp & Hm & Hs & Hd).
  simpl. by rewrite Hp.
Qed.

Lemma settled_atom (ps : list pending) : settled E 3 ps.
Proof. intros l v ??. lia. Qed.

Lemma evaluate_plus_sign (e : expr) :
  well_formed e → binding e = 3%nat →
  evaluate E (Ch.plus :: render e) = Normal (VNum (value_of e)).
Proof.
  intros Hwf Hb. unfold evaluate.
  change (scan (Ready false) (Ch.lparen :: (Ch.plus :: render e) ++ [Ch.rparen]))
    with (emit TLParen (scan (Ready false) (Ch.plus :: render e ++ [Ch.rparen]))).
  rewrite scan_plus_sign by (by apply render_opens).
  rewrite (scan_render e Hwf false _ (boundary_rparen [])).
  change (scan (Ready true) [Ch.rparen]) with (Some [TRParen]).
  cbn [fmap option_fmap option_map emit run].
  destruct (run_tokens E e Hwf 3%nat [PUnary false; PParen] [TRParen])
    as (ps' & v' & Hrun & Hred); [lia|apply settled_atom|].
  rewrite Hrun. cbn [run]. rewrite (Hred 0%nat) by lia. done.
Qed.

Lemma evaluate_minus_sign (e : expr) :
  well_formed e → binding e = 3%nat →
  evaluate E (Ch.minus :: render e) = Normal (VNum (SFopp (value_of e))).
Proof.
  intros Hwf Hb. unfold evaluate.
  change (Ch.lparen :: (Ch.minus :: render e) ++ [Ch.rparen]) with (render (Neg e)).
  rewrite <- (app_nil_r (render (Neg e))).
  rewrite (scan_render (Neg e) (conj Hwf Hb) false [] (conj eq_refl eq_refl)).
  change (scan (Ready true) []) with (Some (@nil token)).
  cbn [fmap option_fmap option_map].
  destruct (run_tokens E (Neg e) (conj Hwf Hb) 0%nat [] []) as (ps' & v' & Hrun & Hred);
    [lia|apply settled_nil|].
  rewrite Hrun. cbn [run]. by rewrite (Hred 0%nat) by lia.
Qed.

Lemma isFinite_opp (f : spec_float) : isFinite (SFopp f) = isFinite f.
Proof. by destruct f. Qed.

(** X16.  A sign before a number or a parenthesised expression is
    accepted without the parentheses the explanations write around it: a
    leading [-] gives the negated value, a leading [+] the value. *)
Theorem tryEvaluate_leading_sign (g : bool) (e : expr) (s : jsstring) :
  well_formed e → binding e = 3%nat →
  (clean_of s = Ch.minus :: render e →
   tryEvaluate E g (JStr s)
   = if isFinite (value_of e) then JNum (SFopp (value_of e)) else JNull)
  ∧ (clean_of s = Ch.plus :: render e →
     tryEvaluate E g (JStr s) = if isFinite (value_of e) then JNum (value_of e) else JNull).
Proof.
  intros Hwf Hb. split; intros Hs.
  - rewrite (tryEvaluate_normal E g s (SFopp (value_of e))).
    + by rewrite isFinite_opp.
    + by rewrite Hs.
    + rewrite Hs. by apply evaluate_minus_sign.
  - rewrite (tryEvaluate_normal E g s (value_of e)); [done|by rewrite Hs|].
    rewrite Hs. by apply evaluate_plus_sign.
Qed.

End LeadingSign.

Lemma tryEvaluate_leading_sign_witness :
  Arith.tryEvaluate basic_host true (JStr (u "x = -4")) = JNum (SFopp (Arith.decimal (u "4") []))
  ∧ Arith.tryEvaluate basic_host true (JStr (u "+4")) = JNum (Arith.decimal (u "4") []).
Proof.
  pose proof (digit_literal_ok 52 eq_refl) as Hwf.
  split.
  - exact (proj1 (tryEvaluate_leading_sign basic_host true (ArithSpec.Lit (u "4") []) (u "x = -4")
                    Hwf eq_refl) eq_refl).
  - exact (proj2 (tryEvaluate_leading_sign basic_host true (ArithSpec.Lit (u "4") []) (u "+4")
                    Hwf eq_refl) eq_refl).
Defined.

(** ** Runs: the rules *)

Lemma wp_ret {A} (a : A) (log : list Call) Q R : Q a log → wp (mret a) log Q R.
Proof. done. Qed.

Lemma wp_throw {A} (e : Exn) (log : list Call) (Q : A → list Call → Prop) R :
  R e log → wp (throw e) log Q R.
Proof. done. Qed.

Lemma wp_fault {A} (E : Engine) (f : Fault) (log : list Call) (Q : A → list Call → Prop) R :
  R {| message := [Lit (fault_message E f)] |} log → wp (fault E f) log Q R.
Proof. done. Qed.

Lemma wp_bind {A B} (m : M A) (f : A → M B) (log : list Call) Q R :
  wp m log (λ a log', wp (f a) log' Q R) R → wp (m ≫= f) log Q R.
Proof.
  unfold wp, mbind, M_bind. by destruct (m log) as [[a|e] log'].
Qed.

Lemma wp_fetch (up : Upstream) (c : Call) (log : list Call) Q R :
  (∀ r, up (length log) c = Resolved r → Q r (log ++ [c])) →
  (∀ e, up (length log) c = Rejected e → R e (log ++ [c])) →
  wp (fetch up c) log Q R.
Proof.
  intros HQ HR. unfold wp, fetch. destruct (up (length log) c) as [e|r]; auto.
Qed.

Lemma wp_try_catch {A} (m : M A) (h : Exn → M A) (log : list Call) Q R :
  wp m log Q (λ e log', wp (h e) log' Q R) → wp (try_catch m h) log Q R.
Proof.
  unfold wp, try_catch. by destruct (m log) as [[a|e] log'].
Qed.

Lemma wp_catching (m : M Response) (h : Exn → Response) (P : Response * list Call → Prop) :
  wp m [] (λ r log, P (r, log)) (λ e log, P (h e, log)) → P (catching m h).
Proof.
  unfold wp, catching. by destruct (m []) as [[r|e] log].
Qed.

Lemma wp_mono {A} (m : M A) (log : list Call) (Q Q' : A → list Call → Prop) R R' :
  wp m log Q R → (∀ a l, Q a l → Q' a l) → (∀ e l, R e l → R' e l) → wp m log Q' R'.
Proof.
  unfold wp. destruct (m log) as [[a|e] log']; auto.
Qed.

Ltac wp_step :=
  lazymatch goal with
  | |- wp (mret _) _ _ _ => apply wp_ret
  | |- wp (throw _) _ _ _ => apply wp_throw
  | |- wp (fault _ _) _ _ _ => apply wp_fault
  | |- wp (mbind _ _) _ _ _ => apply wp_bind
  | |- wp (fetch _ _) _ _ _ => apply wp_fetch; intros
  | |- wp (try_catch _ _) _ _ _ => apply wp_try_catch
  | |- wp (if ?b then _ else _) _ _ _ => destruct b eqn:?
  | |- wp (match ?x with _ => _ end) _ _ _ => destruct x eqn:?
  | |- wp (let _ := _ in _) _ _ _ => progress cbv zeta
  | |- _ => progress cbv beta
  end.

Ltac wp_run := repeat wp_step.

(** ** The plan of the calls *)

Lemma call_plan_none (ocr : list Call) (is_explain : Call → Prop) :
  call_plan ocr is_explain [].
Proof. exists [], []. split; [done|]. split; [apply prefix_nil|by left]. Qed.

Lemma call_plan_ocr (ocr ocrs : list Call) (is_explain : Call → Prop) :
  ocrs `prefix_of` ocr → call_plan ocr is_explain ocrs.
Proof. intros H. exists ocrs, []. by rewrite app_nil_r; auto. Qed.

Lemma call_plan_explain (ocr ocrs : list Call) (is_explain : Call → Prop) (c : Call) :
  ocrs `prefix_of` ocr → ocrs ≠ [] → is_explain c → call_plan ocr is_explain (ocrs ++ [c]).
Proof. intros H Hne Hc. exists ocrs, [c]. repeat split; [done|]. right. eauto. Qed.

Ltac prefix_leaf :=
  first [ apply prefix_nil | reflexivity | eexists; reflexivity ].

Ltac plan_leaf :=
  cbn [app default from_option id];
  first [ apply call_plan_none
        | apply call_plan_ocr; prefix_leaf
        | apply (call_plan_explain _ [_]); [prefix_leaf|discriminate|eexists; reflexivity]
        | apply (call_plan_explain _ [_; _]); [prefix_leaf|discriminate|eexists; reflexivity] ].

Section ApiPlan.
Import ApiPipeline.
Context (E : Engine) (env : Env) (up : Upstream).

Lemma api_call_plan (req : Req) :
  call_plan [ocr_call (getenv env "OPENROUTER_API_KEY") (body_field (req_body req) "imageDataUrl")]
    (λ c, ∃ t, c = explain_call (getenv env "GROQ_API_KEY") t)
    (handler E env up req).2.
Proof.
  unfold handler. apply (wp_catching _ _ (λ x, call_plan _ _ x.2)). cbn [snd].
  unfold pipeline, reply_json, opt_trim.
  wp_run; try discriminate; plan_leaf.
Qed.
End ApiPlan.

Section Part001Plan.
Import Part001.
Context (E : Engine) (env : Env) (up : Upstream).

Lemma part001_call_plan (req : Request) :
  let key := getenv env "OPENROUTER_API_KEY" in
  let img := body_field (default JUndefined (parsed req)) "imageDataUrl" in
  call_plan [payloadA key img; payloadB key img]
    (λ c, ∃ t, c = explain_call (getenv env "GROQ_API_KEY") t)
    (handler E env up req).2.
Proof.
  intros key img. unfold handler. apply (wp_catching _ _ (λ x, call_plan _ _ x.2)). cbn [snd].
  unfold pipeline, ocrWithQwen, explainWithGroq, callOpenRouter.
  subst key img. destruct (parsed req) as [b|]; cbn [default from_option id];
    wp_run; try discriminate; plan_leaf.
Qed.
End Part001Plan.

Section Part000_1Plan.
Import Part000_1.
Context (E : Engine) (env : Env) (up : Upstream).

Lemma part000_1_call_plan (req : Req) :
  let key := getenv env "OPENROUTER_API_KEY" in
  let img := body_field (req_body req) "imageDataUrl" in
  call_plan [ocrPayloadA key img; ocrPayloadB key img]
    (λ c, ∃ t, c = explain_call (getenv env "GROQ_API_KEY") t)
    (handler E env up req).2.
Proof.
  intros key img. unfold handler. apply (wp_catching _ _ (λ x, call_plan _ _ x.2)). cbn [snd].
  unfold pipeline, attemptA, regex_test, explain, content_text, opt_trim.
  subst key img. wp_run; try discriminate; plan_leaf.
Qed.
End Part000_1Plan.

Section NetlifyPlan.
Import NetlifyPipeline.
Context (E : Engine) (env : Env) (up : Upstream).

Lemma netlify_call_plan (ev : Event) :
  call_plan [ocr_call env (event_image_or_undefined ev)]
    (λ c, ∃ t, c = explain_call env t (event_step (ev_body ev)))
    (handler E env up ev).2.
Proof.
  unfold handler. apply (wp_catching _ _ (λ x, call_plan _ _ x.2)). cbn [snd].
  unfold pipeline, event_image_or_undefined, event_image, event_step.
  unfold parse_body, destructure, respond, runOCRWithOpenRouter, runExplainWithGroq,
    trimmed_or_empty, as_string, reply_json.
  wp_run; try discriminate; simplify_eq; plan_leaf.
Qed.
End NetlifyPlan.

Section Part000_2Plan.
Import Part000_2.
Context (E : Engine) (env : Env) (up : Upstream).

Lemma part000_2_call_plan (ev : Event) :
  let img := event_image_or_undefined ev in
  call_plan [groq_ocr_call env img; openrouter_ocr_call env img]
    (λ c, ∃ t, c = explain_call env t (event_step (ev_body ev)))
    (handler E env up ev).2.
Proof.
  intros img. unfold handler. apply (wp_catching _ _ (λ x, call_plan _ _ x.2)). cbn [snd].
  subst img. unfold pipeline, event_image_or_undefined, event_image, event_step.
  unfold parse_body, destructure, respond, ocr_stage, ocrWithGroq, ocrWithOpenRouter, ocr_with,
    explainWithGroq, as_string, reply_json.
  wp_run; try discriminate; simplify_eq; plan_leaf.
Qed.
End Part000_2Plan.

Section Part000_3Plan.
Import Part000_3.
Context (E : Engine) (env : Env) (up : Upstream).

Lemma part000_3_call_plan (ev : Event) :
  let img := event_image_or_undefined ev in
  call_plan [openrouter_ocr_call env img; groq_ocr_call env img]
    (λ c, ∃ t, c = explain_call env t (event_step (ev_body ev)))
    (handler E env up ev).2.
Proof.
  intros img. unfold handler. apply (wp_catching _ _ (λ x, call_plan _ _ x.2)). cbn [snd].
  subst img. unfold pipeline, event_image_or_undefined, event_image, event_step.
  unfold parse_body, destructure, respond, ocr_stage, runOCRWithOpenRouter, runOCRWithGroqVision,
    ocr_with, runExplainWithGroq, as_string, reply_json.
  wp_run; try discriminate; simplify_eq; plan_leaf.
Qed.
End Part000_3Plan.

(** ** Rejections come before the first call *)

Ltac early_leaf :=
  first [ by intros _
        | let H := fresh in
          intros H; cbn [statusCode json fst] in H;
          repeat (apply elem_of_cons in H as [H|H]; [discriminate H|]);
          by apply elem_of_nil in H ].

Section Early.
Context (E : Engine) (env : Env) (up : Upstream).

Lemma api_rejected_early (req : Req) : rejected_early (ApiPipeline.handler E env up req).
Proof.
  unfold ApiPipeline.handler. apply wp_catching.
  unfold ApiPipeline.pipeline, reply_json, opt_trim.
  wp_run; try discriminate; unfold rejected_early; early_leaf.
Qed.

Lemma part001_rejected_early (req : Part001.Request) :
  rejected_early (Part001.handler E env up req).
Proof.
  unfold Part001.handler. apply wp_catching.
  unfold Part001.pipeline, Part001.ocrWithQwen, Part001.explainWithGroq, Part001.callOpenRouter.
  wp_run; try discriminate; unfold rejected_early; early_leaf.
Qed.

Lemma part000_1_rejected_early (req : Req) : rejected_early (Part000_1.handler E env up req).
Proof.
  unfold Part000_1.handler. apply wp_catching.
  unfold Part000_1.pipeline, Part000_1.attemptA, Part000_1.regex_test, Part000_1.explain, Part000_1.content_text, opt_trim.
  wp_run; try discriminate; unfold rejected_early; early_leaf.
Qed.

Lemma netlify_rejected_early (ev : Event) : rejected_early (NetlifyPipeline.handler E env up ev).
Proof.
  unfold NetlifyPipeline.handler. apply wp_catching.
  unfold NetlifyPipeline.pipeline, parse_body, destructure, NetlifyPipeline.respond,
    NetlifyPipeline.runOCRWithOpenRouter, NetlifyPipeline.runExplainWithGroq,
    NetlifyPipeline.trimmed_or_empty, as_string, reply_json.
  wp_run; try discriminate; unfold rejected_early; early_leaf.
Qed.

Lemma part000_2_rejected_early (ev : Event) : rejected_early (Part000_2.handler E env up ev).
Proof.
  unfold Part000_2.handler. apply wp_catching.
  unfold Part000_2.pipeline, parse_body, destructure, Part000_2.respond, Part000_2.ocr_stage,
    Part000_2.ocrWithGroq, Part000_2.ocrWithOpenRouter, Part000_2.ocr_with,
    Part000_2.explainWithGroq, as_string, reply_json.
  wp_run; try discriminate; unfold rejected_early; early_leaf.
Qed.

Lemma part000_3_rejected_early (ev : Event) : rejected_early (Part000_3.handler E env up ev).
Proof.
  unfold Part000_3.handler. apply wp_catching.
  unfold Part000_3.pipeline, parse_body, destructure, Part000_3.respond, Part000_3.ocr_stage,
    Part000_3.runOCRWithOpenRouter, Part000_3.runOCRWithGroqVision, Part000_3.ocr_with,
    Part000_3.runExplainWithGroq, as_string, reply_json.
  wp_run; try discriminate; unfold rejected_early; early_leaf.
Qed.
End Early.

(** ** Successful answers *)

Lemma tryEvaluate_not_undefined (E : Engine) (g : bool) (v : JsVal) :
  js_coalesce (Arith.tryEvaluate E g v) JNull = Arith.tryEvaluate E g v.
Proof.
  unfold Arith.tryEvaluate. destruct (js_or v (JStr [])); try done.
  destruct (Arith.clean_of s) as [|c clean]; [done|].
  by destruct (result_of_cases g (Arith.evaluate E (c :: clean))) as [->|(f & -> & _)].
Qed.

Ltac not_200 :=
  let H := fresh in intros H; cbn [statusCode json fst] in H; discriminate H.

Section Success.
Context (E : Engine) (env : Env) (up : Upstream).

Lemma api_200 (req : Req) : api_success E env req (ApiPipeline.handler E env up req).
Proof.
  unfold ApiPipeline.handler. apply wp_catching.
  unfold ApiPipeline.pipeline, reply_json, opt_trim.
  wp_run; try discriminate; unfold api_success; try not_200; intros _.
  all: rewrite ?js_or_string; cbn [js_or truthy fst snd app body json].
  all: eexists _, _; split; [reflexivity|]; split; [|reflexivity].
  all: first [apply trim_idem | reflexivity].
Qed.

Lemma part001_200 (req : Part001.Request) :
  part001_success E env req (Part001.handler E env up req).
Proof.
  unfold Part001.handler. apply wp_catching.
  unfold Part001.pipeline, Part001.ocrWithQwen, Part001.explainWithGroq, Part001.callOpenRouter.
  wp_run; try discriminate; unfold part001_success; try not_200; intros _.
  all: cbn [fst snd app body json].
  all: first
    [ eexists _, _, [_]; split; [reflexivity|]; split; [apply trim_idem|];
      split; [reflexivity|]; by left
    | eexists _, _, [_; _]; split; [reflexivity|]; split; [apply trim_idem|];
      split; [reflexivity|]; by right ].
Qed.

Lemma part000_1_200 (req : Req) : part000_1_success E env (Part000_1.handler E env up req).
Proof.
  unfold Part000_1.handler. apply wp_catching.
  unfold Part000_1.pipeline, Part000_1.attemptA, Part000_1.regex_test, Part000_1.explain, Part000_1.content_text,
    opt_trim.
  wp_run; try discriminate; unfold part000_1_success; try not_200; intros _.
  all: cbn [fst snd app body json].
  all: unfold Part000_1.tryEvaluate; rewrite tryEvaluate_not_undefined.
  all: first
    [ eexists _, _, [_]; split; [reflexivity|]; split; [reflexivity|]; by left
    | eexists _, _, [_; _]; split; [reflexivity|]; split; [reflexivity|]; by right ].
Qed.
End Success.

Lemma no_math_guard (t : jsstring) :
  negb (truthy (JStr t)) || negb (has_math t) = true → has_math t = false.
Proof. destruct t; [done|]. cbn [truthy negb orb]. by destruct (has_math _). Qed.

Lemma math_guard (t : jsstring) :
  negb (truthy (JStr t)) || negb (has_math t) = false → has_math t = true.
Proof. destruct t; [done|]. cbn [truthy negb orb]. by destruct (has_math _). Qed.

Ltac ocr_reply n :=
  exists n; eexists _, _, _, _;
  split; [lia|];
  split; [reflexivity|];
  split; [first [by left | by right; left]|];
  split; [eassumption|];
  split; [apply negb_false_iff; eassumption|];
  split; [eassumption|];
  split; [eassumption|reflexivity].

Ltac event_leaf :=
  intros _; cbn [fst snd app body json last];
  eexists _, _; split; [reflexivity|];
  split; [unfold NetlifyPipeline.cleanOCR, Part000_2.cleanOCR, Part000_3.cleanOCR; apply trim_idem|];
  split; [first [apply trim_idem | reflexivity]|];
  split; [first [solve [ocr_reply 0%nat] | solve [ocr_reply 1%nat]]|];
  lazymatch goal with
  | H : negb (truthy (JStr ?t)) || negb (has_math ?t) = true |- _ =>
    rewrite (no_math_guard t H); reflexivity
  | H : negb (truthy (JStr ?t)) || negb (has_math ?t) = false |- _ =>
    rewrite (math_guard t H); reflexivity
  end.

Section EventSuccess.
Context (E : Engine) (env : Env) (up : Upstream).

Lemma netlify_200 (ev : Event) :
  event_success [NetlifyPipeline.ocr_call env (event_image_or_undefined ev)]
    NetlifyPipeline.cleanOCR (NetlifyPipeline.explain_call env) up ev
    (NetlifyPipeline.handler E env up ev).
Proof.
  unfold NetlifyPipeline.handler. apply wp_catching.
  unfold event_success, event_step, event_image_or_undefined, event_image.
  unfold NetlifyPipeline.pipeline, parse_body, destructure, NetlifyPipeline.respond,
    NetlifyPipeline.runOCRWithOpenRouter, NetlifyPipeline.runExplainWithGroq,
    NetlifyPipeline.trimmed_or_empty, as_string, reply_json.
  wp_run; try discriminate; simplify_eq; try not_200; event_leaf.
Qed.

Lemma part000_2_200 (ev : Event) :
  event_success [Part000_2.groq_ocr_call env (event_image_or_undefined ev);
                 Part000_2.openrouter_ocr_call env (event_image_or_undefined ev)]
    Part000_2.cleanOCR (Part000_2.explain_call env) up ev
    (Part000_2.handler E env up ev).
Proof.
  unfold Part000_2.handler. apply wp_catching.
  unfold event_success, event_step, event_image_or_undefined, event_image.
  unfold Part000_2.pipeline, parse_body, destructure, Part000_2.respond,
    Part000_2.ocr_stage, Part000_2.ocrWithGroq, Part000_2.ocrWithOpenRouter, Part000_2.ocr_with,
    Part000_2.explainWithGroq, as_string, reply_json.
  wp_run; try discriminate; simplify_eq; try not_200; event_leaf.
Qed.

Lemma part000_3_200 (ev : Event) :
  event_success [Part000_3.openrouter_ocr_call env (event_image_or_undefined ev);
                 Part000_3.groq_ocr_call env (event_image_or_undefined ev)]
    Part000_3.cleanOCR (Part000_3.explain_call env) up ev
    (Part000_3.handler E env up ev).
Proof.
  unfold Part000_3.handler. apply wp_catching.
  unfold event_success, event_step, event_image_or_undefined, event_image.
  unfold Part000_3.pipeline, parse_body, destructure, Part000_3.respond,
    Part000_3.ocr_stage, Part000_3.runOCRWithOpenRouter, Part000_3.runOCRWithGroqVision,
    Part000_3.ocr_with, Part000_3.runExplainWithGroq, as_string, reply_json.
  wp_run; try discriminate; simplify_eq; try not_200; event_leaf.
Qed.
End EventSuccess.

(** ** A missing Groq credential *)

Section MissingGroq.
Context (E : Engine) (env : Env) (up : Upstream).
Hypothesis Hgroq : truthy (getenv env "GROQ_API_KEY") = false.

Ltac groq_leaf :=
  try discriminate;
  try (rewrite Hgroq in *; discriminate);
  cbn [app fst snd statusCode json].

Lemma api_missing_groq_key (req : Req) :
  let key := getenv env "OPENROUTER_API_KEY" in
  let img := body_field (req_body req) "imageDataUrl" in
  method req = POST → invalid_image img = false → truthy key = true →
  (ApiPipeline.handler E env up req).2 = [ApiPipeline.ocr_call key img]
  ∧ statusCode (ApiPipeline.handler E env up req).1 ∈ [500; 502]%N.
Proof.
  intros key img Hm Hi Hk. subst key img. unfold ApiPipeline.handler.
  apply (wp_catching _ _ (λ x, x.2 = [_] ∧ statusCode x.1 ∈ [500; 502]%N)).
  unfold ApiPipeline.pipeline, reply_json, opt_trim.
  rewrite bool_decide_true, Hi, Hk by done. cbn [negb].
  wp_run; groq_leaf; (split; [reflexivity|set_solver]).
Qed.

Lemma part001_missing_groq_key (req : Part001.Request) (b : JsVal) :
  let key := getenv env "OPENROUTER_API_KEY" in
  let img := body_field b "imageDataUrl" in
  Part001.method req = POST → Part001.parsed req = Some b →
  invalid_image img = false → string_length img ≤ 6000000 → truthy key = true →
  ((Part001.handler E env up req).2 = [Part001.payloadA key img]
   ∨ (Part001.handler E env up req).2 = [Part001.payloadA key img; Part001.payloadB key img])
  ∧ statusCode (Part001.handler E env up req).1 = 500%N.
Proof.
  intros key img Hm Hp Hi Hl Hk. subst key img. unfold Part001.handler.
  apply (wp_catching _ _ (λ x, (x.2 = [_] ∨ x.2 = [_; _]) ∧ statusCode x.1 = 500%N)).
  unfold Part001.pipeline, Part001.ocrWithQwen, Part001.explainWithGroq, Part001.callOpenRouter.
  rewrite bool_decide_true, Hp, Hi, Hk by done. cbn [negb].
  rewrite (proj2 (Z.ltb_ge _ _) Hl).
  wp_run; groq_leaf; (split; [first [by left|by right]|reflexivity]).
Qed.

Lemma part000_1_missing_groq_key (req : Req) :
  method req = POST → invalid_image (body_field (req_body req) "imageDataUrl") = false →
  truthy (getenv env "OPENROUTER_API_KEY") = true →
  Part000_1.handler E env up req = (json 500 (error_tag "missing_groq_key"), []).
Proof.
  intros Hm Hi Hk. unfold Part000_1.handler, Part000_1.pipeline.
  by rewrite bool_decide_true, Hi, Hk, Hgroq by done.
Qed.
End MissingGroq.

(** ** The OCR fallback of the second and third handlers of part_000 *)

Lemma part000_2_handler_respond (E : Engine) (env : Env) (up : Upstream) (ev : Event) (img : JsVal) :
  httpMethod ev = POST → event_image (ev_body ev) = Some img →
  Part000_2.handler E env up ev
  = catching (Part000_2.respond E env up img (event_step (ev_body ev))) error_500.
Proof.
  intros Hm Hi. unfold Part000_2.handler, catching, Part000_2.pipeline.
  rewrite bool_decide_true by done. cbn [negb]. by rewrite (read_event E _ _ _ _ Hi).
Qed.

Lemma part000_3_handler_respond (E : Engine) (env : Env) (up : Upstream) (ev : Event) (img : JsVal) :
  httpMethod ev = POST → event_image (ev_body ev) = Some img →
  Part000_3.handler E env up ev
  = catching (Part000_3.respond E env up img (event_step (ev_body ev))) error_500.
Proof.
  intros Hm Hi. unfold Part000_3.handler, catching, Part000_3.pipeline.
  rewrite bool_decide_true by done. cbn [negb]. by rewrite (read_event E _ _ _ _ Hi).
Qed.

Lemma netlify_handler_respond (E : Engine) (env : Env) (up : Upstream) (ev : Event) (img : JsVal) :
  httpMethod ev = POST → event_image (ev_body ev) = Some img →
  NetlifyPipeline.handler E env up ev
  = catching (NetlifyPipeline.respond E env up img (event_step (ev_body ev))) error_500.
Proof.
  intros Hm Hi. unfold NetlifyPipeline.handler, catching, NetlifyPipeline.pipeline.
  rewrite bool_decide_true by done. cbn [negb]. by rewrite (read_event E _ _ _ _ Hi).
Qed.

Ltac first_call Hup :=
  repeat match goal with
  | H : _ (length []) _ = _ |- _ => cbn [length] in H; rewrite Hup in H
  end.

Section Fallback.
Context (E : Engine) (env : Env) (up : Upstream).

Lemma part000_3_falls_back (ev : Event) (img : JsVal) (e : Exn) :
  httpMethod ev = POST → event_image (ev_body ev) = Some img → truthy img = true →
  primary_error "OpenRouter OCR" (up 0%nat (Part000_3.openrouter_ocr_call env img)) = Some e →
  ∃ rest, (Part000_3.handler E env up ev).2
          = Part000_3.openrouter_ocr_call env img :: Part000_3.groq_ocr_call env img :: rest.
Proof.
  intros Hm Hi Ht Hup. rewrite (part000_3_handler_respond _ _ _ _ _ Hm Hi).
  apply (wp_catching _ _ (λ x, ∃ rest, x.2 = _ :: _ :: rest)).
  unfold Part000_3.respond, Part000_3.ocr_stage, Part000_3.runOCRWithOpenRouter,
    Part000_3.runOCRWithGroqVision, Part000_3.ocr_with, Part000_3.runExplainWithGroq,
    as_string, reply_json.
  rewrite Ht. cbn [negb]. unfold primary_error in Hup.
  destruct (up 0%nat _) as [e0|r0] eqn:Hup0 in Hup.
  - wp_run; first_call Hup0; try discriminate; cbn [app snd]; by eexists.
  - destruct (ok r0) eqn:Hok; [done|].
    wp_run; first_call Hup0; simplify_eq; try (rewrite Hok in *; discriminate);
      try discriminate; cbn [app snd]; by eexists.
Qed.

Lemma part000_2_falls_back (ev : Event) (img : JsVal) (e : Exn) :
  httpMethod ev = POST → event_image (ev_body ev) = Some img → truthy img = true →
  primary_error "Groq OCR" (up 0%nat (Part000_2.groq_ocr_call env img)) = Some e →
  truthy (getenv env "OPENROUTER_API_KEY") = true →
  ∃ rest, (Part000_2.handler E env up ev).2
          = Part000_2.groq_ocr_call env img :: Part000_2.openrouter_ocr_call env img :: rest.
Proof.
  intros Hm Hi Ht Hup Hk. rewrite (part000_2_handler_respond _ _ _ _ _ Hm Hi).
  apply (wp_catching _ _ (λ x, ∃ rest, x.2 = _ :: _ :: rest)).
  unfold Part000_2.respond, Part000_2.ocr_stage, Part000_2.ocrWithGroq,
    Part000_2.ocrWithOpenRouter, Part000_2.ocr_with, Part000_2.explainWithGroq,
    as_string, reply_json.
  rewrite Ht, Hk. cbn [negb]. unfold primary_error in Hup.
  destruct (up 0%nat _) as [e0|r0] eqn:Hup0 in Hup.
  - wp_run; first_call Hup0; try discriminate; cbn [app snd]; by eexists.
  - destruct (ok r0) eqn:Hok; [done|].
    wp_run; first_call Hup0; simplify_eq; try (rewrite Hok in *; discriminate);
      try discriminate; cbn [app snd]; by eexists.
Qed.

Lemma part000_2_gives_up (ev : Event) (img : JsVal) (e : Exn) :
  httpMethod ev = POST → event_image (ev_body ev) = Some img → truthy img = true →
  primary_error "Groq OCR" (up 0%nat (Part000_2.groq_ocr_call env img)) = Some e →
  truthy (getenv env "OPENROUTER_API_KEY") = false →
  Part000_2.handler E env up ev = (error_500 e, [Part000_2.groq_ocr_call env img]).
Proof.
  intros Hm Hi Ht Hup Hk. rewrite (part000_2_handler_respond _ _ _ _ _ Hm Hi).
  apply (wp_catching _ _ (λ x, x = (_, _))).
  unfold Part000_2.respond, Part000_2.ocr_stage, Part000_2.ocrWithGroq,
    Part000_2.ocrWithOpenRouter, Part000_2.ocr_with, Part000_2.explainWithGroq,
    as_string, reply_json.
  rewrite Ht, Hk. cbn [negb]. unfold primary_error in Hup.
  destruct (up 0%nat _) as [e0|r0] eqn:Hup0 in Hup.
  - wp_run; first_call Hup0; simplify_eq; reflexivity.
  - destruct (ok r0) eqn:Hok; [done|].
    wp_run; first_call Hup0; simplify_eq; try (rewrite Hok in *; discriminate);
      try discriminate; reflexivity.
Qed.
End Fallback.

(** ** Bodies that cannot be read *)

Section BadBody.
Context (E : Engine) (env : Env) (up : Upstream).

Lemma netlify_bad_body (ev : Event) :
  httpMethod ev = POST → event_image (ev_body ev) = None →
  NetlifyPipeline.handler E env up ev
  = (error_500 {| message := [Lit (fault_message E (body_fault (ev_body ev)))] |}, []).
Proof.
  intros Hm Hi. unfold NetlifyPipeline.handler, NetlifyPipeline.pipeline.
  rewrite bool_decide_true by done. cbn [negb].
  destruct (ev_body ev) as [| |v]; cbn [event_image] in Hi; [done|done|].
  destruct (nullish v) eqn:Hn; [|done].
  unfold_effects. by rewrite Hn.
Qed.

Lemma part000_2_bad_body (ev : Event) :
  httpMethod ev = POST → event_image (ev_body ev) = None →
  Part000_2.handler E env up ev
  = (error_500 {| message := [Lit (fault_message E (body_fault (ev_body ev)))] |}, []).
Proof.
  intros Hm Hi. unfold Part000_2.handler, Part000_2.pipeline.
  rewrite bool_decide_true by done. cbn [negb].
  destruct (ev_body ev) as [| |v]; cbn [event_image] in Hi; [done|done|].
  destruct (nullish v) eqn:Hn; [|done].
  unfold_effects. by rewrite Hn.
Qed.

Lemma part000_3_bad_body (ev : Event) :
  httpMethod ev = POST → event_image (ev_body ev) = None →
  Part000_3.handler E env up ev
  = (error_500 {| message := [Lit (fault_message E (body_fault (ev_body ev)))] |}, []).
Proof.
  intros Hm Hi. unfold Part000_3.handler, Part000_3.pipeline.
  rewrite bool_decide_true by done. cbn [negb].
  destruct (ev_body ev) as [| |v]; cbn [event_image] in Hi; [done|done|].
  destruct (nullish v) eqn:Hn; [|done].
  unfold_effects. by rewrite Hn.
Qed.
End BadBody.

(** ** Credentials *)

Lemma call_plan_forall (Q : Call → Prop) (ocr : list Call) (is_explain : Call → Prop)
    (log : list Call) :
  call_plan ocr is_explain log → Forall Q ocr → (∀ c, is_explain c → Q c) → Forall Q log.
Proof.
  intros (ocrs & ex & -> & [k ->] & Hex) Hocr Hq.
  apply Forall_app in Hocr as [Hocrs _]. apply Forall_app. split; [done|].
  destruct Hex as [->|(_ & c & -> & Hc)]; [done|]. constructor; [by apply Hq|constructor].
Qed.

Ltac authorised_calls :=
  repeat (constructor; [first [by left | by right]|]); constructor.

Section Credentials.
Context (E : Engine) (env : Env) (up : Upstream).

Lemma api_authorised (req : Req) : Forall (authorised env) (ApiPipeline.handler E env up req).2.
Proof.
  eapply call_plan_forall; [apply api_call_plan| |].
  - authorised_calls.
  - intros c [t ->]. by right.
Qed.

Lemma part001_authorised (req : Part001.Request) :
  Forall (authorised env) (Part001.handler E env up req).2.
Proof.
  eapply call_plan_forall; [apply part001_call_plan| |].
  - authorised_calls.
  - intros c [t ->]. by right.
Qed.

Lemma part000_1_authorised (req : Req) :
  Forall (authorised env) (Part000_1.handler E env up req).2.
Proof.
  eapply call_plan_forall; [apply part000_1_call_plan| |].
  - authorised_calls.
  - intros c [t ->]. by right.
Qed.

Lemma netlify_authorised (ev : Event) :
  Forall (authorised env) (NetlifyPipeline.handler E env up ev).2.
Proof.
  eapply call_plan_forall; [apply netlify_call_plan| |].
  - authorised_calls.
  - intros c [t ->]. by right.
Qed.

Lemma part000_2_authorised (ev : Event) :
  Forall (authorised env) (Part000_2.handler E env up ev).2.
Proof.
  eapply call_plan_forall; [apply part000_2_call_plan| |].
  - authorised_calls.
  - intros c [t ->]. by right.
Qed.

Lemma part000_3_authorised (ev : Event) :
  Forall (authorised env) (Part000_3.handler E env up ev).2.
Proof.
  eapply call_plan_forall; [apply part000_3_call_plan| |].
  - authorised_calls.
  - intros c [t ->]. by right.
Qed.
End Credentials.

(** ** The status 502 *)

Ltac not_502 :=
  let H := fresh in intros H; cbn [statusCode json fst] in H; discriminate H.

Ltac bad_gateway_leaf :=
  intros _; eexists _, _, _, _;
  split; [reflexivity|];
  split; [eassumption|];
  split; [by apply negb_true_iff|];
  split; [reflexivity|];
  split; [reflexivity|];
  unfold slice0; rewrite length_take; lia.

Ltac never_502 := first [ by intros _ | not_502 ].

Section BadGateway.
Context (E : Engine) (env : Env) (up : Upstream).

Lemma api_bad_gateway (req : Req) : bad_gateway up (ApiPipeline.handler E env up req).
Proof.
  unfold ApiPipeline.handler. apply wp_catching.
  unfold ApiPipeline.pipeline, reply_json, opt_trim.
  wp_run; try discriminate; unfold bad_gateway; try not_502; bad_gateway_leaf.
Qed.

Lemma part000_1_bad_gateway (req : Req) : bad_gateway up (Part000_1.handler E env up req).
Proof.
  unfold Part000_1.handler. apply wp_catching.
  unfold Part000_1.pipeline, Part000_1.attemptA, Part000_1.regex_test, Part000_1.explain, Part000_1.content_text,
    opt_trim.
  wp_run; try discriminate; unfold bad_gateway; try not_502; bad_gateway_leaf.
Qed.

Lemma part001_never_502 (req : Part001.Request) :
  statusCode (Part001.handler E env up req).1 ≠ 502%N.
Proof.
  unfold Part001.handler. apply (wp_catching _ _ (λ x, statusCode x.1 ≠ 502%N)).
  unfold Part001.pipeline, Part001.ocrWithQwen, Part001.explainWithGroq, Part001.callOpenRouter.
  wp_run; try discriminate; not_502.
Qed.

Lemma netlify_never_502 (ev : Event) :
  statusCode (NetlifyPipeline.handler E env up ev).1 ≠ 502%N.
Proof.
  unfold NetlifyPipeline.handler. apply (wp_catching _ _ (λ x, statusCode x.1 ≠ 502%N)).
  unfold NetlifyPipeline.pipeline, parse_body, destructure, NetlifyPipeline.respond,
    NetlifyPipeline.runOCRWithOpenRouter, NetlifyPipeline.runExplainWithGroq,
    NetlifyPipeline.trimmed_or_empty, as_string, reply_json.
  wp_run; try discriminate; not_502.
Qed.

Lemma part000_2_never_502 (ev : Event) :
  statusCode (Part000_2.handler E env up ev).1 ≠ 502%N.
Proof.
  unfold Part000_2.handler. apply (wp_catching _ _ (λ x, statusCode x.1 ≠ 502%N)).
  unfold Part000_2.pipeline, parse_body, destructure, Part000_2.respond, Part000_2.ocr_stage,
    Part000_2.ocrWithGroq, Part000_2.ocrWithOpenRouter, Part000_2.ocr_with,
    Part000_2.explainWithGroq, as_string, reply_json.
  wp_run; try discriminate; not_502.
Qed.

Lemma part000_3_never_502 (ev : Event) :
  statusCode (Part000_3.handler E env up ev).1 ≠ 502%N.
Proof.
  unfold Part000_3.handler. apply (wp_catching _ _ (λ x, statusCode x.1 ≠ 502%N)).
  unfold Part000_3.pipeline, parse_body, destructure, Part000_3.respond, Part000_3.ocr_stage,
    Part000_3.runOCRWithOpenRouter, Part000_3.runOCRWithGroqVision, Part000_3.ocr_with,
    Part000_3.runExplainWithGroq, as_string, reply_json.
  wp_run; try discriminate; not_502.
Qed.
End BadGateway.
(** ** Failed upstream calls *)

Lemma any_call_last (up : Upstream) (st : N) (x : Response * list Call) :
  any_call_failed up st x → last_call_failed up st x.
Proof.
  intros H pre c Hl. apply H. rewrite Hl.
  rewrite lookup_app_r by done. by rewrite Nat.sub_diag.
Qed.

Ltac failed_outcome :=
  unfold failed_call; cbn [length app fst snd] in *;
  repeat match goal with
  | H : ?up _ _ = _ |- context [?up _ _] => rewrite H
  end;
  first [ reflexivity
        | let Hf := fresh in
          intros Hf; first [reflexivity | rewrite Hf in *; discriminate] ].

Ltac any_call_leaf :=
  let i := fresh "i" in let c := fresh "c" in let Hl := fresh "Hl" in
  intros i c Hl; cbn [fst snd] in Hl;
  repeat match goal with
  | H : (_ ++ [_]) !! _ = Some _ |- _ => apply lookup_snoc_Some in H as [[_ H]|[-> <-]]
  | H : [] !! _ = Some _ |- _ => by rewrite lookup_nil in H
  end;
  failed_outcome.

Ltac last_call_leaf :=
  let pre := fresh "pre" in let c := fresh "c" in let Hl := fresh "Hl" in
  intros pre c Hl; cbn [fst snd] in Hl;
  first [ by destruct pre
        | apply app_inj_tail in Hl as [<- <-]; failed_outcome ].

Section Upstream.
Context (E : Engine) (env : Env) (up : Upstream).

Lemma api_any_call (req : Req) : any_call_failed up 502 (ApiPipeline.handler E env up req).
Proof.
  unfold ApiPipeline.handler. apply wp_catching.
  unfold ApiPipeline.pipeline, reply_json, opt_trim.
  wp_run; try discriminate; any_call_leaf.
Qed.

Lemma part001_any_call (req : Part001.Request) :
  any_call_failed up 500 (Part001.handler E env up req).
Proof.
  unfold Part001.handler. apply wp_catching.
  unfold Part001.pipeline, Part001.ocrWithQwen, Part001.explainWithGroq, Part001.callOpenRouter.
  wp_run; try discriminate; any_call_leaf.
Qed.

Lemma netlify_any_call (ev : Event) :
  any_call_failed up 500 (NetlifyPipeline.handler E env up ev).
Proof.
  unfold NetlifyPipeline.handler. apply wp_catching.
  unfold NetlifyPipeline.pipeline, parse_body, destructure, NetlifyPipeline.respond,
    NetlifyPipeline.runOCRWithOpenRouter, NetlifyPipeline.runExplainWithGroq,
    NetlifyPipeline.trimmed_or_empty, as_string, reply_json.
  wp_run; try discriminate; any_call_leaf.
Qed.

Lemma part000_1_last_call (req : Req) :
  last_call_failed up 502 (Part000_1.handler E env up req).
Proof.
  unfold Part000_1.handler. apply wp_catching.
  unfold Part000_1.pipeline, Part000_1.attemptA, Part000_1.regex_test, Part000_1.explain,
    Part000_1.content_text, opt_trim.
  wp_run; try discriminate; last_call_leaf.
Qed.

Lemma part000_2_last_call (ev : Event) :
  last_call_failed up 500 (Part000_2.handler E env up ev).
Proof.
  unfold Part000_2.handler. apply wp_catching.
  unfold Part000_2.pipeline, parse_body, destructure, Part000_2.respond, Part000_2.ocr_stage,
    Part000_2.ocrWithGroq, Part000_2.ocrWithOpenRouter, Part000_2.ocr_with,
    Part000_2.explainWithGroq, as_string, reply_json.
  wp_run; try discriminate; last_call_leaf.
Qed.

Lemma part000_3_last_call (ev : Event) :
  last_call_failed up 500 (Part000_3.handler E env up ev).
Proof.
  unfold Part000_3.handler. apply wp_catching.
  unfold Part000_3.pipeline, parse_body, destructure, Part000_3.respond, Part000_3.ocr_stage,
    Part000_3.runOCRWithOpenRouter, Part000_3.runOCRWithGroqVision, Part000_3.ocr_with,
    Part000_3.runExplainWithGroq, as_string, reply_json.
  wp_run; try discriminate; last_call_leaf.
Qed.
End Upstream.

(** ** The handlers: calls, answers and failures *)

(** X17.  The upstream calls of the three handlers on Express-style and
    Fetch requests follow a fixed plan, whatever the request and whatever
    the services answer: api/pipeline.js makes its OCR call and then at
    most one explanation call; part_001 and the first handler of part_000
    make their first OCR call, then possibly the second one, then at most
    one explanation call.  No other call is made, none is repeated, and
    the explanation is never asked before an OCR call. *)
Theorem express_call_plan (E : Engine) (env : Env) (up : Upstream)
    (req : Req) (req1 : Part001.Request) :
  let key := getenv env "OPENROUTER_API_KEY" in
  let groq := getenv env "GROQ_API_KEY" in
  let img := body_field (req_body req) "imageDataUrl" in
  let img1 := body_field (default JUndefined (Part001.parsed req1)) "imageDataUrl" in
  call_plan [ApiPipeline.ocr_call key img]
    (λ c, ∃ t, c = ApiPipeline.explain_call groq t) (ApiPipeline.handler E env up req).2
  ∧ call_plan [Part001.payloadA key img1; Part001.payloadB key img1]
      (λ c, ∃ t, c = Part001.explain_call groq t) (Part001.handler E env up req1).2
  ∧ call_plan [Part000_1.ocrPayloadA key img; Part000_1.ocrPayloadB key img]
      (λ c, ∃ t, c = Part000_1.explain_call groq t) (Part000_1.handler E env up req).2.
Proof.
  intros key groq img img1. split; [apply api_call_plan|].
  split; [apply part001_call_plan|apply part000_1_call_plan].
Qed.

(** X18.  The upstream calls of the three handlers on Netlify events
    follow a fixed plan, whatever the event and whatever the services
    answer: netlify/functions/pipeline.js makes its OCR call and then at
    most one explanation call; the second handler of part_000 calls the
    Groq vision model, then possibly the OpenRouter one, the third handler
    the OpenRouter model, then possibly the Groq one, and each then asks at
    most one explanation, with the [stepByStep] of the request. *)
Theorem event_call_plan (E : Engine) (env : Env) (up : Upstream) (ev : Event) :
  let img := event_image_or_undefined ev in
  let step := event_step (ev_body ev) in
  call_plan [NetlifyPipeline.ocr_call env img]
    (λ c, ∃ t, c = NetlifyPipeline.explain_call env t step) (NetlifyPipeline.handler E env up ev).2
  ∧ call_plan [Part000_2.groq_ocr_call env img; Part000_2.openrouter_ocr_call env img]
      (λ c, ∃ t, c = Part000_2.explain_call env t step) (Part000_2.handler E env up ev).2
  ∧ call_plan [Part000_3.openrouter_ocr_call env img; Part000_3.groq_ocr_call env img]
      (λ c, ∃ t, c = Part000_3.explain_call env t step) (Part000_3.handler E env up ev).2.
Proof.
  intros img step. split; [apply netlify_call_plan|].
  split; [apply part000_2_call_plan|apply part000_3_call_plan].
Qed.

(** X19.  Every call of the six handlers goes to the OpenRouter endpoint
    with the OpenRouter credential of the environment or to the Groq
    endpoint with the Groq credential: no credential is sent to the other
    service or anywhere else. *)
Theorem calls_carry_their_credential (E : Engine) (env : Env) (up : Upstream)
    (req : Req) (req1 : Part001.Request) (ev : Event) :
  Forall (authorised env) (ApiPipeline.handler E env up req).2
  ∧ Forall (authorised env) (Part001.handler E env up req1).2
  ∧ Forall (authorised env) (Part000_1.handler E env up req).2
  ∧ Forall (authorised env) (NetlifyPipeline.handler E env up ev).2
  ∧ Forall (authorised env) (Part000_2.handler E env up ev).2
  ∧ Forall (authorised env) (Part000_3.handler E env up ev).2.
Proof.
  repeat split; [apply api_authorised|apply part001_authorised|apply part000_1_authorised
                |apply netlify_authorised|apply part000_2_authorised|apply part000_3_authorised].
Qed.

(** X20.  A request answered 400, 405 or 413 cost no upstream call: the
    six handlers reject before the first [fetch], and once a call has been
    made the status is 200, 500 or 502. *)
Theorem rejections_before_calls (E : Engine) (env : Env) (up : Upstream)
    (req : Req) (req1 : Part001.Request) (ev : Event) :
  rejected_early (ApiPipeline.handler E env up req)
  ∧ rejected_early (Part001.handler E env up req1)
  ∧ rejected_early (Part000_1.handler E env up req)
  ∧ rejected_early (NetlifyPipeline.handler E env up ev)
  ∧ rejected_early (Part000_2.handler E env up ev)
  ∧ rejected_early (Part000_3.handler E env up ev).
Proof.
  repeat split; [apply api_rejected_early|apply part001_rejected_early
                |apply part000_1_rejected_early|apply netlify_rejected_early
                |apply part000_2_rejected_early|apply part000_3_rejected_early].
Qed.

(** X21.  A 200 answer of api/pipeline.js, of part_001 and of the first
    handler of part_000 has the fields text, numeric and explanation, in
    this order; numeric is [tryEvaluate] of the transcript, and the last
    call is the explanation call for this very transcript, after one OCR
    call (api/pipeline.js) or one or two.  In the first two the text is a
    trimmed string. *)
Theorem express_success (E : Engine) (env : Env) (up : Upstream)
    (req : Req) (req1 : Part001.Request) :
  api_success E env req (ApiPipeline.handler E env up req)
  ∧ part001_success E env req1 (Part001.handler E env up req1)
  ∧ part000_1_success E env (Part000_1.handler E env up req).
Proof.
  split; [apply api_200|]. split; [apply part001_200|apply part000_1_200].
Qed.

(** X22.  A 200 answer of the three handlers on Netlify events has the
    fields text and explanation.  The text is the transcript: what the
    variant's [cleanOCR] makes of the string that a successful reply to
    one of the run's OCR calls, the first or the second call of the run,
    holds at [choices[0].message.content]; it is trimmed.  The explanation
    is the HTML paragraphs of a trimmed text.  If the transcript holds
    math, the last call asked to explain exactly this transcript; if not,
    the explanation is the fixed sentence. *)
Theorem event_success_answers (E : Engine) (env : Env) (up : Upstream) (ev : Event) :
  let img := event_image_or_undefined ev in
  event_success [NetlifyPipeline.ocr_call env img]
    NetlifyPipeline.cleanOCR (NetlifyPipeline.explain_call env) up ev
    (NetlifyPipeline.handler E env up ev)
  ∧ event_success [Part000_2.groq_ocr_call env img; Part000_2.openrouter_ocr_call env img]
      Part000_2.cleanOCR (Part000_2.explain_call env) up ev
      (Part000_2.handler E env up ev)
  ∧ event_success [Part000_3.openrouter_ocr_call env img; Part000_3.groq_ocr_call env img]
      Part000_3.cleanOCR (Part000_3.explain_call env) up ev
      (Part000_3.handler E env up ev).
Proof.
  intros img. split; [apply netlify_200|]. split; [apply part000_2_200|apply part000_3_200].
Qed.

(** X23.  Without a Groq credential, api/pipeline.js and part_001 notice
    it only after the OCR: the OCR calls are made, one for api/pipeline.js
    and one or two for part_001, and the answer is a failure; the first
    handler of part_000 checks both credentials first and answers 500
    [missing_groq_key] without any call. *)
Theorem missing_groq_key (E : Engine) (env : Env) (up : Upstream)
    (req : Req) (req1 : Part001.Request) (b : JsVal) :
  let key := getenv env "OPENROUTER_API_KEY" in
  let img := body_field (req_body req) "imageDataUrl" in
  let img1 := body_field b "imageDataUrl" in
  truthy (getenv env "GROQ_API_KEY") = false → truthy key = true →
  (method req = POST → invalid_image img = false →
   ((ApiPipeline.handler E env up req).2 = [ApiPipeline.ocr_call key img]
    ∧ statusCode (ApiPipeline.handler E env up req).1 ∈ [500; 502]%N)
   ∧ Part000_1.handler E env up req = (json 500 (error_tag "missing_groq_key"), []))
  ∧ (Part001.method req1 = POST → Part001.parsed req1 = Some b →
     invalid_image img1 = false → string_length img1 ≤ 6000000 →
     ((Part001.handler E env up req1).2 = [Part001.payloadA key img1]
      ∨ (Part001.handler E env up req1).2 = [Part001.payloadA key img1; Part001.payloadB key img1])
     ∧ statusCode (Part001.handler E env up req1).1 = 500%N).
Proof.
  intros key img img1 Hg Hk. split.
  - intros Hm Hi. split; [by apply api_missing_groq_key|by apply part000_1_missing_groq_key].
  - intros Hm Hp Hi Hl. by apply part001_missing_groq_key.
Qed.

Lemma missing_groq_key_witness :
  let up := answering (reply_with 200 (JStr (u "2+2"))) in
  (ApiPipeline.handler basic_host only_openrouter_key up (express_post (JStr tiny_image))).2
  = [ApiPipeline.ocr_call (JStr (u "or-key")) (JStr tiny_image)]
  ∧ Part000_1.handler basic_host only_openrouter_key up (express_post (JStr tiny_image))
    = (json 500 (error_tag "missing_groq_key"), [])
  ∧ (Part001.handler basic_host only_openrouter_key up (fetch_post (JStr tiny_image))).2
    = [Part001.payloadA (JStr (u "or-key")) (JStr tiny_image)].
Proof.
  intros up.
  destruct (missing_groq_key basic_host only_openrouter_key up (express_post (JStr tiny_image))
              (fetch_post (JStr tiny_image)) (image_body (JStr tiny_image)))
    as [Hexpress Hfetch]; [by vm_compute|by vm_compute|].
  destruct Hexpress as [[Hcalls _] Hfirst]; [done|by vm_compute|].
  split; [exact Hcalls|]. split; [exact Hfirst|]. by vm_compute.
Defined.

(** X24.  The OCR fallback.  When the first OCR call of the third handler
    of part_000 is rejected or answered with a status that is not ok, the
    second call is the Groq vision call.  In the second handler the
    OpenRouter call follows a failed Groq call only if the OpenRouter
    credential is set; without it the failure of the Groq call is the
    answer, status 500 with its message, after this one call. *)
Theorem ocr_fallback (E : Engine) (env : Env) (up : Upstream) (ev : Event) (img : JsVal)
    (e : Exn) :
  httpMethod ev = POST → event_image (ev_body ev) = Some img → truthy img = true →
  (primary_error "OpenRouter OCR" (up 0%nat (Part000_3.openrouter_ocr_call env img)) = Some e →
   ∃ rest, (Part000_3.handler E env up ev).2
           = Part000_3.openrouter_ocr_call env img :: Part000_3.groq_ocr_call env img :: rest)
  ∧ (primary_error "Groq OCR" (up 0%nat (Part000_2.groq_ocr_call env img)) = Some e →
     if truthy (getenv env "OPENROUTER_API_KEY")
     then ∃ rest, (Part000_2.handler E env up ev).2
                  = Part000_2.groq_ocr_call env img :: Part000_2.openrouter_ocr_call env img :: rest
     else Part000_2.handler E env up ev = (error_500 e, [Part000_2.groq_ocr_call env img])).
Proof.
  intros Hm Hi Ht. split.
  - by apply part000_3_falls_back.
  - intros Hup. destruct (truthy (getenv env "OPENROUTER_API_KEY")) eqn:Hk.
    + by apply (part000_2_falls_back E env up ev img e).
    + by apply part000_2_gives_up.
Qed.

Lemma ocr_fallback_witness :
  let e := {| message := text_of "fetch failed" |} in
  let img := JStr tiny_image in
  (∃ rest, (Part000_3.handler basic_host only_groq_key unreachable (event_post img)).2
           = Part000_3.openrouter_ocr_call only_groq_key img
             :: Part000_3.groq_ocr_call only_groq_key img :: rest)
  ∧ Part000_2.handler basic_host only_groq_key unreachable (event_post img)
    = (error_500 e, [Part000_2.groq_ocr_call only_groq_key img]).
Proof.
  intros e img.
  destruct (ocr_fallback basic_host only_groq_key unreachable (event_post img) img e)
    as [H3 H2]; [done|done|done|].
  split; [by apply H3|]. by apply H2.
Defined.

(** X25.  A POST whose body is not JSON, or is the JSON [null], makes
    the three handlers on Netlify events answer 500 with the message of
    the engine's error, before any call: the exception of [JSON.parse] or
    of the destructuring is caught by the handler's own [catch]. *)
Theorem unreadable_event_body (E : Engine) (env : Env) (up : Upstream) (ev : Event) :
  httpMethod ev = POST → event_image (ev_body ev) = None →
  let answer :=
    (error_500 {| message := [Lit (fault_message E (body_fault (ev_body ev)))] |}, []) in
  NetlifyPipeline.handler E env up ev = answer
  ∧ Part000_2.handler E env up ev = answer
  ∧ Part000_3.handler E env up ev = answer.
Proof.
  intros Hm Hi answer. split; [by apply netlify_bad_body|].
  split; [by apply part000_2_bad_body|by apply part000_3_bad_body].
Qed.

Lemma unreadable_event_body_witness :
  NetlifyPipeline.handler basic_host both_keys unreachable malformed_post
  = (json 500 [("error", FText [Lit (u "Unexpected token")])], []).
Proof.
  exact (proj1 (unreadable_event_body basic_host both_keys unreachable malformed_post
                  eq_refl eq_refl)).
Defined.

(** X26.  The status 502.  In api/pipeline.js and in the first handler
    of part_000 a 502 answer means that the last upstream call was answered
    with a status that is not ok, and its [detail] field holds the first
    400 code units of that reply's body; conversely, when the reply to the
    last call of a run is not ok the answer is 502, and when that call is
    rejected it is 500.  The four other handlers never answer 502: when
    the last call of a run is rejected or answered with a status that is
    not ok, the answer is 500.  (In the second and third handlers of
    part_000 a failed primary OCR call is followed by the fallback call,
    which is then the last call of the run.) *)
Theorem bad_gateway_answers (E : Engine) (env : Env) (up : Upstream)
    (req : Req) (req1 : Part001.Request) (ev : Event) :
  (bad_gateway up (ApiPipeline.handler E env up req)
   ∧ bad_gateway up (Part000_1.handler E env up req)
   ∧ statusCode (Part001.handler E env up req1).1 ≠ 502%N
   ∧ statusCode (NetlifyPipeline.handler E env up ev).1 ≠ 502%N
   ∧ statusCode (Part000_2.handler E env up ev).1 ≠ 502%N
   ∧ statusCode (Part000_3.handler E env up ev).1 ≠ 502%N)
  ∧ (last_call_failed up 502 (ApiPipeline.handler E env up req)
     ∧ last_call_failed up 502 (Part000_1.handler E env up req)
     ∧ last_call_failed up 500 (Part001.handler E env up req1)
     ∧ last_call_failed up 500 (NetlifyPipeline.handler E env up ev)
     ∧ last_call_failed up 500 (Part000_2.handler E env up ev)
     ∧ last_call_failed up 500 (Part000_3.handler E env up ev)).
Proof.
  split.
  - split; [apply api_bad_gateway|]. split; [apply part000_1_bad_gateway|].
    split; [apply part001_never_502|]. split; [apply netlify_never_502|].
    split; [apply part000_2_never_502|apply part000_3_never_502].
  - split; [apply any_call_last, api_any_call|]. split; [apply part000_1_last_call|].
    split; [apply any_call_last, part001_any_call|].
    split; [apply any_call_last, netlify_any_call|].
    split; [apply part000_2_last_call|apply part000_3_last_call].
Qed.
(** ** The second OCR attempt, for every outcome of the first *)

Lemma wp_content_text (E : Engine) (r : Reply) (log : list Call) Q R :
  match transcript_of E r with Ret t => Q t log | Raise e => R e log end →
  wp (Part000_1.content_text E r) log Q R.
Proof. unfold wp. by rewrite content_text_log. Qed.

Ltac transcript_step :=
  first [ wp_step
        | apply wp_content_text;
          lazymatch goal with |- match ?t with _ => _ end => destruct t eqn:? end ].

Section Part001Attempts.
Import Part001.
Context (E : Engine) (env : Env) (up : Upstream).

Lemma part001_attempts (req : Request) (b : JsVal) :
  let key := getenv env "OPENROUTER_API_KEY" in
  let img := body_field b "imageDataUrl" in
  method req = POST → parsed req = Some b →
  invalid_image img = false → string_length img ≤ 6000000 → truthy key = true →
  ocr_calls (handler E env up req).2 =
    match up 0%nat (payloadA key img) with
    | Rejected _ => [payloadA key img]
    | Resolved r =>
      if ok r && isNoImageReply E (reply_string r)
      then [payloadA key img; payloadB key img]
      else [payloadA key img]
    end.
Proof.
  intros key img Hm Hp Hi Hl Hk.
  unfold handler. apply (wp_catching _ _ (λ x, ocr_calls x.2 = _)). cbn [snd].
  unfold pipeline, ocrWithQwen, callOpenRouter, explainWithGroq.
  rewrite bool_decide_true, Hp by done. fold img. rewrite Hi.
  rewrite (proj2 (Z.ltb_ge _ _) Hl). fold key. rewrite Hk. cbn [negb]. fold (payloadA key img).
  apply wp_bind, wp_bind, wp_bind, wp_fetch; cbn [length]; intros x Hx; rewrite Hx;
    [|reflexivity].
  fold (reply_string x).
  destruct (ok x); cbn [negb andb]; [|by apply wp_throw].
  apply wp_ret. destruct (isNoImageReply E (reply_string x));
    wp_run; reflexivity.
Qed.
End Part001Attempts.

Section Part000_1Attempts.
Import Part000_1.
Context (E : Engine) (env : Env) (up : Upstream).

Lemma part000_1_attempts (req : Req) :
  let key := getenv env "OPENROUTER_API_KEY" in
  let img := body_field (req_body req) "imageDataUrl" in
  method req = POST → invalid_image img = false →
  truthy key = true → truthy (getenv env "GROQ_API_KEY") = true →
  ocr_calls (handler E env up req).2 =
    match up 0%nat (ocrPayloadA key img) with
    | Rejected _ => [ocrPayloadA key img]
    | Resolved r =>
      if negb (ok r) then [ocrPayloadA key img; ocrPayloadB key img]
      else match transcript_of E r with
           | Ret t =>
             if unprintable t then [ocrPayloadA key img]
             else if negative_reply t || negb (truthy t)
             then [ocrPayloadA key img; ocrPayloadB key img]
             else [ocrPayloadA key img]
           | Raise _ => [ocrPayloadA key img]
           end
    end.
Proof.
  intros key img Hm Hi Hk Hg.
  unfold handler. apply (wp_catching _ _ (λ x, ocr_calls x.2 = _)). cbn [snd].
  unfold pipeline, attemptA, regex_test, explain.
  rewrite bool_decide_true by done. fold img. rewrite Hi. fold key. rewrite Hk, Hg.
  cbn [negb].
  apply wp_bind, wp_bind, wp_fetch; cbn [length]; intros x Hx; rewrite Hx; [|reflexivity].
  destruct (ok x); cbn [negb].
  - apply wp_bind, wp_content_text. destruct (transcript_of E x) as [t|e]; [|reflexivity].
    apply wp_bind. destruct (unprintable t) eqn:Hu; [reflexivity|].
    apply wp_ret, wp_ret.
    destruct (negative_reply t || negb (truthy t)) eqn:Hneg.
    + cbn [truthy negb]. repeat transcript_step; reflexivity.
    + apply orb_false_iff in Hneg as [_ Ht]. rewrite Ht.
      repeat transcript_step; reflexivity.
  - apply wp_ret. cbn [truthy negb]. repeat transcript_step; reflexivity.
Qed.
End Part000_1Attempts.

(** C6, as amended.  In the first handler of part_000, for a POST with a
    valid image and both credentials, the second OCR model is called
    exactly when the first request is answered with a failure status, or
    is answered with a transcript that is empty or whose text matches one
    of "provide the image", "no image", "can't see", "cannot see" in any
    letter case.  It is not called when the first [fetch] rejects, when
    reading the transcript throws, or when the transcript is a value that
    has no conversion to a string for the test.  In part_001, for a POST
    with a valid image of at most 6000000 code units and the OpenRouter
    credential, the second payload format is sent exactly when the first
    call is answered with a success status and a text that is empty or
    blank or holds, in lower case, "provide the image", "no image" or
    "cannot see"; a rejected [fetch] or a failure status ends the OCR
    there.  In every other case the run makes exactly one OCR call. *)
Theorem second_ocr_attempt (E : Engine) (env : Env) (up : Upstream) :
  let key := getenv env "OPENROUTER_API_KEY" in
  (∀ req,
     let img := body_field (req_body req) "imageDataUrl" in
     method req = POST → invalid_image img = false →
     truthy key = true → truthy (getenv env "GROQ_API_KEY") = true →
     ocr_calls (Part000_1.handler E env up req).2 =
       match up 0%nat (Part000_1.ocrPayloadA key img) with
       | Rejected _ => [Part000_1.ocrPayloadA key img]
       | Resolved r =>
         if negb (ok r) then [Part000_1.ocrPayloadA key img; Part000_1.ocrPayloadB key img]
         else match transcript_of E r with
              | Ret t =>
                if Part000_1.unprintable t then [Part000_1.ocrPayloadA key img]
                else if Part000_1.negative_reply t || negb (truthy t)
                then [Part000_1.ocrPayloadA key img; Part000_1.ocrPayloadB key img]
                else [Part000_1.ocrPayloadA key img]
              | Raise _ => [Part000_1.ocrPayloadA key img]
              end
       end)
  ∧ (∀ req b,
     let img := body_field b "imageDataUrl" in
     Part001.method req = POST → Part001.parsed req = Some b →
     invalid_image img = false → string_length img ≤ 6000000 → truthy key = true →
     ocr_calls (Part001.handler E env up req).2 =
       match up 0%nat (Part001.payloadA key img) with
       | Rejected _ => [Part001.payloadA key img]
       | Resolved r =>
         if ok r && Part001.isNoImageReply E (reply_string r)
         then [Part001.payloadA key img; Part001.payloadB key img]
         else [Part001.payloadA key img]
       end).
Proof.
  intros key. split.
  - intros req img. by apply part000_1_attempts.
  - intros req b img. by apply part001_attempts.
Qed.

Lemma second_ocr_attempt_witness :
  let key := JStr (u "or-key") in
  let img := JStr tiny_image in
  let odd := JArr [JObj {[ u "toString" := JNum (S754_zero false) ]}; JStr (u "no image")] in
  (ocr_calls (Part001.handler basic_host both_keys
                (answering (reply_with 200 (JStr (u "Sorry, there is NO IMAGE here."))))
                (fetch_post img)).2
   = [Part001.payloadA key img; Part001.payloadB key img]
   ∧ ocr_calls (Part001.handler basic_host both_keys
                  (answering (reply_with 200 (JStr (u "x^2 + 1 = 0"))))
                  (fetch_post img)).2
     = [Part001.payloadA key img]
   ∧ ocr_calls (Part001.handler basic_host both_keys unreachable (fetch_post img)).2
     = [Part001.payloadA key img])
  ∧ (ocr_calls (Part000_1.handler basic_host both_keys
                  (answering (reply_with 503 JNull)) (express_post img)).2
     = [Part000_1.ocrPayloadA key img; Part000_1.ocrPayloadB key img]
     ∧ ocr_calls (Part000_1.handler basic_host both_keys unreachable (express_post img)).2
       = [Part000_1.ocrPayloadA key img]
     ∧ ocr_calls (Part000_1.handler basic_host both_keys
                    (answering (reply_with 200 odd)) (express_post img)).2
       = [Part000_1.ocrPayloadA key img]).
Proof.
  intros key img odd. split; (split; [|split]).
  - etrans; [apply (proj2 (second_ocr_attempt basic_host both_keys
                             (answering (reply_with 200
                                (JStr (u "Sorry, there is NO IMAGE here.")))))
                      (fetch_post img) (image_body img));
             first [reflexivity | by vm_compute]|by vm_compute].
  - etrans; [apply (proj2 (second_ocr_attempt basic_host both_keys
                             (answering (reply_with 200 (JStr (u "x^2 + 1 = 0")))))
                      (fetch_post img) (image_body img));
             first [reflexivity | by vm_compute]|by vm_compute].
  - etrans; [apply (proj2 (second_ocr_attempt basic_host both_keys unreachable)
                      (fetch_post img) (image_body img));
             first [reflexivity | by vm_compute]|by vm_compute].
  - etrans; [apply (proj1 (second_ocr_attempt basic_host both_keys
                             (answering (reply_with 503 JNull)))
                      (express_post img));
             first [reflexivity | by vm_compute]|by vm_compute].
  - etrans; [apply (proj1 (second_ocr_attempt basic_host both_keys unreachable)
                      (express_post img));
             first [reflexivity | by vm_compute]|by vm_compute].
  - etrans; [apply (proj1 (second_ocr_attempt basic_host both_keys
                             (answering (reply_with 200 odd)))
                      (express_post img));
             first [reflexivity | by vm_compute]|by vm_compute].
Defined.

(** C6, as stated, fails on the first handler of part_000: the reply
    "I can't see the picture" is not empty and holds none of "no image",
    "cannot see", "provide the image", and the second model is called. *)
Lemma cant_see_calls_second_model :
  let reply := u "I can't see the picture" in
  let key := JStr (u "or-key") in
  let img := JStr tiny_image in
  reply ≠ []
  ∧ includes_ci reply (u "no image") = false
  ∧ includes_ci reply (u "cannot see") = false
  ∧ includes_ci reply (u "provide the image") = false
  ∧ ocr_calls (Part000_1.handler basic_host both_keys
                 (answering (reply_with 200 (JStr reply))) (express_post img)).2
    = [Part000_1.ocrPayloadA key img; Part000_1.ocrPayloadB key img].
Proof. repeat split; by vm_compute. Qed.
(** ** Failure responses, by cause *)

Lemma catching_raise (m : M Response) (h : Exn → Response) (e : Exn) (log : list Call) :
  m [] = (Raise e, log) → catching m h = (h e, log).
Proof. intros H. unfold catching. by rewrite H. Qed.

Section Causes.
Context (E : Engine) (env : Env) (up : Upstream).

Lemma api_no_openrouter_key (req : Req) :
  method req = POST → invalid_image (body_field (req_body req) "imageDataUrl") = false →
  truthy (getenv env "OPENROUTER_API_KEY") = false →
  ApiPipeline.handler E env up req = (json 500 (error_tag "missing_openrouter_key"), []).
Proof.
  intros Hm Hi Hk. unfold ApiPipeline.handler, ApiPipeline.pipeline.
  by rewrite bool_decide_true, Hi, Hk.
Qed.

Lemma part001_no_openrouter_key (req : Part001.Request) (b : JsVal) :
  Part001.method req = POST → Part001.parsed req = Some b →
  invalid_image (body_field b "imageDataUrl") = false →
  string_length (body_field b "imageDataUrl") ≤ 6000000 →
  truthy (getenv env "OPENROUTER_API_KEY") = false →
  Part001.handler E env up req = (json 500 (error_tag "missing_openrouter_key"), []).
Proof.
  intros Hm Hp Hi Hl Hk. unfold Part001.handler, Part001.pipeline.
  by rewrite bool_decide_true, Hp, Hi, (proj2 (Z.ltb_ge _ _) Hl), Hk.
Qed.

Lemma part000_1_no_openrouter_key (req : Req) :
  method req = POST → invalid_image (body_field (req_body req) "imageDataUrl") = false →
  truthy (getenv env "OPENROUTER_API_KEY") = false →
  Part000_1.handler E env up req = (json 500 (error_tag "missing_openrouter_key"), []).
Proof.
  intros Hm Hi Hk. unfold Part000_1.handler, Part000_1.pipeline.
  by rewrite bool_decide_true, Hi, Hk.
Qed.

Lemma api_no_groq_key (req : Req) :
  let key := getenv env "OPENROUTER_API_KEY" in
  let img := body_field (req_body req) "imageDataUrl" in
  method req = POST → invalid_image img = false → truthy key = true →
  truthy (getenv env "GROQ_API_KEY") = false →
  statusCode (ApiPipeline.handler E env up req).1 =
    match up 0%nat (ApiPipeline.ocr_call key img) with
    | Rejected _ => 500%N
    | Resolved r => if ok r then 500%N else 502%N
    end.
Proof.
  intros key img Hm Hi Hk Hg. subst key img. unfold ApiPipeline.handler.
  apply (wp_catching _ _ (λ x, statusCode x.1 = _)).
  unfold ApiPipeline.pipeline, reply_json, opt_trim.
  rewrite bool_decide_true, Hi, Hk by done. cbn [negb].
  apply wp_bind, wp_fetch; cbn [length]; intros x Hx; rewrite Hx; [|reflexivity].
  destruct (ok x); cbn [negb]; [|by apply wp_ret].
  wp_run; try discriminate; try (rewrite Hg in *; discriminate); reflexivity.
Qed.

Lemma netlify_not_data_url (ev : Event) (img : JsVal) :
  httpMethod ev = POST → event_image (ev_body ev) = Some img → truthy img = true →
  (∀ url, img = JStr url → startsWith url (u "data:") = false) →
  statusCode (NetlifyPipeline.handler E env up ev).1 = 500%N
  ∧ (NetlifyPipeline.handler E env up ev).2 = [].
Proof.
  intros Hm Hi Ht Hurl. rewrite (netlify_handler_respond E env up ev img Hm Hi).
  apply (wp_catching _ _ (λ x, statusCode x.1 = 500%N ∧ x.2 = [])).
  unfold NetlifyPipeline.respond, NetlifyPipeline.runOCRWithOpenRouter,
    NetlifyPipeline.dataUrlToParts, as_string.
  rewrite Ht. cbn [negb].
  destruct img as [| | | |url| |]; try (by wp_run).
  apply wp_bind, wp_bind. cbn [negb]. apply wp_ret. cbv beta. rewrite (Hurl url eq_refl). cbn [negb]. by wp_run.
Qed.

Lemma netlify_calls_unchecked (ev : Event) (url : jsstring) :
  httpMethod ev = POST → event_image (ev_body ev) = Some (JStr url) →
  url ≠ [] → startsWith url (u "data:") = true →
  head (NetlifyPipeline.handler E env up ev).2 = Some (NetlifyPipeline.ocr_call env (JStr url)).
Proof.
  intros Hm Hi Hne Hs. rewrite (netlify_handler_respond E env up ev _ Hm Hi).
  apply (wp_catching _ _ (λ x, head x.2 = Some _)).
  unfold NetlifyPipeline.respond, NetlifyPipeline.runOCRWithOpenRouter,
    NetlifyPipeline.dataUrlToParts, NetlifyPipeline.runExplainWithGroq,
    NetlifyPipeline.trimmed_or_empty, as_string, reply_json.
  assert (truthy (JStr url) = true) as -> by (by destruct url).
  cbn [negb]. apply wp_bind, wp_bind. cbn [negb]. apply wp_ret. cbv beta.
  rewrite Hs. cbn [negb].
  wp_run; reflexivity.
Qed.
End Causes.

(** C7, as amended.  Every response of the six handlers has status 200,
    or an [error] field and one of the statuses 400, 405, 413, 500, 502.
    The status follows the cause.  A method other than POST gives 405.
    An image that is missing or no [data:image/] URL gives 400 in
    api/pipeline.js, part_001 and the first handler of part_000, as does a
    body that is no JSON in part_001; the handlers on Netlify events
    answer 400 only to a falsy [imageDataUrl], and
    netlify/functions/pipeline.js answers 500, without any call, to one
    that is truthy and no [data:] URL.  An oversized image (part_001)
    gives 413.  A missing credential gives 500, whichever of the two it
    is, in api/pipeline.js, part_001 and the first handler of part_000;
    api/pipeline.js notices a missing Groq credential after the OCR call
    only, so that a failed OCR reply is answered first, and
    netlify/functions/pipeline.js checks no credential.  An exception
    of the handler body, among them every rejected [fetch], gives 500.  A
    failed reply to any upstream call gives 502 in api/pipeline.js, and
    500 in part_001 and netlify/functions/pipeline.js, where it is
    thrown. *)
Theorem failure_responses (E : Engine) (env : Env) (up : Upstream) :
  (* the shape of every response *)
  ((∀ req, success_or_failure (ApiPipeline.handler E env up req).1)
   ∧ (∀ ev, success_or_failure (NetlifyPipeline.handler E env up ev).1)
   ∧ (∀ req, success_or_failure (Part001.handler E env up req).1)
   ∧ (∀ req, success_or_failure (Part000_1.handler E env up req).1)
   ∧ (∀ ev, success_or_failure (Part000_2.handler E env up ev).1)
   ∧ (∀ ev, success_or_failure (Part000_3.handler E env up ev).1))
  (* wrong method: 405 *)
  ∧ ((∀ req, method req ≠ POST → statusCode (ApiPipeline.handler E env up req).1 = 405%N)
     ∧ (∀ ev, httpMethod ev ≠ POST →
          statusCode (NetlifyPipeline.handler E env up ev).1 = 405%N)
     ∧ (∀ req, Part001.method req ≠ POST →
          statusCode (Part001.handler E env up req).1 = 405%N)
     ∧ (∀ req, method req ≠ POST → statusCode (Part000_1.handler E env up req).1 = 405%N)
     ∧ (∀ ev, httpMethod ev ≠ POST → statusCode (Part000_2.handler E env up ev).1 = 405%N)
     ∧ (∀ ev, httpMethod ev ≠ POST → statusCode (Part000_3.handler E env up ev).1 = 405%N))
  (* invalid input: 400 *)
  ∧ ((∀ req, method req = POST →
        invalid_image (body_field (req_body req) "imageDataUrl") = true →
        statusCode (ApiPipeline.handler E env up req).1 = 400%N
        ∧ statusCode (Part000_1.handler E env up req).1 = 400%N)
     ∧ (∀ req, Part001.method req = POST → Part001.parsed req = None →
        statusCode (Part001.handler E env up req).1 = 400%N)
     ∧ (∀ req b, Part001.method req = POST → Part001.parsed req = Some b →
        invalid_image (body_field b "imageDataUrl") = true →
        statusCode (Part001.handler E env up req).1 = 400%N)
     ∧ (∀ ev img, httpMethod ev = POST → event_image (ev_body ev) = Some img →
        truthy img = false →
        statusCode (NetlifyPipeline.handler E env up ev).1 = 400%N
        ∧ statusCode (Part000_2.handler E env up ev).1 = 400%N
        ∧ statusCode (Part000_3.handler E env up ev).1 = 400%N)
     ∧ (∀ ev img, httpMethod ev = POST → event_image (ev_body ev) = Some img →
        truthy img = true →
        (∀ url, img = JStr url → startsWith url (u "data:") = false) →
        statusCode (NetlifyPipeline.handler E env up ev).1 = 500%N
        ∧ (NetlifyPipeline.handler E env up ev).2 = []))
  (* oversized payload: 413 *)
  ∧ (∀ req b, Part001.method req = POST → Part001.parsed req = Some b →
       invalid_image (body_field b "imageDataUrl") = false →
       6000000 < string_length (body_field b "imageDataUrl") →
       statusCode (Part001.handler E env up req).1 = 413%N)
  (* missing credentials: 500 *)
  ∧ ((∀ req, method req = POST →
        invalid_image (body_field (req_body req) "imageDataUrl") = false →
        truthy (getenv env "OPENROUTER_API_KEY") = false →
        statusCode (ApiPipeline.handler E env up req).1 = 500%N
        ∧ statusCode (Part000_1.handler E env up req).1 = 500%N)
     ∧ (∀ req b, Part001.method req = POST → Part001.parsed req = Some b →
        invalid_image (body_field b "imageDataUrl") = false →
        string_length (body_field b "imageDataUrl") ≤ 6000000 →
        truthy (getenv env "OPENROUTER_API_KEY") = false →
        statusCode (Part001.handler E env up req).1 = 500%N)
     ∧ (∀ req, method req = POST →
        invalid_image (body_field (req_body req) "imageDataUrl") = false →
        truthy (getenv env "OPENROUTER_API_KEY") = true →
        truthy (getenv env "GROQ_API_KEY") = false →
        statusCode (ApiPipeline.handler E env up req).1 =
          match up 0%nat (ApiPipeline.ocr_call (getenv env "OPENROUTER_API_KEY")
                            (body_field (req_body req) "imageDataUrl")) with
          | Rejected _ => 500%N
          | Resolved r => if ok r then 500%N else 502%N
          end
        ∧ statusCode (Part000_1.handler E env up req).1 = 500%N)
     ∧ (∀ req b, Part001.method req = POST → Part001.parsed req = Some b →
        invalid_image (body_field b "imageDataUrl") = false →
        string_length (body_field b "imageDataUrl") ≤ 6000000 →
        truthy (getenv env "OPENROUTER_API_KEY") = true →
        truthy (getenv env "GROQ_API_KEY") = false →
        statusCode (Part001.handler E env up req).1 = 500%N)
     (* netlify/functions/pipeline.js checks no credential: it calls *)
     ∧ (∀ ev url, httpMethod ev = POST → event_image (ev_body ev) = Some (JStr url) →
        url ≠ [] → startsWith url (u "data:") = true →
        head (NetlifyPipeline.handler E env up ev).2
        = Some (NetlifyPipeline.ocr_call env (JStr url))))
  (* an exception of the handler body: 500 *)
  ∧ ((∀ req e log, ApiPipeline.pipeline E env up req [] = (Raise e, log) →
        ApiPipeline.handler E env up req = (json 500 (error_tag "pipeline_exception"), log))
     ∧ (∀ req e log, Part001.pipeline E env up req [] = (Raise e, log) →
        Part001.handler E env up req = (json 500 (error_tag "pipeline_exception"), log))
     ∧ (∀ req e log, Part000_1.pipeline E env up req [] = (Raise e, log) →
        Part000_1.handler E env up req = (json 500 (error_tag "pipeline_exception"), log))
     ∧ (∀ ev e log, NetlifyPipeline.pipeline E env up ev [] = (Raise e, log) →
        NetlifyPipeline.handler E env up ev = (error_500 e, log))
     ∧ (∀ ev e log, Part000_2.pipeline E env up ev [] = (Raise e, log) →
        Part000_2.handler E env up ev = (error_500 e, log))
     ∧ (∀ ev e log, Part000_3.pipeline E env up ev [] = (Raise e, log) →
        Part000_3.handler E env up ev = (error_500 e, log)))
  (* a rejected call: 500; a failed upstream reply: 502 where it is
     answered, 500 where it is thrown *)
  ∧ ((∀ req, any_call_failed up 502 (ApiPipeline.handler E env up req))
     ∧ (∀ req, any_call_failed up 500 (Part001.handler E env up req))
     ∧ (∀ ev, any_call_failed up 500 (NetlifyPipeline.handler E env up ev))).
Proof.
  split; [|split; [|split; [|split; [|split; [|split]]]]].
  - repeat split; intros.
    + apply api_shape.
    + apply netlify_shape.
    + apply part001_shape.
    + apply part000_1_shape.
    + apply part000_2_shape.
    + apply part000_3_shape.
  - repeat split; intros.
    + by rewrite api_wrong_method.
    + by rewrite netlify_wrong_method.
    + by rewrite part001_wrong_method.
    + by rewrite part000_1_wrong_method.
    + by rewrite part000_2_wrong_method.
    + by rewrite part000_3_wrong_method.
  - split; [|split; [|split; [|split]]].
    + intros req Hm Hi. by rewrite api_invalid_image, part000_1_invalid_image.
    + intros req Hm Hp. by rewrite part001_invalid_json.
    + intros req b Hm Hp Hi. by erewrite part001_invalid_image.
    + intros ev img Hm Hi Ht.
      by erewrite netlify_missing_image, part000_2_missing_image, part000_3_missing_image.
    + intros ev img. apply netlify_not_data_url.
  - intros req b Hm Hp Hi Hl. by erewrite part001_too_large.
  - split; [|split; [|split; [|split]]].
    + intros req Hm Hi Hk. by rewrite api_no_openrouter_key, part000_1_no_openrouter_key.
    + intros req b Hm Hp Hi Hl Hk. by erewrite part001_no_openrouter_key.
    + intros req Hm Hi Hk Hg. split; [by apply api_no_groq_key|].
      by rewrite part000_1_missing_groq_key.
    + intros req b Hm Hp Hi Hl Hk Hg.
      by apply (part001_missing_groq_key E env up Hg req b).
    + intros ev url. apply netlify_calls_unchecked.
  - repeat split; intros;
      unfold ApiPipeline.handler, Part001.handler, Part000_1.handler, NetlifyPipeline.handler,
        Part000_2.handler, Part000_3.handler;
      match goal with H : _ = (Raise _, _) |- _ => by rewrite (catching_raise _ _ _ _ H) end.
  - split; [|split]; intros.
    + apply api_any_call.
    + apply part001_any_call.
    + apply netlify_any_call.
Qed.

Lemma failure_responses_witness :
  let img := JStr tiny_image in
  statusCode (ApiPipeline.handler basic_host both_keys explanation_fails (express_post img)).1
    = 502%N
  ∧ statusCode (Part001.handler basic_host both_keys explanation_fails (fetch_post img)).1
    = 500%N
  ∧ statusCode (NetlifyPipeline.handler basic_host both_keys explanation_fails
                  (event_post img)).1 = 500%N
  ∧ statusCode (ApiPipeline.handler basic_host only_openrouter_key
                  (answering (reply_with 200 (JStr (u "2+2")))) (express_post img)).1 = 500%N
  ∧ statusCode (NetlifyPipeline.handler basic_host both_keys unreachable
                  (event_post (JStr (u "hello")))).1 = 500%N
  ∧ statusCode (ApiPipeline.handler basic_host both_keys unreachable
                  {| method := u "GET"; req_body := JUndefined |}).1 = 405%N.
Proof.
  intros img.
  pose proof (failure_responses basic_host both_keys explanation_fails)
    as (_ & _ & _ & _ & _ & _ & Hapi & Hfetch & Hevent).
  pose proof (failure_responses basic_host only_openrouter_key
                (answering (reply_with 200 (JStr (u "2+2")))))
    as (_ & _ & _ & _ & (_ & _ & Hgroq & _ & _) & _).
  pose proof (failure_responses basic_host both_keys unreachable)
    as (_ & (Hmethod & _) & (_ & _ & _ & _ & Hurl) & _).
  split; [|split; [|split; [|split; [|split]]]].
  - apply (Hapi (express_post img) 1%nat
             (ApiPipeline.explain_call (JStr (u "groq-key")) (JStr (u "2+2"))));
      by vm_compute.
  - apply (Hfetch (fetch_post img) 1%nat
             (Part001.explain_call (JStr (u "groq-key")) (u "2+2")));
      by vm_compute.
  - apply (Hevent (event_post img) 1%nat
             (NetlifyPipeline.explain_call both_keys (u "2+2") (JBool true)));
      by vm_compute.
  - apply (proj1 (Hgroq (express_post img) eq_refl eq_refl eq_refl eq_refl)).
  - apply (proj1 (Hurl (event_post (JStr (u "hello"))) (JStr (u "hello"))
                    eq_refl eq_refl eq_refl
                    (λ url Heq, match Heq in _ = v return
                                  match v with JStr s => startsWith s (u "data:") = false
                                          | _ => True end
                                with eq_refl => eq_refl end))).
  - apply Hmethod. by vm_compute.
Defined.

(** C7, as stated, fails on part_001: a failed upstream reply (here 503)
    is answered 500, not 502. *)
Lemma part001_upstream_failure_is_500 :
  ok (reply_with 503 JNull) = false
  ∧ statusCode (Part001.handler basic_host both_keys (answering (reply_with 503 JNull))
                  (fetch_post (JStr tiny_image))).1 = 500%N.
Proof. split; vm_compute; reflexivity. Qed.
(** ** The explanation call of the handlers on Netlify events *)

Lemma wp_bind_ret {A B} (m : M A) (f : A → M B) (log0 log : list Call) (a : A) Q R :
  m log0 = (Ret a, log) → wp (f a) log Q R → wp (m ≫= f) log0 Q R.
Proof. intros H. unfold wp, mbind, M_bind. by rewrite H. Qed.

Lemma math_is_truthy (t : jsstring) :
  has_math t = true → negb (truthy (JStr t)) || negb (has_math t) = false.
Proof. intros H. rewrite H. by destruct t. Qed.

Section Explains.
Context (E : Engine) (env : Env) (up : Upstream).

Lemma netlify_explains (ev : Event) (img : JsVal) (text : jsstring) (log : list Call) :
  httpMethod ev = POST → event_image (ev_body ev) = Some img → truthy img = true →
  NetlifyPipeline.runOCRWithOpenRouter E env up img [] = (Ret text, log) →
  has_math text = true →
  (NetlifyPipeline.handler E env up ev).2
  = log ++ [NetlifyPipeline.explain_call env text (event_step (ev_body ev))].
Proof.
  intros Hm Hi Ht Hocr Hmath. rewrite (netlify_handler_respond E env up ev _ Hm Hi).
  apply (wp_catching _ _ (λ x, x.2 = _)). unfold NetlifyPipeline.respond.
  rewrite Ht. cbn [negb]. eapply wp_bind_ret; [exact Hocr|].
  rewrite (math_is_truthy _ Hmath).
  unfold NetlifyPipeline.runExplainWithGroq, NetlifyPipeline.trimmed_or_empty,
    as_string, reply_json.
  wp_run; reflexivity.
Qed.

Lemma part000_2_explains (ev : Event) (img : JsVal) (text : jsstring) (log : list Call) :
  httpMethod ev = POST → event_image (ev_body ev) = Some img → truthy img = true →
  Part000_2.ocr_stage E env up img [] = (Ret text, log) →
  has_math text = true →
  (Part000_2.handler E env up ev).2
  = log ++ [Part000_2.explain_call env text (event_step (ev_body ev))].
Proof.
  intros Hm Hi Ht Hocr Hmath. rewrite (part000_2_handler_respond E env up ev _ Hm Hi).
  apply (wp_catching _ _ (λ x, x.2 = _)). unfold Part000_2.respond.
  rewrite Ht. cbn [negb]. eapply wp_bind_ret; [exact Hocr|].
  rewrite (math_is_truthy _ Hmath).
  unfold Part000_2.explainWithGroq, as_string, reply_json.
  wp_run; reflexivity.
Qed.

Lemma part000_3_explains (ev : Event) (img : JsVal) (text : jsstring) (log : list Call) :
  httpMethod ev = POST → event_image (ev_body ev) = Some img → truthy img = true →
  Part000_3.ocr_stage E env up img [] = (Ret text, log) →
  has_math text = true →
  (Part000_3.handler E env up ev).2
  = log ++ [Part000_3.explain_call env text (event_step (ev_body ev))].
Proof.
  intros Hm Hi Ht Hocr Hmath. rewrite (part000_3_handler_respond E env up ev _ Hm Hi).
  apply (wp_catching _ _ (λ x, x.2 = _)). unfold Part000_3.respond.
  rewrite Ht. cbn [negb]. eapply wp_bind_ret; [exact Hocr|].
  rewrite (math_is_truthy _ Hmath).
  unfold Part000_3.runExplainWithGroq, as_string, reply_json.
  wp_run; reflexivity.
Qed.
End Explains.

(** C10.  In the three handlers that read [stepByStep], a body without
    the property is handled as the same body with [stepByStep: true]: the
    runs are equal; every call of the run is an OCR call or the
    explanation call whose user message is the step-by-step prompt; and
    when the request is a POST with an image and the OCR stage returns a
    transcript that holds math, the run makes, right after the calls of
    that stage, the explanation call whose user message is the
    step-by-step prompt for this transcript. *)
Theorem step_by_step_defaults_to_true (E : Engine) (env : Env) (up : Upstream)
    (meth : jsstring) (m : gmap jsstring JsVal) :
  m !! u "stepByStep" = None →
  let omitted := {| httpMethod := meth; ev_body := Parsed (JObj m) |} in
  let explicit :=
    {| httpMethod := meth; ev_body := Parsed (JObj (<[u "stepByStep" := JBool true]> m)) |} in
  let img := get_prop (JObj m) (u "imageDataUrl") in
  (NetlifyPipeline.handler E env up omitted = NetlifyPipeline.handler E env up explicit
   ∧ Forall (λ c, c = NetlifyPipeline.ocr_call env img
                  ∨ ∃ t, c = NetlifyPipeline.explain_call env t (JBool true)
                         ∧ user_content c = Some (Plain (NetlifyPipeline.step_by_step_prompt t)))
       (NetlifyPipeline.handler E env up omitted).2
   ∧ (∀ text log, meth = POST → truthy img = true →
        NetlifyPipeline.runOCRWithOpenRouter E env up img [] = (Ret text, log) →
        has_math text = true →
        (NetlifyPipeline.handler E env up omitted).2
        = log ++ [NetlifyPipeline.explain_call env text (JBool true)]
        ∧ user_content (NetlifyPipeline.explain_call env text (JBool true))
          = Some (Plain (NetlifyPipeline.step_by_step_prompt text))))
  ∧ (Part000_2.handler E env up omitted = Part000_2.handler E env up explicit
     ∧ Forall (λ c, (c = Part000_2.groq_ocr_call env img
                     ∨ c = Part000_2.openrouter_ocr_call env img)
                    ∨ ∃ t, c = Part000_2.explain_call env t (JBool true)
                           ∧ user_content c = Some (Plain (Part000_2.step_by_step_prompt t)))
         (Part000_2.handler E env up omitted).2
     ∧ (∀ text log, meth = POST → truthy img = true →
          Part000_2.ocr_stage E env up img [] = (Ret text, log) →
          has_math text = true →
          (Part000_2.handler E env up omitted).2
          = log ++ [Part000_2.explain_call env text (JBool true)]
          ∧ user_content (Part000_2.explain_call env text (JBool true))
            = Some (Plain (Part000_2.step_by_step_prompt text))))
  ∧ (Part000_3.handler E env up omitted = Part000_3.handler E env up explicit
     ∧ Forall (λ c, (c = Part000_3.openrouter_ocr_call env img
                     ∨ c = Part000_3.groq_ocr_call env img)
                    ∨ ∃ t, c = Part000_3.explain_call env t (JBool true)
                           ∧ user_content c = Some (Plain (Part000_3.step_by_step_prompt t)))
         (Part000_3.handler E env up omitted).2
     ∧ (∀ text log, meth = POST → truthy img = true →
          Part000_3.ocr_stage E env up img [] = (Ret text, log) →
          has_math text = true →
          (Part000_3.handler E env up omitted).2
          = log ++ [Part000_3.explain_call env text (JBool true)]
          ∧ user_content (Part000_3.explain_call env text (JBool true))
            = Some (Plain (Part000_3.step_by_step_prompt text)))).
Proof.
  intros Hm omitted explicit img.
  destruct (destructure_default E m Hm) as [Hd Hs].
  assert (Hi : event_image (ev_body omitted) = Some img) by reflexivity.
  split; [|split]; (split; [|split]).
  - unfold NetlifyPipeline.handler, NetlifyPipeline.pipeline, explicit, omitted.
    cbn [httpMethod ev_body parse_body]. unfold mbind, M_bind, mret, M_ret.
    by rewrite Hd.
  - destruct (decide (meth = POST)) as [Hp|Hp].
    + pose proof (netlify_all_calls E env up omitted img Hp Hi) as H.
      eapply Forall_impl; [exact H|]. cbn beta. intros c [->|[t ->]]; [by left|right].
      exists t. cbn [ev_body omitted]. by rewrite Hs.
    + by rewrite netlify_wrong_method.
  - intros text log Hp Ht Hocr Hmath. split; [|reflexivity].
    rewrite (netlify_explains E env up omitted img text log Hp Hi Ht Hocr Hmath).
    cbn [ev_body omitted]. by rewrite Hs.
  - unfold Part000_2.handler, Part000_2.pipeline, explicit, omitted.
    cbn [httpMethod ev_body parse_body]. unfold mbind, M_bind, mret, M_ret.
    by rewrite Hd.
  - destruct (decide (meth = POST)) as [Hp|Hp].
    + pose proof (part000_2_all_calls E env up omitted img Hp Hi) as H.
      eapply Forall_impl; [exact H|]. cbn beta. intros c [?|[t ->]]; [by left|right].
      exists t. cbn [ev_body omitted]. by rewrite Hs.
    + by rewrite part000_2_wrong_method.
  - intros text log Hp Ht Hocr Hmath. split; [|reflexivity].
    rewrite (part000_2_explains E env up omitted img text log Hp Hi Ht Hocr Hmath).
    cbn [ev_body omitted]. by rewrite Hs.
  - unfold Part000_3.handler, Part000_3.pipeline, explicit, omitted.
    cbn [httpMethod ev_body parse_body]. unfold mbind, M_bind, mret, M_ret.
    by rewrite Hd.
  - destruct (decide (meth = POST)) as [Hp|Hp].
    + pose proof (part000_3_all_calls E env up omitted img Hp Hi) as H.
      eapply Forall_impl; [exact H|]. cbn beta. intros c [?|[t ->]]; [by left|right].
      exists t. cbn [ev_body omitted]. by rewrite Hs.
    + by rewrite part000_3_wrong_method.
  - intros text log Hp Ht Hocr Hmath. split; [|reflexivity].
    rewrite (part000_3_explains E env up omitted img text log Hp Hi Ht Hocr Hmath).
    cbn [ev_body omitted]. by rewrite Hs.
Qed.

Lemma step_by_step_defaults_to_true_witness :
  let m : gmap jsstring JsVal := {[ u "imageDataUrl" := JStr tiny_image ]} in
  let up := answering (reply_with 200 (JStr (u "2+2"))) in
  let omitted := {| httpMethod := POST; ev_body := Parsed (JObj m) |} in
  m !! u "stepByStep" = None
  ∧ NetlifyPipeline.handler basic_host both_keys up omitted
    = NetlifyPipeline.handler basic_host both_keys up
        {| httpMethod := POST;
           ev_body := Parsed (JObj (<[u "stepByStep" := JBool true]> m)) |}
  ∧ (NetlifyPipeline.handler basic_host both_keys up omitted).2
    = [NetlifyPipeline.ocr_call both_keys (JStr tiny_image)]
      ++ [NetlifyPipeline.explain_call both_keys (u "2+2") (JBool true)]
  ∧ user_content (NetlifyPipeline.explain_call both_keys (u "2+2") (JBool true))
    = Some (Plain (NetlifyPipeline.step_by_step_prompt (u "2+2"))).
Proof.
  intros m up omitted.
  assert (Hm : m !! u "stepByStep" = None) by (by vm_compute).
  pose proof (step_by_step_defaults_to_true basic_host both_keys up POST m Hm)
    as ((Hsame & _ & Hcall) & _).
  split; [exact Hm|]. split; [exact Hsame|].
  apply (Hcall (u "2+2") [NetlifyPipeline.ocr_call both_keys (JStr tiny_image)]);
    first [reflexivity | by vm_compute].
Defined.
(** ** Expressions as they are written *)

Section WrittenFacts.
Import Arith ArithSpec Written.
Context (E : Engine).

Lemma digits_Forall (s : list N) : digits s = true → Forall (λ c, is_digit c = true) s.
Proof.
  induction s as [|c s IH]; [by constructor|]. cbn [digits forallb].
  intros H. apply andb_true_iff in H as [Hc Hs]. constructor; [done|by apply IH].
Qed.

Lemma scan_integer (o : bool) (d : N) (ds : list N) (tail : jsstring) :
  Forall (λ c, is_digit c = true) (d :: ds) →
  scan (Ready o) ((d :: ds) ++ tail) = after_int (d :: ds) tail.
Proof.
  intros H. apply Forall_cons in H as [Hd Hds].
  rewrite <- app_comm_cons, (scan_ready_digit o d _ Hd).
  by rewrite after_int_digits.
Qed.

Lemma scan_number (o : bool) (ds : list N) (fs : option (list N)) (rest : jsstring) :
  number_ok ds fs = true → legacy_zero ds = false → boundary rest →
  scan (Ready o) (number_text ds fs ++ rest)
  = emit (TNum (decimal ds (fraction fs))) (scan (Ready true) rest).
Proof.
  unfold number_ok. intros H Hz Hb.
  apply andb_true_iff in H as [H Hne]. apply andb_true_iff in H as [Hds Hfs].
  apply digits_Forall in Hds, Hfs.
  destruct fs as [[|f fs]|]; cbn [fraction default from_option id number_text] in *.
  - (* ds. *)
    destruct ds as [|d ds]; [done|]. destruct Hb as [Hb1 Hb2].
    rewrite <- app_assoc, (scan_integer o d ds _ Hds). unfold after_int.
    cbn [app starts_with_digit starts_with]. change (is_digit Ch.dot) with false.
    change (Ch.dot =? Ch.dot)%N with true. cbn iota.
    rewrite scan_int_dot. unfold after_frac, emit_number. by rewrite Hb1, Hz.
  - destruct ds as [|d ds].
    + (* .fs *)
      apply Forall_cons in Hfs as [Hf Hfs]. destruct Hb as [Hb1 Hb2].
      cbn [app]. 
      assert (Hdot : scan (Ready o) (Ch.dot :: f :: fs ++ rest)
                     = scan (InFrac [] []) (f :: fs ++ rest)).
      { cbn [scan]. change (is_digit Ch.dot) with false.
        change (Ch.dot =? Ch.dot)%N with true. cbn iota.
        cbn [starts_with_digit]. by rewrite Hf. }
      rewrite Hdot, (scan_in_frac [] [] f _ Hf).
      rewrite (after_frac_digits [] fs ([] ++ [f]) rest Hfs).
      unfold after_frac, emit_number. by rewrite Hb1.
    + (* ds.fs *)
      apply (scan_literal o (d :: ds) (f :: fs) rest); [|done].
      by repeat split.
  - (* ds *)
    destruct ds as [|d ds]; [done|].
    apply (scan_literal o (d :: ds) [] rest); [|done].
    by repeat split.
Qed.

Lemma number_text_begins (ds : list N) (fs : option (list N)) (rest : jsstring) :
  number_ok ds fs = true → begins (number_text ds fs ++ rest).
Proof.
  unfold number_ok. intros H.
  apply andb_true_iff in H as [H Hne]. apply andb_true_iff in H as [Hds Hfs].
  apply digits_Forall in Hds.
  destruct ds as [|d ds].
  - destruct fs as [fs|]; [|done]. exists Ch.dot, (fs ++ rest). auto.
  - apply Forall_cons in Hds as [Hd _].
    destruct fs; cbn [number_text]; rewrite <- ?app_assoc; eexists _, _; eauto.
Qed.

Lemma text_begins (t : term) : grammatical t = true → ∀ rest, begins (text t ++ rest).
Proof.
  induction t as [ds fs|t IH|neg t IH|op a IHa b IHb]; cbn [grammatical text];
    intros Hg rest.
  - by apply number_text_begins.
  - eexists _, _; eauto.
  - destruct neg; eexists _, _; eauto 6.
  - apply andb_true_iff in Hg as [Hg _]. apply andb_true_iff in Hg as [Hg _].
    apply andb_true_iff in Hg as [Ha _]. rewrite <- app_assoc. by apply IHa.
Qed.

Lemma starts_with_begins (c : N) (t : term) (rest : jsstring) :
  grammatical t = true → starts_with c (text t ++ rest) = starts_with c (text t).
Proof.
  intros Hg. destruct (text_begins t Hg []) as (d & tail & Ht & _).
  rewrite app_nil_r in Ht. by rewrite Ht.
Qed.

Lemma begins_not_operator (c : N) :
  is_digit c = true ∨ c = Ch.dot ∨ c = Ch.lparen ∨ c = Ch.plus ∨ c = Ch.minus →
  (c =? Ch.star)%N = false ∧ (c =? Ch.slash)%N = false.
Proof.
  unfold is_digit, Ch.plus, Ch.minus, Ch.star, Ch.slash, Ch.lparen, Ch.dot, Ch.zero, Ch.nine.
  intros [H|[->|[->|[->| ->]]]]; try done.
  apply andb_true_iff in H as [H1 H2].
  apply N.leb_le in H1, H2. split; apply N.eqb_neq; lia.
Qed.

Lemma scan_binary (op : arith_op) (r : jsstring) :
  begins r → starts_with (op_char op) r = false →
  scan (Ready true) (op_char op :: r) = emit (op_token op) (scan (Ready false) r).
Proof.
  intros (c & tail & -> & Hc) Hs.
  destruct (begins_not_operator c Hc) as (Hstar & Hslash).
  destruct op; cbn [op_char starts_with] in Hs; simpl; by rewrite ?Hs, ?Hstar, ?Hslash.
Qed.

Lemma scan_sign (o neg : bool) (r : jsstring) :
  starts_with (sign_char neg) r = false →
  scan (Ready o) (sign_char neg :: r) = emit (sign_token neg) (scan (Ready false) r).
Proof. intros Hs. destruct neg; cbn [sign_char] in Hs; simpl; by rewrite Hs. Qed.

Lemma scan_text (t : term) :
  grammatical t = true → strict t = true → separated t = true →
  ∀ o rest, boundary rest →
  scan (Ready o) (text t ++ rest) = app (tokens t) <$> scan (Ready true) rest.
Proof.
  induction t as [ds fs|t IH|neg t IH|op a IHa b IHb];
    cbn [text tokens grammatical strict separated]; intros Hg Hz Hs o rest Hb.
  - rewrite scan_number; [|done|by apply negb_true_iff|done].
    by destruct (scan (Ready true) rest).
  - rewrite <- app_comm_cons, <- app_assoc.
    change (scan (Ready o) (Ch.lparen :: text t ++ [Ch.rparen] ++ rest))
      with (emit TLParen (scan (Ready false) (text t ++ [Ch.rparen] ++ rest))).
    rewrite IH by (done || apply boundary_rparen).
    change (scan (Ready true) ([Ch.rparen] ++ rest))
      with (emit TRParen (scan (Ready true) rest)).
    unfold emit. destruct (scan (Ready true) rest); [|done].
    simpl. by rewrite <- ?app_assoc.
  - apply andb_true_iff in Hg as [Hg _]. apply andb_true_iff in Hs as [Hs Hsep].
    apply negb_true_iff in Hsep.
    rewrite <- app_comm_cons, scan_sign by (by rewrite starts_with_begins).
    rewrite IH by done.
    unfold emit. by destruct (scan (Ready true) rest).
  - apply andb_true_iff in Hg as [Hg _]. apply andb_true_iff in Hg as [Hg _].
    apply andb_true_iff in Hg as [Ha Hb'].
    apply andb_true_iff in Hz as [Hza Hzb].
    apply andb_true_iff in Hs as [Hs Hsep]. apply andb_true_iff in Hs as [Hsa Hsb].
    apply negb_true_iff in Hsep.
    rewrite <- app_assoc.
    rewrite IHa by (done || apply boundary_operator).
    rewrite <- app_comm_cons, scan_binary
      by (by apply text_begins || by rewrite starts_with_begins).
    rewrite IHb by done.
    unfold emit. destruct (scan (Ready true) rest); [|done].
    simpl. by rewrite <- ?app_assoc.
Qed.

Lemma settled_sign (neg : bool) (ps : list pending) : settled E 3 (PUnary neg :: ps).
Proof. intros l v ??. lia. Qed.

Lemma run_sign (neg : bool) (r : list token) (ps : list pending) :
  run E (sign_token neg :: r) ps Awaiting = run E r (PUnary neg :: ps) Awaiting.
Proof. by destruct neg. Qed.

Lemma run_term (t : term) : grammatical t = true → ∀ p ps rest,
  (p ≤ tight t)%nat → settled E p ps →
  ∃ ps' v',
    run E (tokens t ++ rest) ps Awaiting = run E rest ps' (Have v')
    ∧ ∀ l, (l ≤ p)%nat → reduce E l ps' v' = reduce E l ps (VNum (value t)).
Proof.
  induction t as [ds fs|t IH|neg t IH|op a IHa b IHb];
    cbn [grammatical tokens value tight]; intros Hg p ps rest Hp Hps.
  - by exists ps, (VNum (decimal ds (fraction fs))).
  - destruct (IH Hg 0%nat (PParen :: ps) (TRParen :: rest)) as (ps1 & v1 & Hrun & Hred);
      [lia|apply settled_paren|].
    exists ps, (VNum (value t)). split; [|done].
    rewrite <- app_comm_cons, <- app_assoc. cbn [run app]. rewrite Hrun. cbn [run].
    by rewrite (Hred 0%nat) by lia.
  - apply andb_true_iff in Hg as [Hg Ht]. apply Nat.eqb_eq in Ht.
    destruct (IH Hg 3%nat (PUnary neg :: ps) rest) as (ps1 & v1 & Hrun & Hred);
      [lia|apply settled_sign|].
    exists ps1, v1. split.
    + rewrite <- app_comm_cons, run_sign. exact Hrun.
    + intros l Hl. rewrite Hred by lia. cbn [reduce]. unfold apply_unary. cbn [ToNumber].
      by destruct neg.
  - apply andb_true_iff in Hg as [Hg Hlb]. apply andb_true_iff in Hg as [Hg Hla].
    apply andb_true_iff in Hg as [Ha Hb].
    apply Nat.leb_le in Hla. apply Nat.ltb_lt in Hlb.
    pose proof (op_level_le op) as Hop.
    destruct (IHa Ha (op_level op) ps (op_token op :: tokens b ++ rest))
      as (psa & va & Hruna & Hreda); [done|by eapply settled_mono|].
    assert (Hq : reduce E (op_level op) psa va = (ps, VNum (value a))).
    { rewrite Hreda by lia. apply Hps; lia. }
    destruct (IHb Hb (S (op_level op)) (PBinary (op_binop op) (VNum (value a)) :: ps) rest)
      as (psb & vb & Hrunb & Hredb); [lia|apply settled_binary|].
    exists psb, vb. split.
    + rewrite <- app_assoc. cbn [app]. rewrite Hruna, run_operator, Hq. exact Hrunb.
    + intros l Hl. rewrite Hredb by lia. cbn [reduce].
      rewrite level_op_binop, (proj2 (Nat.leb_le _ _)) by lia.
      by rewrite apply_op.
Qed.

Lemma evaluate_text (t : term) :
  grammatical t = true → strict t = true → separated t = true →
  evaluate E (text t) = Normal (VNum (value t)).
Proof.
  intros Hg Hz Hs. unfold evaluate.
  change (Ch.lparen :: text t ++ [Ch.rparen]) with (text (Group t)).
  rewrite <- (app_nil_r (text (Group t))).
  rewrite (scan_text (Group t) Hg Hz Hs false [] (conj eq_refl eq_refl)).
  change (scan (Ready true) []) with (Some (@nil token)).
  cbn [fmap option_fmap option_map].
  destruct (run_term (Group t) Hg 0%nat [] []) as (ps' & v' & Hrun & Hred);
    [cbn [tight]; lia|apply settled_nil|].
  rewrite Hrun. cbn [run]. by rewrite (Hred 0%nat) by lia.
Qed.

Lemma text_not_empty (t : term) : grammatical t = true → text t ≠ [].
Proof.
  intros Hg Hnil. destruct (text_begins t Hg []) as (c & tail & H & _).
  by rewrite app_nil_r, Hnil in H.
Qed.

(** C3, as amended.  For every expression over decimal literals, with or
    without digits on either side of a point, the prefix signs [-] and
    [+], the binary operators [+ - * /] with their usual precedence and
    grouping to the left, and parentheses: if no literal has a leading
    zero before another digit of its integer part, and no [-] is written
    before a [-] and no [+] before a [+] (when the white space is taken
    away), [tryEvaluate] returns the binary64 value of the expression
    when it is finite and [null] otherwise, whatever white space and
    foreign characters the input adds to it; in particular
    [tryEvaluate("3*0.5+3*(-1)")] is -1.5. *)
Theorem tryEvaluate_value (g : bool) :
  (∀ t s, grammatical t = true → strict t = true → separated t = true →
     clean_of s = text t →
     tryEvaluate E g (JStr s) = if isFinite (value t) then JNum (value t) else JNull)
  ∧ ∃ f, tryEvaluate E g (JStr (u "3*0.5+3*(-1)")) = JNum f
         ∧ number_value f = Some (-3 # 2)%Q.
Proof.
  split.
  - intros t s Hg Hz Hsep Hs. rewrite tryEvaluate_string, Hs.
    pose proof (text_not_empty t Hg) as Hne.
    destruct (text t) as [|c r] eqn:Hr; [done|].
    rewrite <- Hr, (evaluate_text t Hg Hz Hsep). simpl.
    rewrite orb_true_r. by destruct (isFinite (value t)).
  - exists (S754_finite true 6755399441055744 (-52)).
    split; [|reflexivity]. by destruct g; vm_compute.
Qed.
End WrittenFacts.

Lemma tryEvaluate_value_witness :
  Forall (λ st, Written.grammatical st.2 = true ∧ Written.strict st.2 = true
                ∧ Written.separated st.2 = true
                ∧ Arith.clean_of st.1 = Written.text st.2
                ∧ Arith.tryEvaluate basic_host true (JStr st.1) = JNum (Written.value st.2))
    Written.samples.
Proof.
  unfold Written.samples.
  repeat (constructor;
    [ split; [reflexivity|]; split; [reflexivity|]; split; [reflexivity|];
      split; [reflexivity|];
      cbn [fst snd];
      lazymatch goal with
      | |- Arith.tryEvaluate _ _ (JStr ?s) = JNum (Written.value ?t) =>
        etrans; [exact (proj1 (tryEvaluate_value basic_host true) t s
                          eq_refl eq_refl eq_refl eq_refl)
                |by vm_compute]
      end
    | ]).
  constructor.
Defined.

(** C3, as stated, fails.  "1 - -1" is a well-formed expression of value
    2, and [tryEvaluate] returns [null] for it: the white space gone, the
    two signs are read as one decrement.  "010 + 1" is one of value 11,
    and [tryEvaluate] returns [null] for it: strict code has no literal
    with a leading zero.  Each meets every condition of the amended
    statement but one. *)
Lemma spaced_signs_give_null :
  (Written.grammatical Written.spaced_signs = true
   ∧ Written.strict Written.spaced_signs = true
   ∧ Written.separated Written.spaced_signs = false
   ∧ Arith.clean_of (u "1 - -1") = Written.text Written.spaced_signs
   ∧ ArithSpec.number_value (Written.value Written.spaced_signs) = Some (2 # 1)%Q
   ∧ Arith.tryEvaluate basic_host true (JStr (u "1 - -1")) = JNull)
  ∧ (Written.grammatical Written.leading_zero = true
     ∧ Written.strict Written.leading_zero = false
     ∧ Written.separated Written.leading_zero = true
     ∧ Arith.clean_of (u "010 + 1") = Written.text Written.leading_zero
     ∧ ArithSpec.number_value (Written.value Written.leading_zero) = Some (11 # 1)%Q
     ∧ Arith.tryEvaluate basic_host true (JStr (u "010 + 1")) = JNull).
Proof. repeat split; by vm_compute. Qed.
